(** * MCQDetect: from the printed sheet to the exported answers

    A shallow embedding of the five scripts of the repository:
    [1-sheet_generator/mcq_generator.py] (class [MCQSheetGenerator]),
    [2-filled_generator/mcq_auto_filler.py] (class [MCQAutoFiller]),
    [3-crop_straighted/image_straightener.py] (class [ImageStraightener]),
    [4-mcq_detect/mcq_scanner.py] (class [MCQAnswerSheetScanner]) and
    [5-jsontocsv/json_to_csv_exporter.py].

    Conventions of the embedding.
    - Python [int] is [Z].
    - A [float] is always a rational number, so float values (fill ratio,
      threshold, areas, means) are carried as [Q] and compared with the order
      of [Q]. Divisions and means are the exact rational ones; NumPy rounds
      them to the nearest double, which is monotone and cannot change a
      comparison between quotients of pixel-sized integers.
    - [rows], the [Dict[int, List[Dict]]] built by the row clustering, is an
      association list in insertion order, because [sorted(d.items(), ...)]
      is stable and therefore depends on that order.
    - [answers], the [Dict[int, str]] of results, is a [gmap Z string].
    - The OpenCV calls and the float formatter are the fields of the class
      [OpenCV]; raising is explicit, through [Py.result].
    - Of the drawing functions of the generator and the filler, the
      ellipses they draw are kept; the files the exporter reads and writes
      are the fields of a record. *)

From Stdlib Require Import ZArith QArith List Sorting.Sorted Permutation Lia.
From stdpp Require Import base option list sorting gmap strings pretty.

Local Open Scope Z_scope.

(** ** Python helpers *)
Module Py.

(** Exceptions that the modelled code can raise. *)
Inductive exn : Type :=
| ValueError (msg : string)
| ZeroDivisionError (msg : string)
| IndexError (msg : string).

(** [str(e)]. *)
Definition str_exn (e : exn) : string :=
  match e with
  | ValueError msg => msg
  | ZeroDivisionError msg => msg
  | IndexError msg => msg
  end.

Inductive result (A : Type) : Type :=
| Ok (a : A)
| Raise (e : exn).
Arguments Ok {A} a.
Arguments Raise {A} e.

Definition bind {A B} (r : result A) (k : A -> result B) : result B :=
  match r with
  | Ok a => k a
  | Raise e => Raise e
  end.

(** [len(l)] as a Python int. *)
Definition len {A} (l : list A) : Z := Z.of_nat (length l).

(** Insertion of [x], which stood before every element of [l] in the
    original list, into the sorted [l]: it goes before the first element
    whose key is not smaller, so that equal keys keep their order. *)
Fixpoint insert_by {A K} (leb : K -> K -> bool) (key : A -> K)
         (x : A) (l : list A) : list A :=
  match l with
  | [] => [x]
  | y :: l' =>
      if leb (key x) (key y) then x :: y :: l'
      else y :: insert_by leb key x l'
  end.

(** [sorted(l, key=key)] and [l.sort(key=key)]: a stable sort. *)
Fixpoint sorted_by {A K} (leb : K -> K -> bool) (key : A -> K)
         (l : list A) : list A :=
  match l with
  | [] => []
  | x :: l' => insert_by leb key x (sorted_by leb key l')
  end.

Definition sum_Z (l : list Z) : Z := fold_right Z.add 0 l.

(** [np.mean] of a list of ints. For the empty list NumPy answers [nan]
    (with a warning); here the quotient by zero is [0]. The rows that
    [organize_bubbles_by_rows] builds are never empty. *)
Definition mean (l : list Z) : Q := (inject_Z (sum_Z l) / inject_Z (len l))%Q.

(** [x < y] on floats. *)
Definition Qltb (x y : Q) : bool := negb (Qle_bool y x).

(** Normalisation of a slice bound against a sequence of length [n]:
    a negative bound counts from the end, and all bounds are clipped. *)
Definition slice_bound (n i : Z) : Z :=
  if i <? 0 then Z.max 0 (i + n) else Z.min i n.

(** [l[start:stop]]. *)
Definition slice {A} (l : list A) (start stop : Z) : list A :=
  let a := slice_bound (len l) start in
  let b := slice_bound (len l) stop in
  firstn (Z.to_nat (b - a)) (skipn (Z.to_nat a) l).

(** [l[i]] for a Python int [i]: a negative index counts from the end. *)
Definition getitem {A} (l : list A) (i : Z) : result A :=
  let j := if i <? 0 then i + len l else i in
  if j <? 0 then Raise (IndexError "list index out of range")
  else match nth_error l (Z.to_nat j) with
       | Some x => Ok x
       | None => Raise (IndexError "list index out of range")
       end.

(** [enumerate(l)], counting from [i]. *)
Fixpoint enumerate_from {A} (i : Z) (l : list A) : list (Z * A) :=
  match l with
  | [] => []
  | x :: l' => (i, x) :: enumerate_from (i + 1) l'
  end.

End Py.

(** ** Images *)

(** A 2-D [uint8] array: rows of pixel values. *)
Definition ndarray := list (list Z).

(** The pixel type [uint8]. *)
Definition uint8_image (img : ndarray) : Prop :=
  Forall (Forall (fun p => 0 <= p <= 255)) img.

(** [img.shape] of a 2-D array: (height, width). *)
Definition shape (img : ndarray) : Z * Z :=
  (Py.len img, Py.len (hd [] img)).

(** [img[y0:y1, x0:x1]]. *)
Definition crop (img : ndarray) (y0 y1 x0 x1 : Z) : ndarray :=
  map (fun r => Py.slice r x0 x1) (Py.slice img y0 y1).

(** [np.sum] of a 2-D array. *)
Definition np_sum (img : ndarray) : Z := Py.sum_Z (map Py.sum_Z img).

(** An OpenCV contour: the sequence of its points. *)
Definition contour := list (Z * Z).

(** ** The libraries the two classes call *)
Class OpenCV : Type := {
  (** A colour (BGR) image. *)
  color_image : Type;
  (** [cv2.imread]: [None] when the file is missing or cannot be decoded. *)
  imread : string -> option color_image;
  (** [cv2.cvtColor(img, cv2.COLOR_BGR2GRAY)]. *)
  cvtColor_gray : color_image -> ndarray;
  (** [cv2.GaussianBlur(gray, (5, 5), 0)]. *)
  GaussianBlur : ndarray -> ndarray;
  (** [cv2.adaptiveThreshold(blurred, 255, GAUSSIAN_C, BINARY_INV, 11, 2)]. *)
  adaptiveThreshold : ndarray -> ndarray;
  (** [cv2.threshold(gray, 0, 255, BINARY_INV + OTSU)], the image returned. *)
  threshold_otsu : ndarray -> ndarray;
  (** [cv2.findContours(img, RETR_EXTERNAL, CHAIN_APPROX_SIMPLE)]. *)
  findContours : ndarray -> list contour;
  contourArea : contour -> Q;
  (** [cv2.arcLength(contour, True)]. *)
  arcLength : contour -> Q;
  (** [cv2.boundingRect(contour)]: [(x, y, w, h)]. *)
  boundingRect : contour -> Z * Z * Z * Z;
  (** [img.copy()] is the identity on values; the two drawing calls. *)
  rectangle : color_image -> Z * Z -> Z * Z -> Z * Z * Z -> Z -> color_image;
  putText : color_image -> string -> Z * Z -> Z * Z * Z -> color_image;
  (** [f"{x:.2f}"]. *)
  format_2f : Q -> string;
  (** [os.path.join]. *)
  path_join : string -> string -> string
}.

(** OpenCV's contract for [boundingRect] on the contours [findContours]
    returns: a contour has at least one point, so its bounding rectangle is
    at least one pixel wide and high. *)
Definition nonempty_rect (r : Z * Z * Z * Z) : Prop :=
  let '(_, _, w, h) := r in 0 < w /\ 0 < h.

Definition proper_contours `{OpenCV} (img : ndarray) : Prop :=
  Forall (fun c => nonempty_rect (boundingRect c)) (findContours img).

(** What a run leaves behind besides its return value. *)
Inductive event `{OpenCV} : Type :=
| Print (line : string)
| ImWrite (path : string) (img : color_image).

(** [np.pi], the double nearest to pi. *)
Definition np_pi : Q := 884279719003555 # 281474976710656.

(** ** The scanner: [MCQAnswerSheetScanner] *)
Module Scanner.

(** The dictionary appended to [bubbles] by [detect_bubbles]. *)
Record bubble : Type := Bubble {
  center : Z * Z;
  bbox : Z * Z * Z * Z;
  area : Q;
  fill_ratio : Q;
  bubble_contour : contour
}.

Definition center_x (b : bubble) : Z := fst (center b).
Definition center_y (b : bubble) : Z := snd (center b).

(** [rows]: row index to the bubbles of the row, in insertion order. *)
Abbreviation rows_dict := (list (Z * list bubble)).

(** [tolerance = 20], the pixel tolerance for one row. *)
Definition tolerance : Z := 20.

(** The two statements
    [if current_row not in rows: rows[current_row] = []] and
    [rows[current_row].append(bubble)]. *)
Fixpoint rows_append (rows : rows_dict) (k : Z) (b : bubble) : rows_dict :=
  match rows with
  | [] => [(k, [b])]
  | (k', r) :: rows' =>
      if k' =? k then (k', r ++ [b]) :: rows'
      else (k', r) :: rows_append rows' k b
  end.

(** The loop [for bubble in bubbles] of [organize_bubbles_by_rows], on the
    state [(rows, current_row, last_y)]. [last_y] is assigned only when a
    row is opened. *)
Fixpoint walk (bubbles : list bubble) (rows : rows_dict)
         (current_row last_y : Z) : rows_dict * Z * Z :=
  match bubbles with
  | [] => (rows, current_row, last_y)
  | b :: rest =>
      let y := center_y b in
      let '(current_row, last_y) :=
        if tolerance <? Z.abs (y - last_y)
        then (current_row + 1, y)
        else (current_row, last_y) in
      walk rest (rows_append rows current_row b) current_row last_y
  end.

(** [bubbles.sort(key=lambda b: b['center'][1])]. *)
Definition sort_by_y (bubbles : list bubble) : list bubble :=
  Py.sorted_by Z.leb center_y bubbles.

(** [row.sort(key=lambda b: b['center'][0])]. *)
Definition sort_by_x (bubbles : list bubble) : list bubble :=
  Py.sorted_by Z.leb center_x bubbles.

Definition organize_bubbles_by_rows (bubbles : list bubble) : rows_dict :=
  match bubbles with
  | [] => []
  | _ :: _ =>
      let bubbles := sort_by_y bubbles in
      let last_y := match bubbles with b0 :: _ => center_y b0 | [] => 0 end in
      let '(rows, _, _) := walk bubbles [] 0 last_y in
      map (fun kr => (fst kr, sort_by_x (snd kr))) rows
  end.

(** [choices = ['A', 'B', 'C', 'D']]. *)
Definition choices : list string := ["A"; "B"; "C"; "D"]%string.

(** [choices[i]] for the indices [enumerate] hands out; the slice [[:4]]
    keeps them below four, so that the default is never returned. *)
Definition choice_at (i : Z) : string :=
  default ""%string (choices !! Z.to_nat i).

(** [bubble['fill_ratio'] > self.bubble_threshold]. *)
Definition is_filled (bubble_threshold : Q) (b : bubble) : bool :=
  Py.Qltb bubble_threshold (fill_ratio b).

(** The inner loop
    [for i, bubble in enumerate(side[:4]): if ...: answers[q] = choices[i]; break]. *)
Fixpoint first_filled (bubble_threshold : Q) (question_num : Z)
         (side : list (Z * bubble)) (answers : gmap Z string) : gmap Z string :=
  match side with
  | [] => answers
  | (i, b) :: rest =>
      if is_filled bubble_threshold b
      then <[question_num := choice_at i]> answers
      else first_filled bubble_threshold question_num rest answers
  end.

Definition left_of (row_bubbles : list bubble) : list bubble :=
  let avg_x := Py.mean (map center_x row_bubbles) in
  List.filter (fun b => Py.Qltb (inject_Z (center_x b)) avg_x) row_bubbles.

Definition right_of (row_bubbles : list bubble) : list bubble :=
  let avg_x := Py.mean (map center_x row_bubbles) in
  List.filter (fun b => Qle_bool avg_x (inject_Z (center_x b))) row_bubbles.

(** One side of a row: [first_col] is 1 for the left block and 26 for the
    right one, [last] the largest question number of the block. *)
Definition process_side (bubble_threshold : Q) (row_idx first_col last : Z)
           (side : list bubble) (answers : gmap Z string) : gmap Z string :=
  if 4 <=? Py.len side then
    let side := sort_by_x side in
    let question_num := row_idx + first_col in
    if question_num <=? last then
      first_filled bubble_threshold question_num
                   (Py.enumerate_from 0 (Py.slice side 0 4)) answers
    else answers
  else answers.

(** The body of [for row_idx, (_, row_bubbles) in enumerate(sorted_rows)]. *)
Definition process_row (bubble_threshold : Q) (row_idx : Z)
           (row_bubbles : list bubble) (answers : gmap Z string) : gmap Z string :=
  if Py.len row_bubbles <? 4 then answers
  else
    let answers :=
      process_side bubble_threshold row_idx 1 25 (left_of row_bubbles) answers in
    process_side bubble_threshold row_idx 26 50 (right_of row_bubbles) answers.

Fixpoint process_rows (bubble_threshold : Q)
         (rows : list (Z * (Z * list bubble))) (answers : gmap Z string)
  : gmap Z string :=
  match rows with
  | [] => answers
  | (row_idx, (_, row_bubbles)) :: rest =>
      process_rows bubble_threshold rest
                   (process_row bubble_threshold row_idx row_bubbles answers)
  end.

(** [sorted(organized_bubbles.items(), key=lambda x: np.mean(ys of x[1]))]. *)
Definition sorted_rows (organized_bubbles : rows_dict) : rows_dict :=
  Py.sorted_by Qle_bool (fun kr => Py.mean (map center_y (snd kr)))
               organized_bubbles.

Definition map_bubbles_to_questions (bubble_threshold : Q)
           (organized_bubbles : rows_dict) : gmap Z string :=
  process_rows bubble_threshold
               (Py.enumerate_from 0 (sorted_rows organized_bubbles)) ∅.

(** [answers.get(question, "No answer detected")] of [print_results]. *)
Definition displayed_answer (answers : gmap Z string) (question : Z) : string :=
  default "No answer detected"%string (answers !! question).

(** *** Read-outs used to state the properties

    The definitions below are not in the source: they name what the loops
    above compute, and the theorems relate the two. *)

(** The letter the inner loop stores, if it stores one. *)
Fixpoint first_letter (bubble_threshold : Q) (side : list (Z * bubble))
  : option string :=
  match side with
  | [] => None
  | (i, b) :: rest =>
      if is_filled bubble_threshold b then Some (choice_at i)
      else first_letter bubble_threshold rest
  end.

(** The letter of one block of a row: none when the block has fewer than
    four bubbles or none of its first four is filled. *)
Definition side_letter (bubble_threshold : Q) (side : list bubble)
  : option string :=
  if 4 <=? Py.len side
  then first_letter bubble_threshold
                    (Py.enumerate_from 0 (Py.slice (sort_by_x side) 0 4))
  else None.

(** The letter of one block of a whole row: none when the row is skipped. *)
Definition row_letter (bubble_threshold : Q)
           (side_of : list bubble -> list bubble) (row : Z * list bubble)
  : option string :=
  if Py.len (snd row) <? 4 then None
  else side_letter bubble_threshold (side_of (snd row)).

(** The answer of question [q], read off the rows in top-to-bottom order:
    question [q <= 25] is the left block of row [q - 1], question
    [q >= 26] the right block of row [q - 26]. *)
Definition slot_answer (bubble_threshold : Q) (rows : rows_dict) (q : Z)
  : option string :=
  if (1 <=? q) && (q <=? 25) then
    row ← rows !! Z.to_nat (q - 1); row_letter bubble_threshold left_of row
  else if (26 <=? q) && (q <=? 50) then
    row ← rows !! Z.to_nat (q - 26); row_letter bubble_threshold right_of row
  else None.

(** The two blocks of the sheet: questions 1-25 and questions 26-50. *)
Inductive column : Type := LeftColumn | RightColumn.

Definition side_of (col : column) : list bubble -> list bubble :=
  match col with LeftColumn => left_of | RightColumn => right_of end.

Definition first_question (col : column) : Z :=
  match col with LeftColumn => 1 | RightColumn => 26 end.

Definition last_question (col : column) : Z :=
  match col with LeftColumn => 25 | RightColumn => 50 end.

(** The bubbles the inner loop goes through for one block: [side[:4]]
    after the sort by x. *)
Definition options_of (col : column) (row_bubbles : list bubble) : list bubble :=
  Py.slice (sort_by_x (side_of col row_bubbles)) 0 4.

(** Candidate [b] belongs to the row with index [k]. *)
Definition in_row (rows : rows_dict) (k : Z) (b : bubble) : Prop :=
  exists row, In (k, row) rows /\ In b row.

(** What holds of the loop state of [walk] over candidates in y order:
    [current_row] is the largest index, the members of the current row
    lie within the tolerance above [last_y], all other rows lie above
    (smaller y), and rows with greater index lie strictly lower. *)
Record walk_inv (rows : rows_dict) (current_row last_y : Z) : Prop := {
  inv_keys : NoDup (map fst rows);
  inv_max : forall k a, in_row rows k a -> k <= current_row;
  inv_current : forall a, in_row rows current_row a ->
                          last_y <= center_y a <= last_y + tolerance;
  inv_above : forall k a, in_row rows k a -> k < current_row ->
                          center_y a < last_y;
  inv_order : forall k1 k2 a1 a2, in_row rows k1 a1 -> in_row rows k2 a2 ->
                                  k1 < k2 -> center_y a1 < center_y a2;
  inv_anchor : exists a, in_row rows current_row a /\ center_y a = last_y;
  inv_within : forall k a1 a2, in_row rows k a1 -> in_row rows k a2 ->
                               Z.abs (center_y a2 - center_y a1) <= tolerance
}.

(** Candidates in y order, none of them above [last_y]. *)
Definition ascending_from (last_y : Z) (bubbles : list bubble) : Prop :=
  StronglySorted (fun a b => center_y a <= center_y b) bubbles
  /\ Forall (fun b => last_y <= center_y b) bubbles.

(** Two candidates lie in one row of [rows]. *)
Definition same_row (rows : rows_dict) (b1 b2 : bubble) : Prop :=
  exists k row, In (k, row) rows /\ In b1 row /\ In b2 row.

(** The fraction of ink in the bounding box of [b]: the sum of the pixel
    values of [thresh_img] in the box over 255 times its area. *)
Definition ink_fraction (thresh_img : ndarray) (b : bubble) : Q :=
  let '(x, y, w, h) := bbox b in
  (inject_Z (np_sum (crop thresh_img y (y + h) x (x + w)))
   / inject_Z (255 * w * h))%Q.

(** What bubble detection promises about a candidate. *)
Definition fill_ok (thresh_img : ndarray) (b : bubble) : Prop :=
  (fill_ratio b == ink_fraction thresh_img b)%Q
  /\ (0 <= fill_ratio b <= 1)%Q.

(** The attributes of a scanner object. *)
Record scanner : Type := {
  answers : gmap Z string;
  bubble_threshold : Q
}.

(** [__init__]. *)
Definition init : scanner :=
  {| answers := ∅; bubble_threshold := 6 # 10 |}.

Section Pipeline.
Context `{cv : OpenCV}.

Definition preprocess_image (image_path : string)
  : Py.result (ndarray * ndarray * color_image) :=
  match imread image_path with
  | None =>
      Py.Raise (Py.ValueError ("Could not load image from " +:+ image_path))
  | Some img =>
      let gray := cvtColor_gray img in
      let blurred := GaussianBlur gray in
      let thresh := adaptiveThreshold blurred in
      Py.Ok (thresh, gray, img)
  end.

(** The loop [for contour in contours] of [detect_bubbles]; [bubbles] is
    the list built so far. *)
Fixpoint detect_loop (thresh_img : ndarray) (contours : list contour)
         (bubbles : list bubble) : Py.result (list bubble) :=
  match contours with
  | [] => Py.Ok bubbles
  | c :: rest =>
      let area := contourArea c in
      let perimeter := arcLength c in
      if Py.Qltb area 100 || Py.Qltb 2000 area
      then detect_loop thresh_img rest bubbles
      else if Qeq_bool perimeter 0
      then detect_loop thresh_img rest bubbles
      else
        let circularity :=
          (4 * np_pi * area / (perimeter * perimeter))%Q in
        if Py.Qltb circularity (6 # 10)
        then detect_loop thresh_img rest bubbles
        else
          let '(x, y, w, h) := boundingRect c in
          if h =? 0
          then Py.Raise (Py.ZeroDivisionError "float division by zero")
          else
            let aspect_ratio := (inject_Z w / inject_Z h)%Q in
            if Py.Qltb aspect_ratio (7 # 10) || Py.Qltb (13 # 10) aspect_ratio
            then detect_loop thresh_img rest bubbles
            else
              let center_x := x + w / 2 in
              let center_y := y + h / 2 in
              let bubble_region := crop thresh_img y (y + h) x (x + w) in
              let fill_ratio :=
                (inject_Z (np_sum bubble_region)
                 / inject_Z (255 * w * h))%Q in
              detect_loop thresh_img rest
                (bubbles ++ [{| center := (center_x, center_y);
                                bbox := (x, y, w, h);
                                area := area;
                                fill_ratio := fill_ratio;
                                bubble_contour := c |}])
  end.

Definition detect_bubbles (thresh_img : ndarray) (original_img : color_image)
  : Py.result (list bubble) :=
  detect_loop thresh_img (findContours thresh_img) [].

(** The debug image: one rectangle and one label per bubble. *)
Definition draw_bubble (self : scanner) (debug_img : color_image)
           (b : bubble) : color_image :=
  let '(x, y, w, h) := bbox b in
  let color := if is_filled (bubble_threshold self) b
               then (0, 255, 0) else (0, 0, 255) in
  let debug_img := rectangle debug_img (x, y) (x + w, y + h) color 2 in
  putText debug_img (format_2f (fill_ratio b)) (x, y - 10) color.

(** The [try] block of [scan_answer_sheet]. The events come in program
    order. [organize_bubbles_by_rows] sorts [bubbles] in place, so the
    debug loop, which runs after it, sees the list sorted by y. *)
Definition scan_body (self : scanner) (image_path : string) (debug : bool)
           (output_dir : string) : list event * Py.result (gmap Z string) :=
  match preprocess_image image_path with
  | Py.Raise e => ([], Py.Raise e)
  | Py.Ok (thresh_img, gray_img, original_img) =>
      match detect_bubbles thresh_img original_img with
      | Py.Raise e => ([], Py.Raise e)
      | Py.Ok bubbles =>
          let out1 :=
            if debug
            then [Print ("Detected " +:+ pretty (Py.len bubbles)
                         +:+ " potential bubbles")]
            else [] in
          let organized_bubbles := organize_bubbles_by_rows bubbles in
          let bubbles := match bubbles with
                         | [] => bubbles
                         | _ :: _ => sort_by_y bubbles
                         end in
          let out2 :=
            if debug
            then Print ("Organized into " +:+ pretty (Py.len organized_bubbles)
                        +:+ " rows")
                 :: map (fun kr =>
                           Print ("Row " +:+ pretty (fst kr) +:+ ": "
                                  +:+ pretty (Py.len (snd kr)) +:+ " bubbles"))
                        organized_bubbles
            else [] in
          let answers :=
            map_bubbles_to_questions (bubble_threshold self)
                                     organized_bubbles in
          let out3 :=
            if debug
            then
              let debug_img := fold_left (draw_bubble self) bubbles original_img in
              let debug_output_path := path_join output_dir "debug_bubbles.jpg" in
              [ImWrite debug_output_path debug_img;
               Print ("Debug image saved as '" +:+ debug_output_path +:+ "'")]
            else [] in
          (out1 ++ out2 ++ out3, Py.Ok answers)
      end
  end.

(** [scan_answer_sheet]: the [except Exception] clause turns every
    exception of the body into a printed line and the empty mapping. The
    method assigns no attribute, so the object comes back as it was. *)
Definition scan_answer_sheet (self : scanner) (image_path : string)
           (debug : bool) (output_dir : string)
  : scanner * list event * Py.result (gmap Z string) :=
  match scan_body self image_path debug output_dir with
  | (out, Py.Ok answers) => (self, out, Py.Ok answers)
  | (out, Py.Raise e) =>
      (self,
       out ++ [Print ("Error scanning answer sheet: " +:+ Py.str_exn e)],
       Py.Ok ∅)
  end.

(** Read-out: the mapping the [try] block returns, or the exception it
    raises; neither the debug flag nor the output directory enters. *)
Definition body_result (self : scanner) (image_path : string)
  : Py.result (gmap Z string) :=
  Py.bind (preprocess_image image_path)
    (fun '(thresh_img, _, original_img) =>
  Py.bind (detect_bubbles thresh_img original_img) (fun bubbles =>
  Py.Ok (map_bubbles_to_questions (bubble_threshold self)
                                  (organize_bubbles_by_rows bubbles)))).

End Pipeline.

End Scanner.

(** ** The straightener: [ImageStraightener] *)
Module Straightener.

(** The order of Python on pairs of ints. *)
Definition pair_leb (a b : Z * Z) : bool :=
  (fst a <? fst b) || ((fst a =? fst b) && (snd a <=? snd b)).

(** [sorted(corners)]. *)
Definition sorted_points (corners : list (Z * Z)) : list (Z * Z) :=
  Py.sorted_by pair_leb (fun c => c) corners.

(** The fallback of [detect_corner_markers], with [margin = 50]. *)
Definition fallback_corners (gray : ndarray) : list (Z * Z) :=
  let '(h, w) := shape gray in
  let margin := 50 in
  [(margin, margin); (w - margin, margin);
   (w - margin, h - margin); (margin, h - margin)].

Section Detection.
Context `{cv : OpenCV}.

(** The attributes set by [__init__]. *)
Record straightener : Type := {
  image_path : string;
  image : color_image;
  gray : ndarray;
  straightened_image : option color_image
}.

Definition init (path : string) : Py.result straightener :=
  match imread path with
  | None => Py.Raise (Py.ValueError ("Could not load image from " +:+ path))
  | Some img =>
      Py.Ok {| image_path := path; image := img;
               gray := cvtColor_gray img; straightened_image := None |}
  end.

(** The loop [for contour in contours] of [detect_corner_markers]. *)
Fixpoint collect_corners (gray : ndarray) (contours : list contour)
         (corners : list (Z * Z)) : Py.result (list (Z * Z)) :=
  match contours with
  | [] => Py.Ok corners
  | c :: rest =>
      let area := contourArea c in
      if Py.Qltb 100 area && Py.Qltb area 2000 then
        let '(x, y, w, h) := boundingRect c in
        if h =? 0 then Py.Raise (Py.ZeroDivisionError "division by zero")
        else
          let aspect_ratio := (inject_Z w / inject_Z h)%Q in
          if Py.Qltb (7 # 10) aspect_ratio && Py.Qltb aspect_ratio (13 # 10)
          then
            let '(height, width) := shape gray in
            let center_x := x + w / 2 in
            let center_y := y + h / 2 in
            let margin := 100 in
            if ((center_x <? margin) || (width - margin <? center_x))
               && ((center_y <? margin) || (height - margin <? center_y))
            then collect_corners gray rest (corners ++ [(center_x, center_y)])
            else collect_corners gray rest corners
          else collect_corners gray rest corners
      else collect_corners gray rest corners
  end.

Definition top_of (gray : ndarray) (corners : list (Z * Z)) : list (Z * Z) :=
  sorted_points (List.filter (fun c => snd c <? fst (shape gray) / 2) corners).

Definition bottom_of (gray : ndarray) (corners : list (Z * Z)) : list (Z * Z) :=
  sorted_points (List.filter (fun c => fst (shape gray) / 2 <=? snd c) corners).

(** The part of [detect_corner_markers] after the loop. *)
Definition select_corners (gray : ndarray) (corners : list (Z * Z))
  : Py.result (list (Z * Z)) :=
  if 4 <=? Py.len corners then
    let corners := sorted_points corners in
    let top_corners := top_of gray corners in
    let bottom_corners := bottom_of gray corners in
    if (2 <=? Py.len top_corners) && (2 <=? Py.len bottom_corners) then
      Py.bind (Py.getitem top_corners 0) (fun tl =>
      Py.bind (Py.getitem top_corners (-1)) (fun tr =>
      Py.bind (Py.getitem bottom_corners (-1)) (fun br =>
      Py.bind (Py.getitem bottom_corners 0) (fun bl =>
      Py.Ok [tl; tr; br; bl]))))
    else Py.Ok (fallback_corners gray)
  else Py.Ok (fallback_corners gray).

(** The marker candidates: the value of [corners] after the loop. *)
Definition marker_candidates (gray : ndarray) : Py.result (list (Z * Z)) :=
  let binary := threshold_otsu gray in
  collect_corners gray (findContours binary) [].

Definition detect_corner_markers (self : straightener)
  : Py.result (list (Z * Z)) :=
  Py.bind (marker_candidates (gray self)) (select_corners (gray self)).

End Detection.

End Straightener.

(** ** Concrete inputs for the examples *)
Module Fixtures.
Import Scanner.

(** A ten-by-ten bubble centred at [(x, y)] with fill ratio [f]. *)
Definition mk (x y : Z) (f : Q) : bubble :=
  {| center := (x, y); bbox := (x - 5, y - 5, 10, 10); area := 100;
     fill_ratio := f; bubble_contour := [] |}.

(** A row with one bubble left of the mean x (81.2) and four right of it;
    the first two on the right are filled. *)
Definition lopsided_row : list bubble :=
  [mk 0 0 0; mk 100 0 (8 # 10); mk 101 0 (8 # 10); mk 102 0 0; mk 103 0 0].

(** A regular row of eight bubbles: options A and B of the left question
    are both filled at 0.8, the right question is blank. *)
Definition double_marked_row : list bubble :=
  [mk 10 0 (8 # 10); mk 20 0 (8 # 10); mk 30 0 0; mk 40 0 0;
   mk 110 0 0; mk 120 0 0; mk 130 0 0; mk 140 0 0].

(** A regular row in which every bubble sits exactly at the threshold 0.6. *)
Definition boundary_row : list bubble :=
  [mk 10 0 (6 # 10); mk 20 0 (6 # 10); mk 30 0 (6 # 10); mk 40 0 (6 # 10);
   mk 110 0 (6 # 10); mk 120 0 (6 # 10); mk 130 0 (6 # 10); mk 140 0 (6 # 10)].

(** Three candidates in one column, fifteen pixels apart. *)
Definition staircase : list bubble := [mk 0 0 0; mk 0 15 0; mk 0 30 0].

(** The outline of the rectangle with corner [(x, y)], width [w] and
    height [h], as a contour. *)
Definition box (x y w h : Z) : contour :=
  [(x, y); (x + w - 1, y); (x + w - 1, y + h - 1); (x, y + h - 1)].

(** The bounding rectangle of a set of integer points. *)
Definition rect_of (c : contour) : Z * Z * Z * Z :=
  match c with
  | [] => (0, 0, 0, 0)
  | (x, y) :: _ =>
      let x0 := fold_right Z.min x (map fst c) in
      let x1 := fold_right Z.max x (map fst c) in
      let y0 := fold_right Z.min y (map snd c) in
      let y1 := fold_right Z.max y (map snd c) in
      (x0, y0, x1 - x0 + 1, y1 - y0 + 1)
  end.

(** A small world: the readable files with their pixels, and the contours
    that are found in them. Areas and perimeters are those of the bounding
    rectangle; the filters do nothing; drawing leaves the image alone. *)
Definition world (files : list (string * ndarray)) (contours : list contour)
  : OpenCV :=
  {| color_image := ndarray;
     imread path :=
       snd <$> List.find (fun f => String.eqb (fst f) path) files;
     cvtColor_gray img := img;
     GaussianBlur img := img;
     adaptiveThreshold img := img;
     threshold_otsu img := img;
     findContours _ := contours;
     contourArea c := let '(_, _, w, h) := rect_of c in inject_Z (w * h);
     arcLength c := let '(_, _, w, h) := rect_of c in inject_Z (2 * (w + h));
     boundingRect := rect_of;
     rectangle img _ _ _ _ := img;
     putText img _ _ _ := img;
     format_2f _ := "0.00"%string;
     path_join dir name := (dir +:+ "/" +:+ name)%string |}.

(** A sheet of one row: eight ten-by-ten bubbles side by side, of which
    the second (option B of question 1) is inked. *)
Definition sheet_pixels : ndarray :=
  repeat (repeat 0 10 ++ repeat 255 10 ++ repeat 0 60) 10.

Definition sheet_contours : list contour :=
  map (fun j => box (10 * j) 0 10 10) [0; 1; 2; 3; 4; 5; 6; 7].

Definition sheet_world : OpenCV :=
  world [("sheet.png"%string, sheet_pixels)] sheet_contours.

(** A 300 x 300 page with an eleven-by-eleven marker in each corner. *)
Definition page_pixels : ndarray := repeat (repeat 255 300) 300.

Definition page_contours : list contour :=
  [box 280 10 11 11; box 10 280 11 11; box 10 10 11 11; box 280 280 11 11].

Definition page_world : OpenCV :=
  world [("page.png"%string, page_pixels)] page_contours.

(** The straightener object made from ["page.png"] in [page_world]. *)
Definition page_straightener : Straightener.straightener (cv := page_world) :=
  @Straightener.Build_straightener page_world
    "page.png" page_pixels page_pixels None.

End Fixtures.

(** ** More concrete inputs *)
Module MoreFixtures.
Import Scanner Fixtures.

(** A row of four bubbles side by side, all of them completely filled. *)
Definition four_filled_row : list bubble :=
  [mk 10 0 1; mk 20 0 1; mk 30 0 1; mk 40 0 1].

End MoreFixtures.

(** ** Read-outs of the detection loop *)
Module DetectionReadouts.
Import Scanner.

Section Detection.
Context `{cv : OpenCV}.

(** The contour gets as far as the division [float(w) / h]: it passes the
    tests on the area, on the perimeter and on the circularity. *)
Definition reaches_division (c : contour) : bool :=
  negb (Py.Qltb (contourArea c) 100 || Py.Qltb 2000 (contourArea c))
  && negb (Qeq_bool (arcLength c) 0)
  && negb (Py.Qltb (4 * np_pi * contourArea c
                    / (arcLength c * arcLength c))%Q (6 # 10)).

(** The height of the bounding rectangle. *)
Definition rect_height (c : contour) : Z :=
  let '(_, _, _, h) := boundingRect c in h.

(** The contour passes every test of the loop. *)
Definition accepted (c : contour) : bool :=
  reaches_division c
  && (let '(_, _, w, h) := boundingRect c in
      negb (Py.Qltb (inject_Z w / inject_Z h)%Q (7 # 10)
            || Py.Qltb (13 # 10) (inject_Z w / inject_Z h)%Q)).

(** The dictionary the loop appends for an accepted contour. *)
Definition bubble_of (thresh_img : ndarray) (c : contour) : bubble :=
  let '(x, y, w, h) := boundingRect c in
  {| center := (x + w / 2, y + h / 2);
     bbox := (x, y, w, h);
     area := contourArea c;
     fill_ratio := (inject_Z (np_sum (crop thresh_img y (y + h) x (x + w)))
                    / inject_Z (255 * w * h))%Q;
     bubble_contour := c |}.

End Detection.

End DetectionReadouts.

(** ** The command line of the scanner: [print_results], [save_results]
    and the main block *)
Module Cli.
Import Scanner.

Definition newline : string := String (Ascii.ascii_of_nat 10) EmptyString.

(** [f"{n:2d}"]: right-aligned in a field of two characters. *)
Definition format_2d (n : Z) : string :=
  let s := pretty n in
  if (String.length s <? 2)%nat then (" " +:+ s)%string else s.

(** [f"Question {question:2d}: {answer}"]. *)
Definition question_line (answers : gmap Z string) (question : Z) : string :=
  ("Question " +:+ format_2d question +:+ ": "
   +:+ displayed_answer answers question)%string.

(** [print_results]: the strings handed to [print], one per call. *)
Definition print_results (answers : gmap Z string) : list string :=
  [(newline +:+ "=== SCANNED ANSWERS ===")%string]
  ++ map (question_line answers) (seqZ 1 50)
  ++ [(newline +:+ "Total answered questions: " +:+ pretty (size answers)
       +:+ "/50")%string].

(** What [os.makedirs] and [open] can raise. *)
Inductive os_error : Type :=
| FileNotFoundError (msg : string)
| OtherError (msg : string).

(** The file system as the scanner sees it: whether creating the output
    directory and opening the output file for writing succeed. *)
Class FileSystem : Type := {
  makedirs : string -> option os_error;
  open_for_writing : string -> option os_error
}.

Section Main.
Context `{cv : OpenCV} `{fs : FileSystem}.

(** What the command line does, in program order. *)
Inductive effect : Type :=
| Ev (e : event)
| MakeDirs (dir : string)
| JsonDump (path : string) (answers : gmap Z string).

Definition say (line : string) : effect := Ev (Print line).

(** [save_results]: the effects, and the error when one is raised. *)
Definition save_results (answers : gmap Z string)
           (output_dir output_filename : string)
  : list effect * option os_error :=
  match makedirs output_dir with
  | Some e => ([], Some e)
  | None =>
      let output_path := path_join output_dir output_filename in
      match open_for_writing output_path with
      | Some e => ([MakeDirs output_dir], Some e)
      | None =>
          ([MakeDirs output_dir; JsonDump output_path answers;
            say ("Results saved to " +:+ output_path)], None)
      end
  end.

(** The parsed command line. *)
Record arguments : Type := {
  arg_image_path : string;
  arg_output_dir : string;
  arg_output_file : string;
  arg_debug : bool;
  arg_threshold : Q
}.

(** The block under [if __name__ == "__main__"]. *)
Definition main (args : arguments) : list effect :=
  let scanner := {| answers := answers init;
                    bubble_threshold := arg_threshold args |} in
  let '(_, out, result) :=
    scan_answer_sheet scanner (arg_image_path args) (arg_debug args)
                      (arg_output_dir args) in
  map Ev out
  ++ match result with
     | Py.Raise e => [say ("Error: " +:+ Py.str_exn e)]
     | Py.Ok answers =>
         map say (print_results answers)
         ++ (let '(effects, error) :=
               save_results answers (arg_output_dir args)
                            (arg_output_file args) in
             effects
             ++ match error with
                | None => []
                | Some (FileNotFoundError _) =>
                    [say ("Error: Could not find image file '"
                          +:+ arg_image_path args +:+ "'");
                     say "Please make sure the image file exists and provide the correct path"]
                | Some (OtherError msg) => [say ("Error: " +:+ msg)]
                end)
     end.

End Main.

End Cli.

(** ** The rest of the straightener: [crop_and_straighten],
    [save_straightened_image] and [process_image] *)
Module Rectify.
Import Straightener.

(** What these methods can raise: a Python exception, or the [cv2.error]
    of [getPerspectiveTransform], which insists on four source points. *)
Inductive failure : Type :=
| Python (e : Py.exn)
| OpenCVError.

Inductive outcome (A : Type) : Type :=
| Done (a : A)
| Failed (f : failure).
Arguments Done {A} a.
Arguments Failed {A} f.

(** A point lies in one of the four corner regions of the image: within
    100 pixels of the left or right edge and of the top or bottom edge. *)
Definition near_a_corner (gray : ndarray) (c : Z * Z) : Prop :=
  let '(height, width) := shape gray in
  (fst c < 100 \/ width - 100 < fst c) /\ (snd c < 100 \/ height - 100 < snd c).

(** [repr] of a list of pairs of ints, as an f-string shows it. *)
Definition repr_point (c : Z * Z) : string :=
  ("(" +:+ pretty (fst c) +:+ ", " +:+ pretty (snd c) +:+ ")")%string.

Fixpoint join_with (sep : string) (l : list string) : string :=
  match l with
  | [] => ""
  | [x] => x
  | x :: rest => x +:+ sep +:+ join_with sep rest
  end.

Definition repr_points (l : list (Z * Z)) : string :=
  ("[" +:+ join_with ", " (map repr_point l) +:+ "]")%string.

(** The two OpenCV calls of this part. *)
Class Warp `{OpenCV} : Type := {
  (** [cv2.warpPerspective(image, cv2.getPerspectiveTransform(src, dst),
      (width, height))] for four source points, [dst] being the corners of
      the output rectangle. *)
  warp : color_image -> list (Z * Z) -> Z -> Z -> color_image;
  (** [cv2.imwrite]: whether the file has been written. *)
  imwrite : string -> color_image -> bool
}.

Section Rectify.
Context `{cv : OpenCV} `{wp : Warp}.

Definition crop_and_straighten (self : straightener) (corners : list (Z * Z))
           (output_width output_height : Z) : outcome straightener :=
  if (length corners =? 4)%nat then
    Done {| image_path := image_path self;
            image := image self;
            gray := gray self;
            straightened_image :=
              Some (warp (image self) corners output_width output_height) |}
  else Failed OpenCVError.

Definition save_straightened_image (self : straightener) (output_path : string)
  : list event * outcome unit :=
  match straightened_image self with
  | None =>
      ([], Failed (Python (Py.ValueError
         "No straightened image to save. Run crop_and_straighten() first.")))
  | Some img =>
      if imwrite output_path img then
        ([ImWrite output_path img;
          Print ("Straightened image saved to: " +:+ output_path)],
         Done tt)
      else
        ([], Failed (Python (Py.ValueError
           ("Failed to save image to " +:+ output_path))))
  end.

Definition process_image (self : straightener) (output_path : string)
           (output_width output_height : Z)
  : list event * outcome straightener :=
  let out1 := [Print ("Processing image: " +:+ image_path self);
               Print "Detecting corner markers..."] in
  match detect_corner_markers self with
  | Py.Raise e => (out1, Failed (Python e))
  | Py.Ok corners =>
      let out2 := out1 ++ [Print ("Found corners at: " +:+ repr_points corners);
                           Print "Cropping and straightening image..."] in
      match crop_and_straighten self corners output_width output_height with
      | Failed f => (out2, Failed f)
      | Done self =>
          let out3 := out2 ++ [Print "Saving straightened image..."] in
          match save_straightened_image self output_path with
          | (out, Failed f) => (out3 ++ out, Failed f)
          | (out, Done _) =>
              (out3 ++ out ++ [Print "Processing complete!"], Done self)
          end
      end
  end.

End Rectify.

End Rectify.

(** ** A warp for the examples *)
Module RectifyFixtures.
Import Rectify Fixtures.

(** The warp leaves the page as it is and every file can be written. *)
Definition page_warp : Warp (H := page_world) :=
  {| warp img _ _ _ := img; imwrite _ _ := true |}.

End RectifyFixtures.

(** ** File systems for the examples *)
Module CliFixtures.
Import Cli.

(** Every directory can be made and every file opened. *)
Definition writable : FileSystem :=
  {| makedirs _ := None; open_for_writing _ := None |}.

(** [os.makedirs] fails with [FileNotFoundError], as it does for the empty
    path. *)
Definition no_directory : FileSystem :=
  {| makedirs dir :=
       Some (FileNotFoundError
               ("[Errno 2] No such file or directory: '" +:+ dir +:+ "'"));
     open_for_writing _ := None |}.

End CliFixtures.

(** ** The printed sheet: [MCQSheetGenerator] and [MCQAutoFiller]

    [1-sheet_generator/mcq_generator.py] draws the blank sheet and
    [2-filled_generator/mcq_auto_filler.py] marks answers on it. Both draw
    through Pillow; what is kept of a drawing function is the list of the
    ellipses it asks for, in drawing order. The texts, whose position
    depends on the font metrics, and the random noise of the filler are left
    out. *)
Module Sheet.

(** The attributes of a generator object. *)
Record generator : Type := {
  width : Z;
  height : Z;
  margin : Z;
  corner_size : Z;
  circle_radius : Z;
  question_spacing : Z;
  option_spacing : Z
}.

(** [MCQSheetGenerator.__init__]; the defaults are [width=2480] and
    [height=3508]. *)
Definition generator_init (width height : Z) : generator :=
  {| width := width; height := height; margin := 200; corner_size := 80;
     circle_radius := 38; question_spacing := 90; option_spacing := 120 |}.

(** [['A', 'B', 'C', 'D', 'E'][:options_per_question]]. *)
Definition option_letters (options_per_question : Z) : list string :=
  Py.slice ["A"; "B"; "C"; "D"; "E"]%string 0 options_per_question.

(** A bounding box [[x0, y0, x1, y1]] handed to [draw.ellipse]. *)
Abbreviation bounds := (Z * Z * Z * Z)%type.

(** The ellipses of [create_mcq_grid]: one circle per question and option.
    [//] and [%] are taken with the positive divisor 25, where they are
    [Z.div] and [Z.modulo]. *)
Definition create_mcq_grid (self : generator)
           (num_questions options_per_question : Z) : list bounds :=
  let start_y := 450 in
  let questions_per_column := 25 in
  let column_width := (width self - 2 * margin self) / 2 in
  let option_letters := option_letters options_per_question in
  flat_map
    (fun q =>
       let column := q / questions_per_column in
       let row_in_column := q mod questions_per_column in
       let x_base := margin self + column * column_width in
       let y_pos := start_y + row_in_column * question_spacing self in
       map (fun il : Z * string =>
              let i := fst il in
              let option_x := x_base + 60 + i * option_spacing self in
              let circle_center_x := option_x + circle_radius self in
              let circle_center_y := y_pos + circle_radius self in
              (circle_center_x - circle_radius self,
               circle_center_y - circle_radius self,
               circle_center_x + circle_radius self,
               circle_center_y + circle_radius self))
           (Py.enumerate_from 0 option_letters))
    (seqZ 0 num_questions).

(** The attributes of a filler object. *)
Record filler : Type := {
  filler_circle_radius : Z;
  filler_question_spacing : Z;
  filler_option_spacing : Z;
  filler_margin : Z
}.

(** [MCQAutoFiller.__init__]. *)
Definition filler_init : filler :=
  {| filler_circle_radius := 38; filler_question_spacing := 90;
     filler_option_spacing := 120; filler_margin := 200 |}.

(** An entry [{'center': (x, y), 'radius': r}] of the template. *)
Record circle : Type := {
  circle_center : Z * Z;
  radius : Z
}.

(** A dict as the list of its items in insertion order; the keys of the
    dicts built below are pairwise different. *)
Abbreviation dict K V := (list (K * V)).

(** [k in d] and [d[k]]. *)
Fixpoint dict_get {K V} `{EqDecision K} (k : K) (d : dict K V) : option V :=
  match d with
  | [] => None
  | (k', v) :: d' => if decide (k' = k) then Some v else dict_get k d'
  end.

(** [create_answer_template]: question number to letter to circle. The
    sheet width 2480 is written out in the source. *)
Definition create_answer_template (self : filler)
           (num_questions options_per_question : Z)
  : dict Z (dict string circle) :=
  let start_y := 450 in
  let questions_per_column := 25 in
  let column_width := (2480 - 2 * filler_margin self) / 2 in
  let option_letters := option_letters options_per_question in
  map
    (fun q =>
       let column := q / questions_per_column in
       let row_in_column := q mod questions_per_column in
       let x_base := filler_margin self + column * column_width in
       let y_pos := start_y + row_in_column * filler_question_spacing self in
       let question_num := q + 1 in
       (question_num,
        map (fun il : Z * string =>
               let i := fst il in
               let option_x := x_base + 60 + i * filler_option_spacing self in
               let circle_center_x := option_x + filler_circle_radius self in
               let circle_center_y := y_pos + filler_circle_radius self in
               (snd il,
                {| circle_center := (circle_center_x, circle_center_y);
                   radius := filler_circle_radius self |}))
            (Py.enumerate_from 0 option_letters)))
    (seqZ 0 num_questions).

(** [answers], question number to letter or [None], as the list of its
    items. The ellipses that [fill_answers_on_sheet] fills once the blank
    sheet is loaded, one per answer that the template knows; the template
    is always the default one, of 50 questions and 4 options. *)
Definition fill_answers_on_sheet (self : filler)
           (answers : dict Z (option string)) : list bounds :=
  let template := create_answer_template self 50 4 in
  flat_map
    (fun qa : Z * option string =>
       let '(question_num, selected_answer) := qa in
       match selected_answer with
       | None | Some EmptyString => []
       | Some selected_answer =>
           match dict_get question_num template with
           | None => []
           | Some options =>
               match dict_get selected_answer options with
               | None => []
               | Some c =>
                   let '(center_x, center_y) := circle_center c in
                   let radius := radius c in
                   [(center_x - radius + 5, center_y - radius + 5,
                     center_x + radius - 5, center_y + radius - 5)]
               end
           end
       end)
    answers.

(** *** Read-outs used to state the properties *)

(** The bounding box of a circle of the template. *)
Definition circle_bounds (c : circle) : bounds :=
  let '(x, y) := circle_center c in
  (x - radius c, y - radius c, x + radius c, y + radius c).

(** The circles of a template, question by question. *)
Definition template_circles (template : dict Z (dict string circle))
  : list circle :=
  flat_map (fun entry => map snd (snd entry)) template.

(** [template[q][letter]['center']]. *)
Definition template_center (template : dict Z (dict string circle))
           (q : Z) (letter : string) : option (Z * Z) :=
  options ← dict_get q template;
  c ← dict_get letter options;
  Some (circle_center c).

(** Two boxes that share no point. *)
Definition apart (b1 b2 : bounds) : Prop :=
  let '(x0, y0, x1, y1) := b1 in
  let '(x0', y0', x1', y1') := b2 in
  x1 < x0' \/ x1' < x0 \/ y1 < y0' \/ y1' < y0.

(** The box [b] shrunk by [d] pixels on every side. *)
Definition inset (d : Z) (b : bounds) : bounds :=
  let '(x0, y0, x1, y1) := b in (x0 + d, y0 + d, x1 - d, y1 - d).

(** The circle printed for option number [i] (from 0) of question [q]
    (from 1) on the default sheet. *)
Definition printed_circle (q i : Z) : bounds :=
  let x0 := 260 + (q - 1) / 25 * 1040 + i * 120 in
  let y0 := 450 + (q - 1) mod 25 * 90 in
  (x0, y0, x0 + 76, y0 + 76).

End Sheet.

(** ** A marked sheet for the examples *)
Module SheetFixtures.
Import Scanner Fixtures.

(** The candidate for option [i] of question [q] on a sheet marked
    A, B, C, D, A, ... from question 1 on. *)
Definition pencilled (q i : Z) : bubble :=
  mk (298 + (q - 1) / 25 * 1040 + i * 120) (488 + (q - 1) mod 25 * 90)
     (if i =? (q - 1) mod 4 then 1 else 0).

(** The 200 candidates of that sheet, found from the last to the first. *)
Definition detected : list bubble :=
  rev (flat_map (fun q => map (pencilled q) (seqZ 0 4)) (seqZ 1 50)).

End SheetFixtures.

(** ** The exporter: [export_answers_to_csv]

    [5-jsontocsv/json_to_csv_exporter.py] reads the answers that a scan
    saved as JSON and appends them, as one row, to a CSV file. *)
Module Exporter.

(** A value of the loaded object. The exporter compares it with the string
    ['NA'] and hands it to [csv.writer]; [null] is loaded as [None], and any
    other value that is not a string is kept by its text. *)
Inductive value : Type :=
| Str (s : string)
| Null
| Other (text : string).

(** What [open(json_file, 'r')] and [json.load] give: the two exceptions
    that are handled, a document that is not an object, or the object. *)
Inductive loaded : Type :=
| NotFound
| Invalid
| NotObject
| Object (answers_dict : gmap string value).

(** A row of a CSV file. *)
Abbreviation row := (list value).

(** The files the exporter touches: what loading a JSON path gives, the
    rows of the CSV files that exist (a file without rows has size 0), and
    the message of the exception that [open(csv_file, 'a')] raises, if it
    raises one. Writing to an opened file is taken to succeed. *)
Record disk : Type := {
  json_files : string -> loaded;
  csv_files : gmap string (list row);
  open_error : string -> option string
}.

(** How a call ends: it returns [None], or [answers_dict.get] raises
    [AttributeError] because the document is not an object. *)
Inductive outcome : Type :=
| Returned
| AttributeError.

(** [str(i)]. *)
Definition str (i : Z) : string := pretty i.

(** [headers = [f'Q{i}' for i in range(1, 51)]]. *)
Definition headers : row :=
  map (fun i => Str ("Q" +:+ str i)) (seqZ 1 50).

(** [[answers_dict.get(str(i), 'NA') for i in range(1, 51)]]. *)
Definition ordered_answers (answers_dict : gmap string value) : row :=
  map (fun i => default (Str "NA") (answers_dict !! str i)) (seqZ 1 50).

(** [a != 'NA']. *)
Definition is_not_NA (a : value) : bool :=
  match a with
  | Str s => negb (String.eqb s "NA")
  | _ => true
  end.

(** [[i for i in range(1, 51) if str(i) not in answers_dict]]. *)
Definition missing_questions (answers_dict : gmap string value) : list Z :=
  List.filter (fun i => bool_decide (answers_dict !! str i = None))
              (seqZ 1 50).

(** [repr] of a list of ints, as an f-string shows it. *)
Definition repr_ints (l : list Z) : string :=
  ("[" +:+ Rectify.join_with ", " (map pretty l) +:+ "]")%string.

(** The lines of the summary. *)
Definition summary (answers_dict : gmap string value) : list string :=
  let ordered_answers := ordered_answers answers_dict in
  [(Cli.newline +:+ "Summary:")%string;
   "- Total questions processed: 50"%string;
   ("- Questions with answers: "
    +:+ pretty (Py.len (List.filter is_not_NA ordered_answers)))%string;
   ("- Questions without answers: "
    +:+ pretty (Py.len (List.filter (fun a => negb (is_not_NA a))
                                    ordered_answers)))%string]
  ++ match missing_questions answers_dict with
     | [] => []
     | missing =>
         [("- Missing question numbers: " +:+ repr_ints missing)%string]
     end.

(** [export_answers_to_csv]: the disk afterwards, the lines printed, and
    how the call ends. *)
Definition export_answers_to_csv (d : disk) (json_file csv_file : string)
  : disk * list string * outcome :=
  match json_files d json_file with
  | NotFound =>
      (d, [("Error: " +:+ json_file +:+ " not found!")%string], Returned)
  | Invalid =>
      (d, [("Error: Invalid JSON format in " +:+ json_file)%string], Returned)
  | NotObject => (d, [], AttributeError)
  | Object answers_dict =>
      let ordered_answers := ordered_answers answers_dict in
      let file_exists := bool_decide (is_Some (csv_files d !! csv_file)) in
      match open_error d csv_file with
      | Some e => (d, [("Error writing to CSV: " +:+ e)%string], Returned)
      | None =>
          let old := default [] (csv_files d !! csv_file) in
          let fresh := negb file_exists || bool_decide (old = []) in
          let written :=
            if fresh then [headers; ordered_answers] else [ordered_answers] in
          let line :=
            if fresh then ("Created new CSV file: " +:+ csv_file)%string
            else ("Adding new row to existing CSV: " +:+ csv_file)%string in
          ({| json_files := json_files d;
              csv_files := <[csv_file := old ++ written]> (csv_files d);
              open_error := open_error d |},
           [line; "Answers exported successfully!"%string]
           ++ summary answers_dict,
           Returned)
      end
  end.

(** *** Read-outs used to state the properties *)

(** The exporter run once per JSON file, in this order, on the same CSV
    file. *)
Fixpoint export_each (d : disk) (json_files : list string) (csv_file : string)
  : disk :=
  match json_files with
  | [] => d
  | json_file :: rest =>
      export_each (fst (fst (export_answers_to_csv d json_file csv_file)))
                  rest csv_file
  end.

(** The object that [json.load] gives back for a mapping from question
    numbers to letters that [json.dump] wrote: the keys have become their
    decimal strings. *)
Definition holds (answers_dict : gmap string value)
           (answers : gmap Z string) : Prop :=
  forall q, answers_dict !! str q = Str <$> answers !! q.

End Exporter.

(** ** Files for the examples of the exporter *)
Module ExporterFixtures.
Import Exporter.

(** Question 1 answered B, question 2 left as [null], question 3 holding
    the string NA. *)
Definition three_answers : gmap string value :=
  {[ "1"%string := Str "B"; "2"%string := Null; "3"%string := Str "NA" ]}.

(** What a scan that answered questions 1 and 27 saved. *)
Definition two_answers : gmap string value :=
  {[ "1"%string := Str "A"; "27"%string := Str "C" ]}.

(** Two JSON files and no CSV file yet. *)
Definition two_scans : disk :=
  {| json_files path :=
       if String.eqb path "first.json" then Object three_answers
       else if String.eqb path "second.json" then Object two_answers
       else NotFound;
     csv_files := ∅;
     open_error _ := None |}.

End ExporterFixtures.

(** ** Sheets laid out in rows

    Read-outs for the properties of the clustering on candidates that lie
    in horizontal bands, as the circles of a printed sheet do. They are not
    in the source. *)
Module Layout.
Import Scanner.

(** The rows of a sheet from top to bottom: each row has a topmost
    candidate, no candidate of the row is farther than the tolerance below
    it, and all candidates of the later rows are. *)
Fixpoint banded (grid : list (list bubble)) : Prop :=
  match grid with
  | [] => True
  | row :: rest =>
      (exists top,
          In top row
          /\ Forall (fun b => center_y top <= center_y b
                              <= center_y top + tolerance) row
          /\ Forall (Forall (fun b => center_y top + tolerance < center_y b))
                    rest)
      /\ banded rest
  end.

(** No two candidates of the row have the same x. *)
Definition distinct_x (row : list bubble) : Prop :=
  NoDup (map center_x row).

End Layout.

(** ** A sheet of two rows for the examples *)
Module LayoutFixtures.
Import Scanner Fixtures.

(** A second row, fifty pixels below [double_marked_row]: option C of the
    left question and option B of the right question are filled. *)
Definition second_row : list bubble :=
  [mk 10 50 0; mk 20 50 0; mk 30 50 (9 # 10); mk 40 50 0;
   mk 110 50 0; mk 120 50 (7 # 10); mk 130 50 0; mk 140 50 0].

(** The sixteen candidates of the two rows, found from the bottom right to
    the top left. *)
Definition found_backwards : list bubble :=
  rev (double_marked_row ++ second_row).

End LayoutFixtures.

(** * Properties *)

(** ** The Python helpers *)
Module PyFacts.
Import Py.

Section Sorting.
Context {A K : Type} (leb : K -> K -> bool) (key : A -> K).

Lemma insert_by_perm (x : A) (l : list A) :
  Permutation (insert_by leb key x l) (x :: l).
Proof.
  induction l as [|y l IH]; simpl; [reflexivity|].
  destruct (leb (key x) (key y)); [reflexivity|].
  rewrite IH. apply perm_swap.
Qed.

Lemma sorted_by_perm (l : list A) : Permutation (sorted_by leb key l) l.
Proof.
  induction l as [|x l IH]; simpl; [reflexivity|].
  rewrite insert_by_perm. now constructor.
Qed.

Lemma In_sorted_by (x : A) (l : list A) :
  In x (sorted_by leb key l) <-> In x l.
Proof.
  split; apply Permutation_in;
    [apply sorted_by_perm | symmetry; apply sorted_by_perm].
Qed.

Lemma len_sorted_by (l : list A) : len (sorted_by leb key l) = len l.
Proof.
  unfold len. f_equal. apply Permutation_length, sorted_by_perm.
Qed.

(** With a total and transitive comparison the result is in order. *)
Lemma sorted_by_sorted (l : list A) :
  (forall a b, leb a b = false -> leb b a = true) ->
  (forall a b c, leb a b = true -> leb b c = true -> leb a c = true) ->
  StronglySorted (fun x y => leb (key x) (key y) = true) (sorted_by leb key l).
Proof.
  intros Htotal Htrans.
  induction l as [|x l IH]; simpl; [constructor|].
  revert IH. generalize (sorted_by leb key l). clear l.
  induction l as [|y l IHl]; intros Hs; simpl.
  - repeat constructor.
  - inversion Hs as [|? ? Hs' Hy]; subst.
    destruct (leb (key x) (key y)) eqn:E.
    + constructor; [exact Hs|]. constructor; [exact E|].
      eapply Forall_impl; [exact Hy|]. simpl. intros z Hz.
      eapply Htrans; eauto.
    + constructor; [now apply IHl|].
      eapply Permutation_Forall; [symmetry; apply insert_by_perm|].
      constructor; [now apply Htotal|exact Hy].
Qed.

End Sorting.

Lemma StronglySorted_weaken {A} (R S : A -> A -> Prop) (l : list A) :
  (forall a b, R a b -> S a b) -> StronglySorted R l -> StronglySorted S l.
Proof.
  intros HRS. induction 1 as [|x l Hs IH Hx]; constructor; [exact IH|].
  eapply Forall_impl; [exact Hx|]. auto.
Qed.

Lemma getitem_first {A} (x : A) (l : list A) : getitem (x :: l) 0 = Ok x.
Proof. reflexivity. Qed.

Lemma getitem_last {A} (l : list A) (x : A) : getitem (l ++ [x]) (-1) = Ok x.
Proof.
  unfold getitem, len. change (-1 <? 0) with true. cbv iota.
  rewrite length_app. simpl length.
  destruct (Z.ltb_spec (-1 + Z.of_nat (length l + 1)) 0); [lia|].
  replace (Z.to_nat (-1 + Z.of_nat (length l + 1))) with (length l) by lia.
  rewrite nth_error_app2 by lia. now rewrite Nat.sub_diag.
Qed.

(** A list that is already in key order is left as it is. *)
Lemma sorted_by_Z_sorted {A} (key : A -> Z) (l : list A) :
  Sorted (fun a b => key a <= key b) l -> sorted_by Z.leb key l = l.
Proof.
  induction 1 as [|x l Hs IH Hhd]; simpl; [reflexivity|].
  rewrite IH. destruct Hhd as [|y l' Hxy]; simpl; [reflexivity|].
  apply Z.leb_le in Hxy. now rewrite Hxy.
Qed.

Lemma slice_bound_range (n i : Z) : 0 <= n -> 0 <= slice_bound n i <= n.
Proof. unfold slice_bound. destruct (Z.ltb_spec i 0); lia. Qed.

(** A slice [l[a:b]] with [a <= b] has at most [b - a] elements. (With
    [b < 0 <= a] it can have more: [l[0:-1]] drops one element only.) *)
Lemma slice_bound_diff (n a b : Z) :
  0 <= n -> a <= b -> slice_bound n b - slice_bound n a <= b - a.
Proof.
  unfold slice_bound. intros Hn Hab.
  destruct (Z.ltb_spec a 0), (Z.ltb_spec b 0); lia.
Qed.

Lemma len_slice {A} (l : list A) (a b : Z) :
  a <= b -> len (slice l a b) <= b - a.
Proof.
  intros Hab. unfold slice, len at 1. rewrite length_firstn.
  pose proof (slice_bound_diff (len l) a b ltac:(unfold len; lia) Hab). lia.
Qed.

Lemma In_slice {A} (x : A) (l : list A) (a b : Z) :
  In x (slice l a b) -> In x l.
Proof.
  unfold slice. rewrite <- !list_elem_of_In. intros H.
  eapply subseteq_drop, subseteq_take, H.
Qed.

(** [l[:n]] of a list with at least [n] elements is its first [n]. *)
Lemma slice_prefix {A} (l : list A) (n : Z) :
  0 <= n -> slice l 0 n = firstn (Z.to_nat n) l.
Proof.
  intros Hn. unfold slice, slice_bound, len.
  change (0 <? 0) with false. cbv iota.
  destruct (Z.ltb_spec n 0); [lia|].
  rewrite (Z.min_l 0) by lia. rewrite skipn_O.
  destruct (Z.le_ge_cases n (Z.of_nat (length l))).
  - now rewrite (Z.min_l n), Z.sub_0_r by lia.
  - rewrite (Z.min_r n), Z.sub_0_r, Nat2Z.id by lia.
    rewrite !firstn_all2; auto; lia.
Qed.

Lemma enumerate_from_lookup {A} (l : list A) (i0 : Z) (n : nat) :
  enumerate_from i0 l !! n = (fun x => (i0 + Z.of_nat n, x)) <$> l !! n.
Proof.
  revert i0 n. induction l as [|x l IH]; intros i0 n; [now destruct n|].
  destruct n as [|n]; simpl.
  - now rewrite Z.add_0_r.
  - rewrite IH. destruct (l !! n); simpl; [|reflexivity].
    do 2 f_equal. lia.
Qed.

Lemma sum_Z_bounds (l : list Z) (c : Z) :
  Forall (fun p => 0 <= p <= c) l ->
  0 <= sum_Z l <= c * len l.
Proof.
  unfold len. induction 1 as [|p l Hp Hl IH]; simpl; [lia|].
  rewrite Nat2Z.inj_succ. lia.
Qed.

End PyFacts.

(** ** The question mapping *)
Module MappingFacts.
Import Py Scanner PyFacts.

Lemma first_filled_letter th q side (answers : gmap Z string) :
  first_filled th q side answers =
  match first_letter th side with
  | Some c => <[q := c]> answers
  | None => answers
  end.
Proof.
  induction side as [|[i b] side IH]; simpl; [reflexivity|].
  now destruct (is_filled th b).
Qed.

Lemma process_side_other th idx fc last side (answers : gmap Z string) q :
  q <> idx + fc ->
  process_side th idx fc last side answers !! q = answers !! q.
Proof.
  intros Hq. unfold process_side.
  destruct (4 <=? len side); [|reflexivity].
  destruct (idx + fc <=? last); [|reflexivity].
  rewrite first_filled_letter.
  destruct (first_letter _ _); [|reflexivity].
  now rewrite lookup_insert_ne.
Qed.

Lemma process_side_beyond th idx fc last side (answers : gmap Z string) :
  last < idx + fc -> process_side th idx fc last side answers = answers.
Proof.
  intros Hq. unfold process_side.
  destruct (4 <=? len side); [|reflexivity].
  destruct (Z.leb_spec (idx + fc) last); [lia|reflexivity].
Qed.

Lemma process_side_slot th idx fc last side (answers : gmap Z string) :
  idx + fc <= last ->
  process_side th idx fc last side answers !! (idx + fc) =
  match side_letter th side with
  | Some c => Some c
  | None => answers !! (idx + fc)
  end.
Proof.
  intros Hq. unfold process_side, side_letter.
  destruct (4 <=? len side); [|reflexivity].
  destruct (Z.leb_spec (idx + fc) last); [|lia].
  rewrite first_filled_letter.
  destruct (first_letter _ _); [|reflexivity].
  now rewrite lookup_insert_eq.
Qed.

(** What the body of the row loop does to the entry of question [q], for
    the row with index [idx]. *)
Lemma process_row_lookup th idx k row (answers : gmap Z string) q :
  0 <= idx ->
  process_row th idx row answers !! q =
  if decide (q = idx + 1 /\ q <= 25) then
    match row_letter th left_of (k, row) with
    | Some c => Some c | None => answers !! q end
  else if decide (q = idx + 26 /\ q <= 50) then
    match row_letter th right_of (k, row) with
    | Some c => Some c | None => answers !! q end
  else answers !! q.
Proof.
  intros Hidx. unfold process_row, row_letter. simpl.
  destruct (len row <? 4).
  { repeat case_decide; reflexivity. }
  destruct (decide (q = idx + 1 /\ q <= 25)) as [[-> Hle]|Hl].
  { rewrite process_side_other by lia. now apply process_side_slot. }
  destruct (decide (q = idx + 26 /\ q <= 50)) as [[-> Hle]|Hr].
  { rewrite process_side_slot by lia.
    destruct (side_letter th (right_of row)); [reflexivity|].
    apply process_side_other. lia. }
  destruct (Z.le_gt_cases (idx + 26) 50).
  - rewrite process_side_other by lia.
    destruct (Z.le_gt_cases (idx + 1) 25).
    + apply process_side_other. lia.
    + now rewrite process_side_beyond by lia.
  - rewrite process_side_beyond by lia.
    destruct (Z.le_gt_cases (idx + 1) 25).
    + apply process_side_other. lia.
    + now rewrite process_side_beyond by lia.
Qed.

Lemma slot_answer_snoc th (pre : rows_dict) (row : Z * list bubble) q :
  slot_answer th (pre ++ [row]) q =
  if decide (q = len pre + 1 /\ q <= 25) then row_letter th left_of row
  else if decide (q = len pre + 26 /\ q <= 50) then row_letter th right_of row
  else slot_answer th pre q.
Proof.
  unfold slot_answer, len.
  destruct (decide (q = Z.of_nat (length pre) + 1 /\ q <= 25)) as [[-> Hle]|Hl].
  { destruct (Z.leb_spec 1 (Z.of_nat (length pre) + 1)); [|lia].
    destruct (Z.leb_spec (Z.of_nat (length pre) + 1) 25); [|lia]. simpl.
    replace (Z.to_nat (Z.of_nat (length pre) + 1 - 1)) with (length pre) by lia.
    now rewrite list_lookup_middle. }
  destruct (decide (q = Z.of_nat (length pre) + 26 /\ q <= 50)) as [[-> Hle]|Hr].
  { destruct (Z.leb_spec 1 (Z.of_nat (length pre) + 26)); [|lia].
    destruct (Z.leb_spec (Z.of_nat (length pre) + 26) 25); [lia|].
    destruct (Z.leb_spec 26 (Z.of_nat (length pre) + 26)); [|lia].
    destruct (Z.leb_spec (Z.of_nat (length pre) + 26) 50); [|lia]. simpl.
    replace (Z.to_nat (Z.of_nat (length pre) + 26 - 26)) with (length pre) by lia.
    now rewrite list_lookup_middle. }
  destruct (Z.leb_spec 1 q), (Z.leb_spec q 25); simpl.
  - destruct (decide (Z.to_nat (q - 1) < length pre)%nat).
    + now rewrite lookup_app_l.
    + rewrite !lookup_ge_None_2; [reflexivity|lia|].
      rewrite length_app. simpl. lia.
  - destruct (Z.leb_spec 26 q), (Z.leb_spec q 50); simpl; try reflexivity.
    destruct (decide (Z.to_nat (q - 26) < length pre)%nat).
    + now rewrite lookup_app_l.
    + rewrite !lookup_ge_None_2; [reflexivity|lia|].
      rewrite length_app. simpl. lia.
  - destruct (Z.leb_spec 26 q), (Z.leb_spec q 50); simpl; try reflexivity; lia.
  - destruct (Z.leb_spec 26 q), (Z.leb_spec q 50); simpl; try reflexivity; lia.
Qed.

Lemma slot_answer_fresh th (pre : rows_dict) q :
  (q = len pre + 1 /\ q <= 25) \/ q = len pre + 26 ->
  slot_answer th pre q = None.
Proof.
  unfold slot_answer, len. intros Hq.
  destruct (Z.leb_spec 1 q), (Z.leb_spec q 25); simpl.
  - rewrite lookup_ge_None_2; [reflexivity|lia].
  - destruct (Z.leb_spec 26 q), (Z.leb_spec q 50); simpl; try reflexivity.
    rewrite lookup_ge_None_2; [reflexivity|lia].
  - destruct (Z.leb_spec 26 q), (Z.leb_spec q 50); simpl; try reflexivity; lia.
  - destruct (Z.leb_spec 26 q), (Z.leb_spec q 50); simpl; try reflexivity; lia.
Qed.

(** The row loop, started after the rows [pre] have been processed. *)
Lemma process_rows_lookup th (rows pre : rows_dict) (answers : gmap Z string) :
  (forall q, answers !! q = slot_answer th pre q) ->
  forall q,
    process_rows th (enumerate_from (len pre) rows) answers !! q =
    slot_answer th (pre ++ rows) q.
Proof.
  revert pre answers.
  induction rows as [|[k row] rows IH]; intros pre answers Hpre q; simpl.
  - now rewrite app_nil_r.
  - replace (len pre + 1) with (len (pre ++ [(k, row)]))
      by (unfold len; rewrite length_app; simpl; lia).
    rewrite IH; [now rewrite <- app_assoc|].
    clear q. intros q.
    rewrite (process_row_lookup th (len pre) k) by (unfold len; lia).
    rewrite slot_answer_snoc.
    repeat case_decide.
    + destruct (row_letter th left_of (k, row)); [reflexivity|].
      rewrite Hpre. apply slot_answer_fresh. lia.
    + destruct (row_letter th right_of (k, row)); [reflexivity|].
      rewrite Hpre. apply slot_answer_fresh. lia.
    + apply Hpre.
Qed.

(** The mapping is the read-out [slot_answer] of the rows in top-to-bottom
    order. *)
Lemma map_bubbles_to_questions_lookup th (organized_bubbles : rows_dict) q :
  map_bubbles_to_questions th organized_bubbles !! q =
  slot_answer th (sorted_rows organized_bubbles) q.
Proof.
  unfold map_bubbles_to_questions.
  apply (process_rows_lookup th (sorted_rows organized_bubbles) []).
  intros q'. rewrite lookup_empty. unfold slot_answer.
  destruct ((1 <=? q') && (q' <=? 25)); [reflexivity|].
  now destruct ((26 <=? q') && (q' <=? 50)).
Qed.

(** The entry of the question that row number [i] (from the top) owns in
    the block [col]. *)
Lemma answer_of_row th (organized_bubbles : rows_dict) (i : nat) row col :
  sorted_rows organized_bubbles !! i = Some row ->
  Z.of_nat i + first_question col <= last_question col ->
  map_bubbles_to_questions th organized_bubbles
    !! (Z.of_nat i + first_question col) =
  row_letter th (side_of col) row.
Proof.
  intros Hrow Hq. rewrite map_bubbles_to_questions_lookup.
  unfold slot_answer. destruct col; simpl in *.
  - destruct (Z.leb_spec 1 (Z.of_nat i + 1)); [|lia].
    destruct (Z.leb_spec (Z.of_nat i + 1) 25); [|lia]. simpl.
    replace (Z.to_nat (Z.of_nat i + 1 - 1)) with i by lia.
    now rewrite Hrow.
  - destruct (Z.leb_spec (Z.of_nat i + 26) 25); [lia|].
    rewrite andb_false_r.
    destruct (Z.leb_spec 26 (Z.of_nat i + 26)); [|lia].
    destruct (Z.leb_spec (Z.of_nat i + 26) 50); [|lia]. simpl.
    replace (Z.to_nat (Z.of_nat i + 26 - 26)) with i by lia.
    now rewrite Hrow.
Qed.

Lemma slot_answer_range th (rows : rows_dict) q c :
  slot_answer th rows q = Some c -> 1 <= q <= 50.
Proof.
  unfold slot_answer.
  destruct (Z.leb_spec 1 q), (Z.leb_spec q 25); simpl; try lia;
    destruct (Z.leb_spec 26 q), (Z.leb_spec q 50); simpl; try lia;
    discriminate.
Qed.

Lemma slot_answer_letter th (rows : rows_dict) q c :
  slot_answer th rows q = Some c ->
  exists col row, In row rows /\ row_letter th (side_of col) row = Some c.
Proof.
  unfold slot_answer. intros H.
  destruct ((1 <=? q) && (q <=? 25)).
  - destruct (rows !! Z.to_nat (q - 1)) as [row|] eqn:E; [|discriminate].
    exists LeftColumn, row. split; [|exact H].
    apply list_elem_of_In. eapply list_elem_of_lookup_2, E.
  - destruct ((26 <=? q) && (q <=? 50)); [|discriminate].
    destruct (rows !! Z.to_nat (q - 26)) as [row|] eqn:E; [|discriminate].
    exists RightColumn, row. split; [|exact H].
    apply list_elem_of_In. eapply list_elem_of_lookup_2, E.
Qed.

(** The inner loop stops at the first filled bubble. *)
Lemma first_letter_first th (l : list bubble) (i0 : Z) (n : nat) b :
  l !! n = Some b ->
  is_filled th b = true ->
  (forall m b', (m < n)%nat -> l !! m = Some b' -> is_filled th b' = false) ->
  first_letter th (enumerate_from i0 l) = Some (choice_at (i0 + Z.of_nat n)).
Proof.
  revert i0 n. induction l as [|x l IH]; intros i0 n Hn Hb Hlt; [easy|].
  destruct n as [|n]; simpl in *.
  - injection Hn as ->. rewrite Hb. now rewrite Z.add_0_r.
  - rewrite (Hlt 0%nat x) by (simpl; auto; lia).
    rewrite (IH (i0 + 1) n Hn Hb).
    + do 2 f_equal. lia.
    + intros m b' Hm Hb'. apply (Hlt (S m)); [lia|exact Hb'].
Qed.

Lemma first_letter_inv th (l : list bubble) (i0 : Z) c :
  first_letter th (enumerate_from i0 l) = Some c ->
  exists (n : nat) b,
    l !! n = Some b /\ is_filled th b = true /\ c = choice_at (i0 + Z.of_nat n).
Proof.
  revert i0. induction l as [|x l IH]; intros i0 H; [discriminate|].
  simpl in H. destruct (is_filled th x) eqn:E.
  - injection H as <-. exists 0%nat, x. now rewrite Z.add_0_r.
  - destruct (IH _ H) as (n & b & Hn & Hb & ->).
    exists (S n), b. repeat split; auto. f_equal. lia.
Qed.

Lemma first_letter_none th (l : list bubble) (i0 : Z) :
  (forall b, In b l -> is_filled th b = false) ->
  first_letter th (enumerate_from i0 l) = None.
Proof.
  revert i0. induction l as [|x l IH]; intros i0 H; [reflexivity|].
  simpl. rewrite (H x) by now left.
  apply IH. intros b Hb. apply H. now right.
Qed.

Lemma choice_at_choices (n : nat) :
  (n < 4)%nat -> In (choice_at (Z.of_nat n)) choices.
Proof.
  intros Hn. unfold choice_at. rewrite Nat2Z.id.
  do 4 (destruct n as [|n]; [simpl; auto|]). lia.
Qed.

Lemma len_options_of col (row : list bubble) : len (options_of col row) <= 4.
Proof. unfold options_of. pose proof (len_slice (sort_by_x (side_of col row)) 0 4). lia. Qed.

Lemma In_options_of col (row : list bubble) b :
  In b (options_of col row) -> In b row.
Proof.
  unfold options_of. intros H. apply In_slice in H.
  apply In_sorted_by in H.
  destruct col; simpl in H; unfold left_of, right_of in H;
    apply filter_In in H; tauto.
Qed.

Lemma row_letter_choices th col row c :
  row_letter th (side_of col) row = Some c -> In c choices.
Proof.
  unfold row_letter, side_letter.
  destruct (len (snd row) <? 4); [discriminate|].
  destruct (4 <=? len (side_of col (snd row))); [|discriminate].
  intros H. apply first_letter_inv in H as (n & b & Hn & _ & ->).
  apply choice_at_choices.
  apply lookup_lt_Some in Hn.
  pose proof (len_options_of col (snd row)) as Hlen.
  unfold options_of, len in Hlen. lia.
Qed.

Lemma is_filled_lt th b : is_filled th b = true <-> (th < fill_ratio b)%Q.
Proof.
  unfold is_filled, Qltb. rewrite negb_true_iff.
  rewrite <- not_true_iff_false, Qle_bool_iff.
  split; [apply Qnot_le_lt | apply Qlt_not_le].
Qed.

End MappingFacts.

(** ** The claims about the question mapping *)
Module MappingClaims.
Import Py Scanner PyFacts MappingFacts Fixtures.

(** C10. For every set of organized rows, every key of the mapping returned
    by [map_bubbles_to_questions] is an integer in 1..50, every value is
    one of A, B, C, D (never E), and a question has at most one letter. *)
Theorem mapping_keys_and_letters th (organized_bubbles : rows_dict) q v :
  map_bubbles_to_questions th organized_bubbles !! q = Some v ->
  1 <= q <= 50
  /\ In v ["A"; "B"; "C"; "D"]%string
  /\ v <> "E"%string
  /\ (forall v', map_bubbles_to_questions th organized_bubbles !! q = Some v' ->
                 v' = v).
Proof.
  intros H. pose proof H as H'.
  rewrite map_bubbles_to_questions_lookup in H'.
  split; [eapply slot_answer_range, H'|].
  apply slot_answer_letter in H' as (col & row & _ & Hc).
  apply row_letter_choices in Hc.
  split; [exact Hc|]. split.
  - intros ->. simpl in Hc. intuition discriminate.
  - intros v' Hv'. congruence.
Qed.

Lemma mapping_keys_and_letters_witness :
  1 <= 26 <= 50 /\ In "A"%string ["A"; "B"; "C"; "D"]%string.
Proof.
  pose proof (mapping_keys_and_letters (6 # 10) [(0, lopsided_row)] 26 "A"%string)
    as H.
  destruct H as (H1 & H2 & _); [vm_compute; reflexivity|].
  split; [exact H1|exact H2].
Defined.

(** C4. In a question block with several bubbles above the threshold, the
    options are gone through in the order A, B, C, D and the first bubble
    above the threshold gives the answer; what comes after it in the block
    has no influence on the result. *)
Theorem first_match_wins th (organized_bubbles : rows_dict)
        (i : nat) row col (n : nat) b :
  sorted_rows organized_bubbles !! i = Some row ->
  4 <= len (snd row) ->
  4 <= len (side_of col (snd row)) ->
  Z.of_nat i + first_question col <= last_question col ->
  options_of col (snd row) !! n = Some b ->
  is_filled th b = true ->
  (forall m b', (m < n)%nat -> options_of col (snd row) !! m = Some b' ->
                is_filled th b' = false) ->
  exists c,
    choices !! n = Some c
    /\ map_bubbles_to_questions th organized_bubbles
         !! (Z.of_nat i + first_question col) = Some c
    /\ forall rest q (answers : gmap Z string),
        first_filled th q
          (enumerate_from 0 (firstn (S n) (options_of col (snd row)) ++ rest))
          answers
        = <[q := c]> answers.
Proof.
  intros Hrow Hlen Hside Hq Hn Hb Hlt.
  assert (Hn4 : (n < 4)%nat).
  { apply lookup_lt_Some in Hn.
    pose proof (len_options_of col (snd row)). unfold len in *. lia. }
  exists (choice_at (Z.of_nat n)). split; [|split].
  - unfold choice_at. rewrite Nat2Z.id.
    do 4 (destruct n as [|n]; [reflexivity|]). lia.
  - rewrite (answer_of_row th organized_bubbles i row col Hrow Hq).
    unfold row_letter, side_letter.
    destruct (Z.ltb_spec (len (snd row)) 4); [lia|].
    destruct (Z.leb_spec 4 (len (side_of col (snd row)))); [|lia].
    apply (first_letter_first th _ 0 n b Hn Hb Hlt).
  - intros rest q answers. rewrite first_filled_letter.
    rewrite (first_letter_first th _ 0 n b); [reflexivity| |exact Hb|].
    + rewrite lookup_app_l by (rewrite length_firstn; apply lookup_lt_Some in Hn; lia).
      rewrite lookup_take_lt by lia. exact Hn.
    + intros m b' Hm Hb'. apply (Hlt m b' Hm).
      rewrite lookup_app_l in Hb'
        by (rewrite length_firstn; apply lookup_lt_Some in Hn; lia).
      rewrite lookup_take_lt in Hb' by lia. exact Hb'.
Qed.

Lemma first_match_wins_witness :
  map_bubbles_to_questions (6 # 10) [(0, double_marked_row)] !! 1
  = Some "A"%string.
Proof.
  destruct (first_match_wins (6 # 10) [(0, double_marked_row)] 0
              (0, double_marked_row) LeftColumn 0 (mk 10 0 (8 # 10)))
    as (c & Hc & Hmap & _).
  - reflexivity.
  - vm_compute. discriminate.
  - vm_compute. discriminate.
  - vm_compute. discriminate.
  - reflexivity.
  - reflexivity.
  - intros m b' Hm. lia.
  - simpl in Hc. injection Hc as <-. exact Hmap.
Defined.

(** C6. The comparison with the threshold is strict: a bubble whose fill
    ratio equals the threshold is not filled, only a ratio strictly above
    it counts, and rows whose bubbles all sit exactly at the threshold
    yield no answer at all. *)
Theorem threshold_is_strict th :
  (forall b, (fill_ratio b == th)%Q -> is_filled th b = false)
  /\ (forall b, is_filled th b = true <-> (th < fill_ratio b)%Q)
  /\ (forall organized_bubbles : rows_dict,
        (forall row b, In row organized_bubbles -> In b (snd row) ->
                       (fill_ratio b == th)%Q) ->
        map_bubbles_to_questions th organized_bubbles = ∅).
Proof.
  assert (Heq : forall b, (fill_ratio b == th)%Q -> is_filled th b = false).
  { intros b Hb. apply not_true_iff_false. rewrite is_filled_lt, Hb.
    apply Qlt_irrefl. }
  split; [exact Heq|]. split; [apply is_filled_lt|].
  intros organized_bubbles Hall. apply map_eq. intros q.
  rewrite lookup_empty, map_bubbles_to_questions_lookup.
  destruct (slot_answer th (sorted_rows organized_bubbles) q) as [c|] eqn:E;
    [|reflexivity].
  apply slot_answer_letter in E as (col & row & Hrow & Hc).
  apply In_sorted_by in Hrow.
  unfold row_letter, side_letter in Hc.
  destruct (len (snd row) <? 4); [discriminate|].
  destruct (4 <=? len (side_of col (snd row))); [|discriminate].
  rewrite first_letter_none in Hc; [discriminate|].
  intros b Hb. apply Heq, (Hall row); [exact Hrow|].
  eapply In_options_of, Hb.
Qed.

Lemma threshold_is_strict_witness :
  map_bubbles_to_questions (6 # 10) [(0, boundary_row)] = ∅.
Proof.
  apply (threshold_is_strict (6 # 10)).
  intros row b [<-|[]] Hb. simpl in Hb.
  repeat (destruct Hb as [<-|Hb]; [reflexivity|]). destruct Hb.
Defined.

(** A block with a filled bubble among the bubbles that are read gives a
    letter. *)
Lemma first_letter_filled th (l : list bubble) (i0 : Z) b :
  In b l -> is_filled th b = true ->
  is_Some (first_letter th (enumerate_from i0 l)).
Proof.
  revert i0. induction l as [|a l IH]; intros i0 Hin Hb; [destruct Hin|].
  simpl. destruct (is_filled th a) eqn:Ea; [eauto|].
  destruct Hin as [->|Hin]; [congruence|]. now apply IH.
Qed.

(** C7, as the code has it. A row with fewer than four bubbles gives no
    entry at all, and a block (left or right of the mean x) with fewer than
    four bubbles gives no entry for its own question: the question is
    absent from the mapping, which [print_results] shows as "No answer
    detected". The skip stops there: in a row of at least four bubbles, a
    block with at least four bubbles is read whatever the size of the other
    block, and its question is answered exactly when one of its first four
    bubbles, from left to right, is filled, with the letter of the first
    such bubble. [map_bubbles_to_questions] has no statement that raises,
    so a malformed row cannot make it abort. *)
Theorem short_block_gives_no_entry th (organized_bubbles : rows_dict)
        (i : nat) row col :
  sorted_rows organized_bubbles !! i = Some row ->
  Z.of_nat i + first_question col <= last_question col ->
  let answers := map_bubbles_to_questions th organized_bubbles in
  let q := Z.of_nat i + first_question col in
  (len (snd row) < 4 \/ len (side_of col (snd row)) < 4 ->
   answers !! q = None
   /\ displayed_answer answers q = "No answer detected"%string)
  /\ (4 <= len (snd row) -> 4 <= len (side_of col (snd row)) ->
      answers !! q
      = first_letter th (enumerate_from 0 (options_of col (snd row)))
      /\ (is_Some (answers !! q) <->
          exists b, In b (options_of col (snd row)) /\ is_filled th b = true)
      /\ forall c, answers !! q = Some c ->
                   In c choices /\ displayed_answer answers q = c).
Proof.
  intros Hrow Hq answers q.
  assert (Hans : answers !! q = row_letter th (side_of col) row).
  { apply (answer_of_row th _ i row col Hrow Hq). }
  split.
  - intros Hshort.
    assert (H : answers !! q = None).
    { rewrite Hans. unfold row_letter, side_letter.
      destruct (Z.ltb_spec (len (snd row)) 4); [reflexivity|].
      destruct (Z.leb_spec 4 (len (side_of col (snd row))));
        [lia|reflexivity]. }
    split; [exact H|]. unfold displayed_answer. now rewrite H.
  - intros Hlen Hside.
    assert (H : answers !! q
                = first_letter th (enumerate_from 0 (options_of col (snd row)))).
    { rewrite Hans. unfold row_letter, side_letter.
      destruct (Z.ltb_spec (len (snd row)) 4); [lia|].
      destruct (Z.leb_spec 4 (len (side_of col (snd row)))); [|lia].
      reflexivity. }
    split; [exact H|]. split; [split|].
    + intros [c Hc]. rewrite H in Hc.
      apply first_letter_inv in Hc as (n & b & Hn & Hb & _).
      exists b. split; [|exact Hb].
      apply list_elem_of_In. eapply list_elem_of_lookup_2, Hn.
    + intros (b & Hin & Hb). rewrite H.
      now apply (first_letter_filled th _ 0 b).
    + intros c Hc. split.
      * apply (row_letter_choices th col row). now rewrite <- Hans.
      * unfold displayed_answer. now rewrite Hc.
Qed.

Lemma short_block_gives_no_entry_witness :
  map_bubbles_to_questions (6 # 10) [(0, lopsided_row)] !! 1 = None
  /\ map_bubbles_to_questions (6 # 10) [(0, lopsided_row)] !! 26
     = Some "A"%string.
Proof.
  split.
  - refine (proj1 (proj1 (short_block_gives_no_entry
                            (6 # 10) [(0, lopsided_row)] 0
                            (0, lopsided_row) LeftColumn _ _) _)).
    + reflexivity.
    + vm_compute. discriminate.
    + right. vm_compute. reflexivity.
  - refine (eq_trans
              (proj1 (proj2 (short_block_gives_no_entry
                               (6 # 10) [(0, lopsided_row)] 0
                               (0, lopsided_row) RightColumn _ _) _ _))
              _).
    + reflexivity.
    + vm_compute. discriminate.
    + vm_compute. discriminate.
    + vm_compute. discriminate.
    + reflexivity.
Defined.

(** C7 as stated fails: the row [lopsided_row] has a single bubble in its
    left block, yet it is not skipped as a whole, its right block answers
    question 26. *)
Lemma short_block_row_not_skipped :
  ~ (forall th (organized_bubbles : rows_dict) (i : nat) row,
        sorted_rows organized_bubbles !! i = Some row ->
        len (snd row) < 4 \/ len (left_of (snd row)) < 4
        \/ len (right_of (snd row)) < 4 ->
        map_bubbles_to_questions th organized_bubbles !! (Z.of_nat i + 1) = None
        /\ map_bubbles_to_questions th organized_bubbles !! (Z.of_nat i + 26)
           = None).
Proof.
  intros H.
  destruct (H (6 # 10) [(0, lopsided_row)] 0%nat (0, lopsided_row)) as [_ H26].
  - reflexivity.
  - right. left. vm_compute. reflexivity.
  - vm_compute in H26. discriminate.
Qed.

End MappingClaims.

(** ** The scan as a whole *)
Module PipelineFacts.
Import Py Scanner PyFacts MappingFacts Fixtures.

Section Pipeline.
Context `{cv : OpenCV}.

Lemma scan_body_result self image_path debug output_dir :
  snd (scan_body self image_path debug output_dir)
  = body_result self image_path.
Proof.
  unfold scan_body, body_result, bind.
  destruct (preprocess_image image_path) as [[[t g] o]|e]; [|reflexivity].
  now destruct (detect_bubbles t o).
Qed.

Lemma scan_answer_sheet_result self image_path debug output_dir :
  exists out,
    scan_answer_sheet self image_path debug output_dir
    = (self, out,
       Ok (match body_result self image_path with
           | Ok answers => answers
           | Raise _ => ∅
           end)).
Proof.
  unfold scan_answer_sheet.
  rewrite <- (scan_body_result self image_path debug output_dir).
  destruct (scan_body self image_path debug output_dir) as [out [m|e]];
    eexists; reflexivity.
Qed.

Lemma scan_answer_sheet_entries self image_path debug output_dir m q v :
  snd (scan_answer_sheet self image_path debug output_dir) = Ok m ->
  m !! q = Some v ->
  1 <= q <= 50 /\ In v choices.
Proof.
  destruct (scan_answer_sheet_result self image_path debug output_dir)
    as [out ->]. simpl. intros [= <-].
  destruct (body_result self image_path) as [answers|e] eqn:E.
  - unfold body_result, bind in E.
    destruct (preprocess_image image_path) as [[[t g] o]|]; [|discriminate].
    destruct (detect_bubbles t o); [|discriminate].
    injection E as <-. rewrite map_bubbles_to_questions_lookup. intros H.
    split; [eapply slot_answer_range, H|].
    apply slot_answer_letter in H as (col & row & _ & Hc).
    eapply row_letter_choices, Hc.
  - now rewrite lookup_empty.
Qed.

End Pipeline.

End PipelineFacts.

(** ** Row clustering *)
Module RowFacts.
Import Py Scanner PyFacts Fixtures.

Lemma walk_cons b rest (rows : rows_dict) cr ly :
  walk (b :: rest) rows cr ly =
  if tolerance <? Z.abs (center_y b - ly)
  then walk rest (rows_append rows (cr + 1) b) (cr + 1) (center_y b)
  else walk rest (rows_append rows cr b) cr ly.
Proof. simpl. now destruct (tolerance <? Z.abs (center_y b - ly)). Qed.

Lemma walk_app l1 l2 (rows : rows_dict) cr ly :
  walk (l1 ++ l2) rows cr ly =
  let '(rows', cr', ly') := walk l1 rows cr ly in walk l2 rows' cr' ly'.
Proof.
  revert rows cr ly. induction l1 as [|b l1 IH]; intros rows cr ly.
  - reflexivity.
  - rewrite <- app_comm_cons, !walk_cons.
    destruct (tolerance <? Z.abs (center_y b - ly)); apply IH.
Qed.

(** Appending to a row adds exactly one membership. *)
Lemma in_row_rows_append (rows : rows_dict) k b k' a :
  in_row (rows_append rows k b) k' a <-> in_row rows k' a \/ (k' = k /\ a = b).
Proof.
  unfold in_row. induction rows as [|[k0 r0] rows IH]; simpl.
  - split.
    + intros (row & [[= <- <-]|[]] & Ha). destruct Ha as [<-|[]]. now right.
    + intros [(row & [] & _)|[-> ->]]. exists [b]. split; now left.
  - destruct (Z.eqb_spec k0 k) as [->|Hne].
    + split.
      * intros (row & [[= <- <-]|Hin] & Ha).
        -- apply in_app_or in Ha as [Ha|[<-|[]]]; [left|now right].
           exists r0. split; [now left|exact Ha].
        -- left. exists row. split; [now right|exact Ha].
      * intros [(row & [[= <- <-]|Hin] & Ha)|[-> ->]].
        -- exists (r0 ++ [b]). split; [now left|]. apply in_or_app. now left.
        -- exists row. split; [now right|exact Ha].
        -- exists (r0 ++ [b]). split; [now left|].
           apply in_or_app. right. now left.
    + split.
      * intros (row & [[= <- <-]|Hin] & Ha).
        -- left. exists r0. split; [now left|exact Ha].
        -- destruct (proj1 IH) as [(row' & Hin' & Ha')|Heq]; [eauto| |now right].
           left. exists row'. split; [now right|exact Ha'].
      * intros [(row & [[= <- <-]|Hin] & Ha)|Heq].
        -- exists r0. split; [now left|exact Ha].
        -- destruct (proj2 IH) as (row' & Hin' & Ha'); [left; eauto|].
           exists row'. split; [now right|exact Ha'].
        -- destruct (proj2 IH) as (row' & Hin' & Ha'); [now right|].
           exists row'. split; [now right|exact Ha'].
Qed.

Lemma keys_rows_append (rows : rows_dict) k b :
  NoDup (map fst rows) -> NoDup (map fst (rows_append rows k b)).
Proof.
  induction rows as [|[k0 r0] rows IH]; simpl; intros Hnd.
  - repeat constructor. intros Hin. inversion Hin.
  - destruct (Z.eqb_spec k0 k) as [->|Hne]; [exact Hnd|]. simpl.
    apply NoDup_cons in Hnd as [Hk0 Hnd]. apply NoDup_cons. split; [|auto].
    intros Hin. apply Hk0. clear IH Hnd Hk0.
    induction rows as [|[k1 r1] rows IH]; simpl in *.
    + apply list_elem_of_singleton in Hin. congruence.
    + destruct (Z.eqb_spec k1 k); simpl in *; [exact Hin|].
      apply elem_of_cons in Hin as [->|Hin]; [apply list_elem_of_here|].
      apply list_elem_of_further. auto.
Qed.

(** With distinct keys there is one row per index. *)
Lemma rows_key_unique (rows : rows_dict) k r1 r2 :
  NoDup (map fst rows) -> In (k, r1) rows -> In (k, r2) rows -> r1 = r2.
Proof.
  intros Hnd Hr1 Hr2.
  induction rows as [|[k0 r0] rows IH]; [destruct Hr1|].
  simpl in Hnd. apply NoDup_cons in Hnd as [Hk0 Hnd].
  assert (Hkey : forall r, In (k0, r) rows -> False).
  { intros r Hr. apply Hk0. apply list_elem_of_In.
    apply in_map_iff. exists (k0, r). auto. }
  destruct Hr1 as [E1|Hr1], Hr2 as [E2|Hr2].
  - congruence.
  - injection E1 as -> ->. exfalso. eapply Hkey, Hr2.
  - injection E2 as -> ->. exfalso. eapply Hkey, Hr1.
  - auto.
Qed.

Lemma in_row_In (rows : rows_dict) k row a :
  NoDup (map fst rows) -> In (k, row) rows -> in_row rows k a -> In a row.
Proof.
  intros Hnd Hrow (row' & Hrow' & Ha).
  now rewrite (rows_key_unique rows k row row' Hnd Hrow Hrow').
Qed.

(** One step of the loop keeps the invariant, when the candidate is not
    above the anchor [last_y] of the current row. *)
Lemma walk_inv_step (rows : rows_dict) cr ly b :
  walk_inv rows cr ly -> ly <= center_y b ->
  if tolerance <? Z.abs (center_y b - ly)
  then walk_inv (rows_append rows (cr + 1) b) (cr + 1) (center_y b)
  else walk_inv (rows_append rows cr b) cr ly.
Proof.
  intros [Hk Hmax Hcur Habove Hord (a0 & Ha0 & Hy0) Hin] Hb.
  unfold tolerance in *.
  destruct (Z.ltb_spec 20 (Z.abs (center_y b - ly))) as [Hgap|Hgap].
  - assert (Hold : forall k a, in_row rows k a -> center_y a < center_y b).
    { intros k a Ha. pose proof (Hmax k a Ha).
      destruct (Z.eq_dec k cr) as [->|Hne].
      - pose proof (Hcur a Ha). lia.
      - pose proof (Habove k a Ha ltac:(lia)). lia. }
    constructor; unfold tolerance.
    + now apply keys_rows_append.
    + intros k a Ha. apply in_row_rows_append in Ha as [Ha|[-> ->]]; [|lia].
      pose proof (Hmax k a Ha). lia.
    + intros a Ha. apply in_row_rows_append in Ha as [Ha|[_ ->]]; [|lia].
      pose proof (Hmax _ a Ha). lia.
    + intros k a Ha Hlt. apply in_row_rows_append in Ha as [Ha|[-> ->]]; [|lia].
      eapply Hold, Ha.
    + intros k1 k2 a1 a2 H1 H2 Hlt.
      apply in_row_rows_append in H1 as [H1|[-> ->]],
            H2 as [H2|[-> ->]]; try lia.
      * eapply Hord; eauto.
      * eapply Hold, H1.
      * pose proof (Hmax k2 a2 H2). lia.
    + exists b. split; [|reflexivity]. apply in_row_rows_append. now right.
    + intros k a1 a2 H1 H2.
      apply in_row_rows_append in H1 as [H1|[E1 E1']],
            H2 as [H2|[E2 E2']]; subst; try lia.
      * eapply Hin; eauto.
      * pose proof (Hmax _ a1 H1). lia.
      * pose proof (Hmax _ a2 H2). lia.
  - constructor; unfold tolerance.
    + now apply keys_rows_append.
    + intros k a Ha. apply in_row_rows_append in Ha as [Ha|[-> ->]]; [|lia].
      eapply Hmax, Ha.
    + intros a Ha. apply in_row_rows_append in Ha as [Ha|[_ ->]]; [|lia].
      eapply Hcur, Ha.
    + intros k a Ha Hlt. apply in_row_rows_append in Ha as [Ha|[-> ->]]; [|lia].
      eapply Habove; eauto.
    + intros k1 k2 a1 a2 H1 H2 Hlt.
      apply in_row_rows_append in H1 as [H1|[-> ->]],
            H2 as [H2|[-> ->]]; try lia.
      * eapply Hord; eauto.
      * pose proof (Habove k1 a1 H1 Hlt). lia.
      * pose proof (Hmax k2 a2 H2). lia.
    + exists a0. split; [|exact Hy0]. apply in_row_rows_append. now left.
    + intros k a1 a2 H1 H2.
      apply in_row_rows_append in H1 as [H1|[E1 E1']],
            H2 as [H2|[E2 E2']]; subst; try lia.
      * eapply Hin; eauto.
      * pose proof (Hcur a1 H1). lia.
      * pose proof (Hcur a2 H2). lia.
Qed.

(** The loop over candidates in y order: it returns, the invariant holds
    at the end, no membership is lost, every candidate gets a row, and the
    last anchor is the old one or one of the candidates. *)
Lemma walk_inv_run bubbles (rows : rows_dict) cr ly :
  walk_inv rows cr ly -> ascending_from ly bubbles ->
  exists rows' cr' ly',
    walk bubbles rows cr ly = (rows', cr', ly')
    /\ walk_inv rows' cr' ly'
    /\ (forall k a, in_row rows k a -> in_row rows' k a)
    /\ (forall b, In b bubbles -> exists k, in_row rows' k b)
    /\ (forall z, ly <= z -> Forall (fun b => center_y b <= z) bubbles ->
                  ly' <= z).
Proof.
  revert rows cr ly.
  induction bubbles as [|b rest IH]; intros rows cr ly Hinv [Hsorted Hfrom].
  { exists rows, cr, ly. split; [reflexivity|]. split; [exact Hinv|].
    split; [auto|]. split; [intros b []|auto]. }
  apply StronglySorted_inv in Hsorted as [Hsorted Hb].
  apply Forall_cons in Hfrom as [Hlb Hfrom].
  pose proof (walk_inv_step rows cr ly b Hinv Hlb) as Hstep.
  rewrite walk_cons.
  destruct (tolerance <? Z.abs (center_y b - ly)).
  - destruct (IH _ _ _ Hstep (conj Hsorted Hb))
      as (rows' & cr' & ly' & Hwalk & Hinv' & Hmono & Hcover & Hbound).
    exists rows', cr', ly'. split; [exact Hwalk|]. split; [exact Hinv'|].
    split; [|split].
    + intros k a Ha. apply Hmono, in_row_rows_append. now left.
    + intros c [<-|Hc]; [|auto].
      exists (cr + 1). apply Hmono, in_row_rows_append. now right.
    + intros z Hz Hall. apply Forall_cons in Hall as [Hbz Hall]. auto.
  - destruct (IH _ _ _ Hstep (conj Hsorted Hfrom))
      as (rows' & cr' & ly' & Hwalk & Hinv' & Hmono & Hcover & Hbound).
    exists rows', cr', ly'. split; [exact Hwalk|]. split; [exact Hinv'|].
    split; [|split].
    + intros k a Ha. apply Hmono, in_row_rows_append. now left.
    + intros c [<-|Hc]; [|auto].
      exists cr. apply Hmono, in_row_rows_append. now right.
    + intros z Hz Hall. apply Forall_cons in Hall as [Hbz Hall]. auto.
Qed.

(** One candidate: it lands in the row that is current afterwards, and
    that is the old current row when it is within the tolerance of the
    anchor. *)
Lemma walk_one b (rows : rows_dict) cr ly :
  walk_inv rows cr ly -> ly <= center_y b ->
  exists rows' cr' ly',
    walk [b] rows cr ly = (rows', cr', ly')
    /\ walk_inv rows' cr' ly'
    /\ in_row rows' cr' b
    /\ (forall k a, in_row rows k a -> in_row rows' k a)
    /\ (ly' = ly \/ ly' = center_y b)
    /\ (Z.abs (center_y b - ly) <= tolerance -> cr' = cr).
Proof.
  intros Hinv Hb. pose proof (walk_inv_step rows cr ly b Hinv Hb) as Hstep.
  rewrite walk_cons. simpl.
  destruct (Z.ltb_spec tolerance (Z.abs (center_y b - ly))).
  - exists (rows_append rows (cr + 1) b), (cr + 1), (center_y b).
    split; [reflexivity|]. split; [exact Hstep|].
    split; [apply in_row_rows_append; now right|].
    split; [intros k a Ha; apply in_row_rows_append; now left|].
    split; [now right|lia].
  - exists (rows_append rows cr b), cr, ly.
    split; [reflexivity|]. split; [exact Hstep|].
    split; [apply in_row_rows_append; now right|].
    split; [intros k a Ha; apply in_row_rows_append; now left|].
    split; [now left|reflexivity].
Qed.

(** The candidate [b2] that comes right after [b1], a member of the
    current row: it joins the row of [b1] exactly when it is within the
    tolerance of every member of that row. *)
Lemma walk_next b1 b2 l2 (rows : rows_dict) cr ly :
  walk_inv rows cr ly ->
  in_row rows cr b1 ->
  ascending_from ly (b2 :: l2) ->
  exists rows' cr' ly',
    walk (b2 :: l2) rows cr ly = (rows', cr', ly')
    /\ walk_inv rows' cr' ly'
    /\ (forall k a, in_row rows k a -> in_row rows' k a)
    /\ (forall b, In b (b2 :: l2) -> exists k, in_row rows' k b)
    /\ (same_row rows' b1 b2 <->
        exists k row,
          In (k, row) rows' /\ In b1 row
          /\ forall a, In a row ->
                       Z.abs (center_y b2 - center_y a) <= tolerance).
Proof.
  intros Hinv1 Hin1 [Hsorted Hfrom].
  apply StronglySorted_inv in Hsorted as [Hs2 Hb2].
  apply Forall_cons in Hfrom as [Hlb2 Hf2].
  destruct (walk_one b2 rows cr ly Hinv1 Hlb2)
    as (rows2 & cr2 & ly2 & Hw2 & Hinv2 & Hin2 & Hmono2 & Hly2 & Hjoin).
  assert (Hasc : ascending_from ly2 l2).
  { split; [exact Hs2|]. eapply Forall_impl; [exact Hb2|].
    simpl. intros a Ha. destruct Hly2; lia. }
  destruct (walk_inv_run l2 rows2 cr2 ly2 Hinv2 Hasc)
    as (rows3 & cr3 & ly3 & Hw3 & Hinv3 & Hmono3 & Hcover3 & _).
  exists rows3, cr3, ly3. split; [|split; [exact Hinv3|]].
  { change (b2 :: l2) with ([b2] ++ l2). rewrite walk_app, Hw2. exact Hw3. }
  split; [auto|]. split.
  { intros b [<-|Hb]; [exists cr2; auto|auto]. }
  split.
  - intros (k & row & Hrow & H1 & H2). exists k, row.
    split; [exact Hrow|]. split; [exact H1|].
    intros a Ha. apply (inv_within _ _ _ Hinv3 k); exists row; auto.
  - intros (k & row & Hrow & H1 & Hnear).
    assert (Hk1 : in_row rows3 cr b1) by auto.
    assert (Hk : k = cr).
    { destruct (Z.lt_trichotomy k cr) as [Hlt|[Heq|Hgt]]; [|exact Heq|].
      - pose proof (inv_order _ _ _ Hinv3 k cr b1 b1
                      ltac:(exists row; auto) Hk1 Hlt). lia.
      - pose proof (inv_order _ _ _ Hinv3 cr k b1 b1
                      Hk1 ltac:(exists row; auto) Hgt). lia. }
    subst k.
    destruct (inv_anchor _ _ _ Hinv1) as (a0 & Ha0 & Hy0).
    assert (Ha0' : In a0 row).
    { eapply in_row_In; [apply (inv_keys _ _ _ Hinv3)|exact Hrow|auto]. }
    pose proof (Hnear a0 Ha0') as Hgap. rewrite Hy0 in Hgap.
    rewrite (Hjoin Hgap) in Hin2.
    exists cr, row. split; [exact Hrow|]. split; [exact H1|].
    eapply in_row_In; [apply (inv_keys _ _ _ Hinv3)|exact Hrow|auto].
Qed.

(** The same, for two neighbours anywhere in the list. *)
Lemma walk_join l1 b1 b2 l2 (rows : rows_dict) cr ly :
  walk_inv rows cr ly ->
  ascending_from ly (l1 ++ b1 :: b2 :: l2) ->
  exists rows' cr' ly',
    walk (l1 ++ b1 :: b2 :: l2) rows cr ly = (rows', cr', ly')
    /\ (same_row rows' b1 b2 <->
        exists k row,
          In (k, row) rows' /\ In b1 row
          /\ forall a, In a row ->
                       Z.abs (center_y b2 - center_y a) <= tolerance).
Proof.
  intros Hinv [Hsorted Hfrom].
  apply StronglySorted_app in Hsorted as (Hcross & Hs1 & Hs2).
  apply Forall_app in Hfrom as [Hf1 Hf2].
  apply StronglySorted_inv in Hs2 as [Hs2 Hb1].
  apply Forall_cons in Hf2 as [Hlb1 Hf2].
  destruct (walk_inv_run l1 rows cr ly Hinv (conj Hs1 Hf1))
    as (rows0 & cr0 & ly0 & Hw0 & Hinv0 & _ & _ & Hbound0).
  assert (Hly0 : ly0 <= center_y b1).
  { apply Hbound0; [exact Hlb1|]. rewrite Forall_forall. intros a Ha.
    apply Hcross; [exact Ha|apply list_elem_of_here]. }
  destruct (walk_one b1 rows0 cr0 ly0 Hinv0 Hly0)
    as (rows1 & cr1 & ly1 & Hw1 & Hinv1 & Hin1 & _ & Hly1 & _).
  assert (Hasc : ascending_from ly1 (b2 :: l2)).
  { split; [exact Hs2|]. eapply Forall_impl; [exact Hb1|].
    simpl. intros a Ha. destruct Hly1; lia. }
  destruct (walk_next b1 b2 l2 rows1 cr1 ly1 Hinv1 Hin1 Hasc)
    as (rows3 & cr3 & ly3 & Hw3 & _ & _ & _ & Hiff).
  exists rows3, cr3, ly3. split; [|exact Hiff].
  rewrite walk_app, Hw0.
  change (b1 :: b2 :: l2) with ([b1] ++ b2 :: l2).
  rewrite walk_app, Hw1. exact Hw3.
Qed.

(** The state after the first candidate. *)
Lemma walk_inv_first b0 : walk_inv [(0, [b0])] 0 (center_y b0).
Proof.
  assert (Hmem : forall k a, in_row [(0, [b0])] k a -> k = 0 /\ a = b0).
  { intros k a (row & [[= <- <-]|[]] & [<-|[]]). auto. }
  constructor; unfold tolerance.
  - repeat constructor. intros Hin. inversion Hin.
  - intros k a Ha. apply Hmem in Ha as [-> _]. lia.
  - intros a Ha. apply Hmem in Ha as [_ ->]. lia.
  - intros k a Ha. apply Hmem in Ha as [-> _]. lia.
  - intros k1 k2 a1 a2 H1 H2. apply Hmem in H1 as [-> _], H2 as [-> _]. lia.
  - exists b0. split; [|reflexivity]. exists [b0]. split; now left.
  - intros k a1 a2 H1 H2. apply Hmem in H1 as [_ ->], H2 as [_ ->]. lia.
Qed.

Lemma walk_first b0 rest :
  walk (b0 :: rest) [] 0 (center_y b0)
  = walk rest [(0, [b0])] 0 (center_y b0).
Proof. rewrite walk_cons, Z.sub_diag. reflexivity. Qed.

Lemma sort_by_y_ascending bubbles :
  StronglySorted (fun a b => center_y a <= center_y b) (sort_by_y bubbles).
Proof.
  unfold sort_by_y.
  eapply StronglySorted_weaken;
    [|apply (sorted_by_sorted Z.leb center_y)].
  - intros a b H. now apply Z.leb_le.
  - intros a b H. apply Z.leb_le. apply Z.leb_gt in H. lia.
  - intros a b c H1 H2. apply Z.leb_le in H1, H2. apply Z.leb_le. lia.
Qed.

(** Sorting the rows by x keeps their members. *)
Lemma In_sorted_rows (rows : rows_dict) k row' :
  In (k, row') (map (fun kr => (fst kr, sort_by_x (snd kr))) rows)
  <-> exists row, In (k, row) rows /\ row' = sort_by_x row.
Proof.
  rewrite in_map_iff. split.
  - intros ([k0 row] & [= <- <-] & Hin). eauto.
  - intros (row & Hin & ->). exists (k, row). auto.
Qed.

Lemma same_row_sorted_rows (rows : rows_dict) b1 b2 :
  same_row (map (fun kr => (fst kr, sort_by_x (snd kr))) rows) b1 b2
  <-> same_row rows b1 b2.
Proof.
  unfold same_row. split.
  - intros (k & row' & Hrow & H1 & H2).
    apply In_sorted_rows in Hrow as (row & Hrow & ->).
    apply In_sorted_by in H1, H2. eauto 6.
  - intros (k & row & Hrow & H1 & H2).
    exists k, (sort_by_x row). split; [apply In_sorted_rows; eauto|].
    split; now apply In_sorted_by.
Qed.

Lemma near_row_sorted_rows (rows : rows_dict) b1 (P : bubble -> Prop) :
  (exists k row,
      In (k, row) (map (fun kr => (fst kr, sort_by_x (snd kr))) rows)
      /\ In b1 row /\ forall a, In a row -> P a)
  <-> (exists k row, In (k, row) rows /\ In b1 row
                     /\ forall a, In a row -> P a).
Proof.
  split.
  - intros (k & row' & Hrow & H1 & H2).
    apply In_sorted_rows in Hrow as (row & Hrow & ->).
    exists k, row. split; [exact Hrow|].
    split; [now apply In_sorted_by in H1|].
    intros a Ha. apply H2. now apply In_sorted_by.
  - intros (k & row & Hrow & H1 & H2).
    exists k, (sort_by_x row). split; [apply In_sorted_rows; eauto|].
    split; [now apply In_sorted_by|].
    intros a Ha. apply H2. now apply In_sorted_by in Ha.
Qed.

(** No row is ever empty: a row is created by its first [append]. *)
Lemma rows_append_nonempty (rows : rows_dict) k b :
  Forall (fun kr => snd kr <> []) rows ->
  Forall (fun kr => snd kr <> []) (rows_append rows k b).
Proof.
  induction 1 as [|[k0 r0] rows Hr0 Hrows IH]; simpl.
  - repeat constructor. discriminate.
  - destruct (k0 =? k); constructor; auto. simpl. now destruct r0.
Qed.

Lemma walk_nonempty bubbles (rows : rows_dict) cr ly :
  Forall (fun kr => snd kr <> []) rows ->
  Forall (fun kr => snd kr <> []) (fst (fst (walk bubbles rows cr ly))).
Proof.
  revert rows cr ly. induction bubbles as [|b rest IH]; intros rows cr ly H.
  - exact H.
  - rewrite walk_cons. destruct (tolerance <? Z.abs (center_y b - ly));
      apply IH, rows_append_nonempty, H.
Qed.

Lemma organize_bubbles_by_rows_nonempty bubbles :
  Forall (fun kr => snd kr <> []) (organize_bubbles_by_rows bubbles).
Proof.
  unfold organize_bubbles_by_rows. destruct bubbles as [|x l]; [constructor|].
  set (s := sort_by_y (x :: l)).
  pose proof (walk_nonempty s [] 0
                (match s with b0 :: _ => center_y b0 | [] => 0 end)
                (List.Forall_nil _)) as H.
  destruct (walk s [] 0 _) as [[rows cr] ly]. simpl in H.
  induction H as [|[k row] rows Hrow Hrows IH]; simpl; constructor; auto.
  simpl in *. intros E. apply Hrow.
  destruct row as [|b row]; [reflexivity|]. exfalso.
  pose proof (len_sorted_by Z.leb center_x (b :: row)) as Hlen.
  unfold sort_by_x in E. rewrite E in Hlen.
  unfold len in Hlen. simpl length in Hlen. lia.
Qed.

Lemma in_row_sorted_rows (rows : rows_dict) k b :
  in_row (map (fun kr => (fst kr, sort_by_x (snd kr))) rows) k b
  <-> in_row rows k b.
Proof.
  unfold in_row. split.
  - intros (row' & Hrow & Hb).
    apply In_sorted_rows in Hrow as (row & Hrow & ->).
    apply In_sorted_by in Hb. eauto.
  - intros (row & Hrow & Hb). exists (sort_by_x row).
    split; [apply In_sorted_rows; eauto|now apply In_sorted_by].
Qed.

(** [organize_bubbles_by_rows] on a non-empty list: the loop runs from
    the state reached after the topmost candidate. *)
Lemma organize_bubbles_by_rows_eq bubbles b0 rest :
  sort_by_y bubbles = b0 :: rest ->
  organize_bubbles_by_rows bubbles
  = map (fun kr => (fst kr, sort_by_x (snd kr)))
        (fst (fst (walk rest [(0, [b0])] 0 (center_y b0)))).
Proof.
  intros Hs. unfold organize_bubbles_by_rows.
  destruct bubbles as [|x l]; [discriminate|].
  rewrite Hs, walk_first.
  now destruct (walk rest [(0, [b0])] 0 (center_y b0)) as [[rows cr] ly].
Qed.

Lemma neighbours_split {A} (l : list A) (j : nat) (b1 b2 : A) :
  l !! j = Some b1 -> l !! S j = Some b2 ->
  l = firstn j l ++ b1 :: b2 :: skipn (S (S j)) l.
Proof.
  intros H1 H2. rewrite <- (take_drop_middle l j b1 H1) at 1.
  do 2 f_equal. now apply drop_S.
Qed.

(** C2, as the code has it. The candidates are gone through in y order,
    and [last_y] is the y of the first candidate of the current row, not
    of the previous candidate. Every candidate gets a row; two candidates
    of one row are at most the tolerance (20) apart, so two consecutive
    candidates more than 20 apart are in different rows; and a candidate
    joins the row of the candidate before it exactly when it is within the
    tolerance of every member of that row, the topmost one included. *)
Theorem rows_follow_first_of_row (bubbles : list bubble) :
  let sorted := sort_by_y bubbles in
  let rows := organize_bubbles_by_rows bubbles in
  (forall b, In b bubbles -> exists k, in_row rows k b)
  /\ (forall b1 b2, same_row rows b1 b2 ->
                    Z.abs (center_y b2 - center_y b1) <= tolerance)
  /\ (forall (i : nat) b1 b2,
        sorted !! i = Some b1 -> sorted !! S i = Some b2 ->
        (tolerance < Z.abs (center_y b2 - center_y b1) ->
         ~ same_row rows b1 b2)
        /\ (same_row rows b1 b2 <->
            exists k row,
              In (k, row) rows /\ In b1 row
              /\ forall a, In a row ->
                           Z.abs (center_y b2 - center_y a) <= tolerance)).
Proof.
  intros sorted rows. subst sorted rows.
  pose proof (sort_by_y_ascending bubbles) as Hsorted.
  assert (Hperm : forall b, In b (sort_by_y bubbles) <-> In b bubbles)
    by (intros b; apply In_sorted_by).
  destruct (sort_by_y bubbles) as [|b0 rest] eqn:Es.
  { assert (Hnil : bubbles = []).
    { destruct bubbles as [|x l]; [reflexivity|].
      destruct (proj2 (Hperm x)). now left. }
    subst bubbles. split; [intros b []|].
    split; [intros b1 b2 (k & row & [] & _)|]. intros i b1 b2 Hi.
    now rewrite lookup_nil in Hi. }
  rewrite (organize_bubbles_by_rows_eq bubbles b0 rest Es).
  apply StronglySorted_inv in Hsorted as [Hs Hb0].
  assert (Hasc : ascending_from (center_y b0) rest) by (split; assumption).
  destruct (walk_inv_run rest _ _ _ (walk_inv_first b0) Hasc)
    as (rows & cr & ly & Hwalk & Hinv & Hmono & Hcover & _).
  rewrite Hwalk. simpl fst.
  assert (Hwithin : forall b1 b2, same_row rows b1 b2 ->
                      Z.abs (center_y b2 - center_y b1) <= tolerance).
  { intros b1 b2 (k & row & Hrow & H1 & H2).
    apply (inv_within _ _ _ Hinv k); exists row; auto. }
  split; [|split].
  - intros b Hb. apply Hperm in Hb.
    destruct Hb as [<-|Hb].
    + exists 0. apply in_row_sorted_rows, Hmono.
      exists [b0]. split; now left.
    + destruct (Hcover b Hb) as [k Hk]. exists k.
      now apply in_row_sorted_rows.
  - intros b1 b2 H. apply Hwithin. now apply same_row_sorted_rows.
  - intros i b1 b2 H1 H2. split.
    { intros Hgap H. apply same_row_sorted_rows, Hwithin in H. lia. }
    rewrite same_row_sorted_rows, near_row_sorted_rows.
    destruct i as [|j]; simpl in H1, H2.
    + injection H1 as <-.
      destruct rest as [|b2' l2]; [discriminate|]. injection H2 as ->.
      destruct (walk_next b0 b2 l2 _ _ _ (walk_inv_first b0)
                  ltac:(exists [b0]; split; now left) Hasc)
        as (rows' & cr' & ly' & Hwalk' & _ & _ & _ & Hiff).
      rewrite Hwalk in Hwalk'. injection Hwalk' as <- <- <-. exact Hiff.
    + pose proof (neighbours_split rest j b1 b2 H1 H2) as Hsplit.
      rewrite Hsplit in Hasc, Hwalk.
      destruct (walk_join _ b1 b2 _ _ _ _ (walk_inv_first b0) Hasc)
        as (rows' & cr' & ly' & Hwalk' & Hiff).
      rewrite Hwalk in Hwalk'. injection Hwalk' as <- <- <-. exact Hiff.
Qed.

(** C2 as stated fails on [staircase], three candidates at y = 0, 15, 30:
    the last two are 15 pixels apart, less than the tolerance, and still
    the third one opens a new row, being 30 pixels below the first. *)
Lemma close_neighbours_in_different_rows :
  ~ (forall (bubbles : list bubble) (i : nat) b1 b2,
        sort_by_y bubbles = bubbles ->
        bubbles !! i = Some b1 -> bubbles !! S i = Some b2 ->
        (Z.abs (center_y b2 - center_y b1) < tolerance ->
         same_row (organize_bubbles_by_rows bubbles) b1 b2)
        /\ (tolerance < Z.abs (center_y b2 - center_y b1) ->
            ~ same_row (organize_bubbles_by_rows bubbles) b1 b2)).
Proof.
  intros H.
  destruct (H staircase 1%nat (mk 0 15 0) (mk 0 30 0)) as [Hsame _];
    try reflexivity.
  destruct Hsame as (k & row & Hrow & H1 & H2); [vm_compute; reflexivity|].
  vm_compute in Hrow.
  destruct Hrow as [[= <- <-]|[[= <- <-]|[]]].
  - destruct H2 as [E|[E|[]]]; discriminate E.
  - destruct H1 as [E|[]]; discriminate E.
Qed.

End RowFacts.

(** ** Bubble detection *)
Module DetectionFacts.
Import Py Scanner PyFacts Fixtures.

Lemma sum_Z_slice_bounds (r : list Z) (x w : Z) :
  Forall (fun p => 0 <= p <= 255) r -> 0 <= w ->
  0 <= sum_Z (slice r x (x + w)) <= 255 * w.
Proof.
  intros Hr Hw.
  assert (Hs : Forall (fun p => 0 <= p <= 255) (slice r x (x + w))).
  { rewrite Forall_forall in *. intros p Hp.
    apply Hr. rewrite list_elem_of_In in *. eapply In_slice, Hp. }
  pose proof (sum_Z_bounds _ 255 Hs).
  pose proof (len_slice r x (x + w) ltac:(lia)).
  assert (0 <= len (slice r x (x + w))) by (unfold len; lia). nia.
Qed.

(** The sum over a box of [w] by [h] pixels is at most [255 * w * h]. *)
Lemma np_sum_crop_bounds (img : ndarray) (x y w h : Z) :
  uint8_image img -> 0 <= w -> 0 <= h ->
  0 <= np_sum (crop img y (y + h) x (x + w)) <= 255 * w * h.
Proof.
  intros Himg Hw Hh. unfold np_sum, crop.
  assert (Hrows : Forall (fun s => 0 <= s <= 255 * w)
                    (map sum_Z (map (fun r => slice r x (x + w))
                                    (slice img y (y + h))))).
  { rewrite Forall_forall. intros s Hs. rewrite list_elem_of_In in Hs.
    apply in_map_iff in Hs as (r' & <- & Hr').
    apply in_map_iff in Hr' as (r & <- & Hr).
    apply sum_Z_slice_bounds; [|exact Hw].
    unfold uint8_image in Himg. rewrite Forall_forall in Himg.
    apply Himg. rewrite list_elem_of_In. eapply In_slice, Hr. }
  pose proof (sum_Z_bounds _ (255 * w) Hrows) as Hb.
  unfold len in Hb. rewrite !length_map in Hb.
  pose proof (len_slice img y (y + h) ltac:(lia)) as Hl. unfold len in Hl.
  nia.
Qed.

Lemma Q_fraction_bounds (s d : Z) :
  0 <= s <= d -> 0 < d ->
  (0 <= inject_Z s / inject_Z d <= 1)%Q.
Proof.
  intros Hs Hd.
  assert (Hd' : (0 < inject_Z d)%Q) by (change 0%Q with (inject_Z 0);
                                       now rewrite <- Zlt_Qlt).
  split.
  - apply Qle_shift_div_l; [exact Hd'|]. rewrite Qmult_0_l.
    change 0%Q with (inject_Z 0). rewrite <- Zle_Qle. lia.
  - apply Qle_shift_div_r; [exact Hd'|]. rewrite Qmult_1_l.
    rewrite <- Zle_Qle. lia.
Qed.

Section Detection.
Context `{cv : OpenCV}.

Lemma detect_loop_fill thresh_img contours acc :
  uint8_image thresh_img ->
  Forall (fun c => nonempty_rect (boundingRect c)) contours ->
  Forall (fill_ok thresh_img) acc ->
  exists bubbles,
    detect_loop thresh_img contours acc = Ok bubbles
    /\ Forall (fill_ok thresh_img) bubbles.
Proof.
  intros Himg Hcs. revert acc.
  induction Hcs as [|c contours Hc Hcs IH]; intros acc Hacc; simpl.
  { eauto. }
  destruct (Qltb (contourArea c) 100 || Qltb 2000 (contourArea c)); [auto|].
  destruct (Qeq_bool (arcLength c) 0); [auto|].
  destruct (Qltb _ (6 # 10)); [auto|].
  destruct (boundingRect c) as [[[x y] w] h]. simpl in Hc.
  destruct (Z.eqb_spec h 0); [lia|].
  destruct (Qltb _ (7 # 10) || Qltb (13 # 10) _); [auto|].
  apply IH. apply Forall_app. split; [exact Hacc|].
  constructor; [|constructor].
  unfold fill_ok, ink_fraction. simpl. split; [reflexivity|].
  apply Q_fraction_bounds; [|nia].
  apply np_sum_crop_bounds; [exact Himg|lia|lia].
Qed.

End Detection.

(** C8. [detect_bubbles] returns, and for every candidate it returns the
    fill ratio is the sum of the binary pixel values in the bounding box
    divided by 255 times the width times the height of the box, a number
    between 0 and 1. *)
Theorem fill_ratio_is_ink_fraction `{cv : OpenCV} thresh_img original_img :
  uint8_image thresh_img ->
  proper_contours thresh_img ->
  exists bubbles,
    detect_bubbles thresh_img original_img = Ok bubbles
    /\ forall b, In b bubbles ->
         (fill_ratio b == ink_fraction thresh_img b)%Q
         /\ (0 <= fill_ratio b <= 1)%Q.
Proof.
  intros Himg Hcs.
  destruct (detect_loop_fill thresh_img (findContours thresh_img) []
              Himg Hcs (List.Forall_nil _)) as (bubbles & Hdet & Hall).
  exists bubbles. split; [exact Hdet|].
  intros b Hb. rewrite Forall_forall in Hall.
  apply Hall. now rewrite list_elem_of_In.
Qed.

Lemma fill_ratio_is_ink_fraction_witness :
  exists bubbles,
    detect_bubbles (cv := sheet_world) sheet_pixels sheet_pixels = Ok bubbles
    /\ forall b, In b bubbles ->
         (fill_ratio b == ink_fraction sheet_pixels b)%Q
         /\ (0 <= fill_ratio b <= 1)%Q.
Proof.
  apply (fill_ratio_is_ink_fraction (cv := sheet_world)).
  - unfold uint8_image. apply (bool_decide_unpack _). vm_compute. exact I.
  - unfold proper_contours. simpl findContours. unfold sheet_contours.
    simpl map.
    repeat (constructor; [vm_compute; split; reflexivity|]). constructor.
Defined.

End DetectionFacts.

(** ** Corner markers *)
Module StraightenerFacts.
Import Py Straightener PyFacts Fixtures.

Lemma pair_leb_total a b : pair_leb a b = false -> pair_leb b a = true.
Proof.
  unfold pair_leb. destruct a as [ax ay], b as [bx b_y]. simpl.
  destruct (Z.ltb_spec ax bx), (Z.eqb_spec ax bx), (Z.leb_spec ay b_y),
    (Z.ltb_spec bx ax), (Z.eqb_spec bx ax), (Z.leb_spec b_y ay);
    simpl; intros; try reflexivity; try discriminate; lia.
Qed.

Lemma pair_leb_trans a b c :
  pair_leb a b = true -> pair_leb b c = true -> pair_leb a c = true.
Proof.
  unfold pair_leb. destruct a as [ax ay], b as [bx b_y], c as [cx cy]. simpl.
  destruct (Z.ltb_spec ax bx), (Z.eqb_spec ax bx), (Z.leb_spec ay b_y),
    (Z.ltb_spec bx cx), (Z.eqb_spec bx cx), (Z.leb_spec b_y cy),
    (Z.ltb_spec ax cx), (Z.eqb_spec ax cx), (Z.leb_spec ay cy);
    simpl; intros; try reflexivity; try discriminate; lia.
Qed.

Lemma pair_leb_fst a b : pair_leb a b = true -> fst a <= fst b.
Proof.
  unfold pair_leb.
  destruct (Z.ltb_spec (fst a) (fst b)), (Z.eqb_spec (fst a) (fst b));
    simpl; intros; try discriminate; lia.
Qed.

Lemma pair_leb_refl a : pair_leb a a = true.
Proof.
  unfold pair_leb.
  destruct (Z.ltb_spec (fst a) (fst a)), (Z.eqb_spec (fst a) (fst a)),
    (Z.leb_spec (snd a) (snd a)); simpl; try reflexivity; lia.
Qed.

Lemma sorted_points_sorted (l : list (Z * Z)) :
  StronglySorted (fun a b => pair_leb a b = true) (sorted_points l).
Proof.
  apply (sorted_by_sorted pair_leb (fun c => c));
    [apply pair_leb_total|apply pair_leb_trans].
Qed.

(** The first and the last element of a sorted list of at least two
    points: both are read without an [IndexError], both belong to the
    list, and every point of the list lies between them. *)
Lemma sorted_points_ends (l : list (Z * Z)) :
  2 <= len (sorted_points l) ->
  exists lo hi,
    getitem (sorted_points l) 0 = Ok lo
    /\ getitem (sorted_points l) (-1) = Ok hi
    /\ In lo l /\ In hi l
    /\ forall c, In c l -> fst lo <= fst c <= fst hi.
Proof.
  intros Hlen. pose proof (sorted_points_sorted l) as Hs.
  assert (Hin : forall c, In c (sorted_points l) <-> In c l)
    by (intros c; apply In_sorted_by).
  destruct (sorted_points l) as [|lo rest] eqn:E; [unfold len in Hlen; simpl in Hlen; lia|].
  destruct (exists_last (l := lo :: rest) ltac:(discriminate)) as (front & hi & Hfront).
  exists lo, hi. rewrite getitem_first.
  rewrite Hfront at 1. rewrite getitem_last.
  split; [reflexivity|]. split; [reflexivity|].
  split; [apply Hin; now left|].
  split; [apply Hin; rewrite Hfront; apply in_or_app; right; now left|].
  intros c Hc. apply Hin in Hc. split.
  - destruct Hc as [<-|Hc]; [lia|].
    inversion Hs as [|? ? _ Hall]; subst.
    rewrite Forall_forall in Hall. apply pair_leb_fst, Hall.
    now apply list_elem_of_In.
  - rewrite Hfront in Hc, Hs. apply in_app_or in Hc as [Hc|[<-|[]]]; [|lia].
    apply pair_leb_fst.
    apply (StronglySorted_app_1_elem_of _ front [hi] c hi Hs);
      [now apply list_elem_of_In|apply list_elem_of_here].
Qed.

Section Detection.
Context `{cv : OpenCV}.

Lemma collect_corners_returns gray contours acc :
  Forall (fun c => nonempty_rect (boundingRect c)) contours ->
  exists corners, collect_corners gray contours acc = Ok corners.
Proof.
  intros Hcs. revert acc.
  induction Hcs as [|c contours Hc Hcs IH]; intros acc; simpl; [eauto|].
  destruct (Qltb 100 (contourArea c) && Qltb (contourArea c) 2000); [|auto].
  destruct (boundingRect c) as [[[x y] w] h]. simpl in Hc.
  destruct (Z.eqb_spec h 0); [lia|].
  destruct (Qltb (7 # 10) _ && Qltb _ (13 # 10)); [|auto].
  destruct (shape gray) as [height width].
  destruct ((_ || _) && (_ || _)); auto.
Qed.

Lemma fallback_corners_eq gray :
  fallback_corners gray
  = [(50, 50); (snd (shape gray) - 50, 50);
     (snd (shape gray) - 50, fst (shape gray) - 50);
     (50, fst (shape gray) - 50)].
Proof. unfold fallback_corners. now destruct (shape gray). Qed.

(** In the half-plane test of [top_of] and [bottom_of]. *)
Lemma In_top_of gray corners c :
  In c (top_of gray (sorted_points corners))
  <-> In c corners /\ snd c < fst (shape gray) / 2.
Proof.
  unfold top_of, sorted_points. rewrite In_sorted_by, filter_In, In_sorted_by.
  now rewrite Z.ltb_lt.
Qed.

Lemma In_bottom_of gray corners c :
  In c (bottom_of gray (sorted_points corners))
  <-> In c corners /\ fst (shape gray) / 2 <= snd c.
Proof.
  unfold bottom_of, sorted_points. rewrite In_sorted_by, filter_In, In_sorted_by.
  now rewrite Z.leb_le.
Qed.

End Detection.

(** C5. On every image whose contours have proper bounding rectangles,
    [detect_corner_markers] returns, without raising, a list of exactly
    four points. With fewer than four marker candidates, or fewer than two
    of them in the top half or in the bottom half, the four points are the
    fallback corners, 50 pixels inside the image bounds. Otherwise they
    are, in this order, the leftmost and the rightmost candidate of the top
    half, then the rightmost and the leftmost candidate of the bottom
    half: top-left, top-right, bottom-right, bottom-left. *)
Theorem corner_markers_or_fallback `{cv : OpenCV} (self : straightener) :
  proper_contours (threshold_otsu (gray self)) ->
  let height := fst (shape (gray self)) in
  let width := snd (shape (gray self)) in
  exists corners tl tr br bl,
    marker_candidates (gray self) = Ok corners
    /\ detect_corner_markers self = Ok [tl; tr; br; bl]
    /\ (len corners < 4
        \/ len (top_of (gray self) (sorted_points corners)) < 2
        \/ len (bottom_of (gray self) (sorted_points corners)) < 2 ->
        [tl; tr; br; bl]
        = [(50, 50); (width - 50, 50);
           (width - 50, height - 50); (50, height - 50)])
    /\ (4 <= len corners ->
        2 <= len (top_of (gray self) (sorted_points corners)) ->
        2 <= len (bottom_of (gray self) (sorted_points corners)) ->
        (In tl corners /\ In tr corners /\ In br corners /\ In bl corners)
        /\ (snd tl < height / 2 /\ snd tr < height / 2)
        /\ (height / 2 <= snd br /\ height / 2 <= snd bl)
        /\ (forall c, In c corners -> snd c < height / 2 ->
                      fst tl <= fst c <= fst tr)
        /\ (forall c, In c corners -> height / 2 <= snd c ->
                      fst bl <= fst c <= fst br)).
Proof.
  intros Hcs height width.
  destruct (collect_corners_returns (gray self)
              (findContours (threshold_otsu (gray self))) [] Hcs)
    as [corners Hcorners].
  unfold detect_corner_markers, marker_candidates.
  rewrite Hcorners. simpl bind. unfold select_corners.
  set (top := top_of (gray self) (sorted_points corners)).
  set (bottom := bottom_of (gray self) (sorted_points corners)).
  destruct (Z.leb_spec 4 (len corners)) as [H4|H4];
    [destruct (Z.leb_spec 2 (len top)) as [Ht|Ht];
     [destruct (Z.leb_spec 2 (len bottom)) as [Hb|Hb]|]|]; simpl andb; cbv iota.
  - destruct (sorted_points_ends _ Ht) as (tl & tr & Htl & Htr & Itl & Itr & Htop).
    destruct (sorted_points_ends _ Hb) as (bl & br & Hbl & Hbr & Ibl & Ibr & Hbot).
    fold (top_of (gray self) (sorted_points corners)) in Htl, Htr.
    fold (bottom_of (gray self) (sorted_points corners)) in Hbl, Hbr.
    fold top in Htl, Htr. fold bottom in Hbl, Hbr.
    exists corners, tl, tr, br, bl.
    rewrite Htl, Htr, Hbr, Hbl. simpl.
    split; [reflexivity|]. split; [reflexivity|].
    split; [subst top bottom; unfold len in *; lia|].
    intros _ _ _.
    apply filter_In in Itl as [Itl Htl'], Itr as [Itr Htr'],
          Ibl as [Ibl Hbl'], Ibr as [Ibr Hbr'].
    apply In_sorted_by in Itl, Itr, Ibl, Ibr.
    apply Z.ltb_lt in Htl', Htr'. apply Z.leb_le in Hbl', Hbr'.
    repeat split; auto.
    + apply Htop, filter_In. split; [now apply In_sorted_by|now apply Z.ltb_lt].
    + apply Htop, filter_In. split; [now apply In_sorted_by|now apply Z.ltb_lt].
    + apply Hbot, filter_In. split; [now apply In_sorted_by|now apply Z.leb_le].
    + apply Hbot, filter_In. split; [now apply In_sorted_by|now apply Z.leb_le].
  - rewrite fallback_corners_eq. do 5 eexists.
    split; [reflexivity|]. split; [reflexivity|]. split; [reflexivity|].
    subst top bottom; unfold len in *; lia.
  - rewrite fallback_corners_eq. do 5 eexists.
    split; [reflexivity|]. split; [reflexivity|]. split; [reflexivity|].
    subst top bottom; unfold len in *; lia.
  - rewrite fallback_corners_eq. do 5 eexists.
    split; [reflexivity|]. split; [reflexivity|]. split; [reflexivity|].
    subst top bottom; unfold len in *; lia.
Qed.

Lemma corner_markers_or_fallback_witness :
  exists tl tr br bl,
    detect_corner_markers page_straightener = Ok [tl; tr; br; bl].
Proof.
  destruct (corner_markers_or_fallback page_straightener)
    as (corners & tl & tr & br & bl & _ & Hdet & _).
  - unfold proper_contours. simpl findContours. unfold page_contours.
    repeat (constructor; [vm_compute; split; reflexivity|]). constructor.
  - exists tl, tr, br, bl. exact Hdet.
Defined.

End StraightenerFacts.

(** ** The claims about the scan as a whole *)
Module PipelineClaims.
Import Py Scanner PyFacts MappingFacts PipelineFacts Fixtures.

(** C1, as the code has it. The keys of the mapping a scan returns lie in
    1..50, and a question is a key exactly when its block resolves to a
    letter; a question without a filled bubble is left out of the mapping
    (no value "unanswered" is ever stored), and [print_results] shows
    "No answer detected" for it. *)
Theorem scan_keys_are_answered_questions `{cv : OpenCV}
        self image_path debug output_dir m :
  snd (scan_answer_sheet self image_path debug output_dir) = Ok m ->
  forall q,
    (is_Some (m !! q) -> 1 <= q <= 50)
    /\ m !! q <> Some "unanswered"%string
    /\ (m !! q = None -> displayed_answer m q = "No answer detected"%string)
    /\ (forall thresh_img gray_img original_img bubbles,
          preprocess_image image_path
            = Ok (thresh_img, gray_img, original_img) ->
          detect_bubbles thresh_img original_img = Ok bubbles ->
          m !! q = slot_answer (bubble_threshold self)
                     (sorted_rows (organize_bubbles_by_rows bubbles)) q).
Proof.
  intros Hm q. split; [|split; [|split]].
  - intros [v Hv].
    eapply (scan_answer_sheet_entries self image_path debug output_dir), Hv.
    exact Hm.
  - intros Hv.
    destruct (scan_answer_sheet_entries self image_path debug output_dir
                m q _ Hm Hv) as [_ Hc].
    simpl in Hc. intuition discriminate.
  - intros Hnone. unfold displayed_answer. now rewrite Hnone.
  - intros t g o bubbles Hpre Hdet.
    destruct (scan_answer_sheet_result self image_path debug output_dir)
      as [out Hscan].
    rewrite Hscan in Hm. simpl in Hm. injection Hm as <-.
    unfold body_result. rewrite Hpre. simpl. rewrite Hdet. simpl.
    apply map_bubbles_to_questions_lookup.
Qed.

Lemma scan_keys_are_answered_questions_witness :
  snd (scan_answer_sheet (cv := sheet_world) init "sheet.png" false ".")
  = Ok {[1 := "B"%string]}
  /\ 1 <= 1 <= 50.
Proof.
  assert (Hscan : snd (scan_answer_sheet (cv := sheet_world) init "sheet.png"
                         false ".") = Ok {[1 := "B"%string]})
    by (vm_compute; reflexivity).
  split; [exact Hscan|].
  refine (proj1 (scan_keys_are_answered_questions (cv := sheet_world)
                   init "sheet.png" false "." {[1 := "B"%string]} Hscan 1) _).
  exists "B"%string. reflexivity.
Defined.

(** C1 as stated fails. On the row [double_marked_row] the mapping step
    returns the single entry 1 -> A; and the scan of [sheet_pixels] succeeds
    with the single entry 1 -> B. In both cases the other 49 questions are
    not keys of the result. *)
Lemma unanswered_questions_are_omitted :
  map_bubbles_to_questions (6 # 10) (organize_bubbles_by_rows double_marked_row)
  = {[1 := "A"%string]}
  /\ snd (scan_answer_sheet (cv := sheet_world) init "sheet.png" false ".")
     = Ok {[1 := "B"%string]}
  /\ ~ (forall q, 1 <= q <= 50 ->
                  is_Some (({[1 := "A"%string]} : gmap Z string) !! q))
  /\ ~ (forall q, 1 <= q <= 50 ->
                  is_Some (({[1 := "B"%string]} : gmap Z string) !! q)).
Proof.
  split; [vm_compute; reflexivity|].
  split; [vm_compute; reflexivity|].
  split; intros H; destruct (H 26 ltac:(lia)) as [v Hv];
    vm_compute in Hv; discriminate.
Qed.

(** C3, as the code has it. For an unreadable image [preprocess_image]
    raises a [ValueError] that names the path; [scan_answer_sheet] catches
    it, prints one line with the path and the reason, and returns the
    empty mapping to its caller. *)
Theorem unreadable_image_gives_empty_mapping `{cv : OpenCV}
        self image_path debug output_dir :
  imread image_path = None ->
  preprocess_image image_path
  = Raise (ValueError ("Could not load image from " +:+ image_path))
  /\ scan_answer_sheet self image_path debug output_dir
     = (self,
        [Print ("Error scanning answer sheet: Could not load image from "
                +:+ image_path)],
        Ok ∅).
Proof.
  intros Hread.
  assert (Hpre : preprocess_image image_path
                 = Raise (ValueError ("Could not load image from "
                                      +:+ image_path))).
  { unfold preprocess_image. now rewrite Hread. }
  split; [exact Hpre|].
  unfold scan_answer_sheet, scan_body. now rewrite Hpre.
Qed.

Lemma unreadable_image_gives_empty_mapping_witness :
  scan_answer_sheet (cv := sheet_world) init "missing.png" true "out"
  = (init,
     [Print "Error scanning answer sheet: Could not load image from missing.png"],
     Ok ∅).
Proof.
  refine (proj2 (unreadable_image_gives_empty_mapping (cv := sheet_world)
                   init "missing.png" true "out" _)).
  reflexivity.
Defined.

(** C3 as stated fails: with an unreadable image the scan does not fail,
    no exception reaches the caller. *)
Lemma unreadable_image_is_not_fatal :
  ~ (forall image_path,
        imread (OpenCV := sheet_world) image_path = None ->
        exists e,
          snd (scan_answer_sheet (cv := sheet_world) init image_path false ".")
          = Raise e).
Proof.
  intros H. destruct (H "missing.png"%string) as [e He]; [reflexivity|].
  vm_compute in He. discriminate.
Qed.

End PipelineClaims.


(** * Further properties of the modelled code *)

(** ** Row clustering: what [organize_bubbles_by_rows] returns *)
Module RowExtras.
Import Py Scanner PyFacts RowFacts Fixtures.

Lemma rows_append_concat (rows : rows_dict) k b :
  Permutation (concat (map snd (rows_append rows k b)))
              (b :: concat (map snd rows)).
Proof.
  induction rows as [|[k0 r0] rows IH]; simpl; [reflexivity|].
  destruct (k0 =? k); simpl.
  - rewrite <- app_assoc. simpl. symmetry. apply Permutation_middle.
  - rewrite IH. symmetry. apply Permutation_middle.
Qed.

Lemma walk_concat bubbles (rows : rows_dict) cr ly :
  Permutation (concat (map snd (fst (fst (walk bubbles rows cr ly)))))
              (concat (map snd rows) ++ bubbles).
Proof.
  revert rows cr ly. induction bubbles as [|b rest IH]; intros rows cr ly.
  - simpl. now rewrite app_nil_r.
  - rewrite walk_cons.
    destruct (tolerance <? Z.abs (center_y b - ly));
      rewrite IH, rows_append_concat; simpl; apply Permutation_middle.
Qed.

Lemma concat_sorted_rows (rows : rows_dict) :
  Permutation
    (concat (map snd (map (fun kr => (fst kr, sort_by_x (snd kr))) rows)))
    (concat (map snd rows)).
Proof.
  induction rows as [|[k r] rows IH]; simpl; [reflexivity|].
  apply Permutation_app; [apply sorted_by_perm|exact IH].
Qed.

Lemma organize_concat (bubbles : list bubble) :
  Permutation (concat (map snd (organize_bubbles_by_rows bubbles))) bubbles.
Proof.
  unfold organize_bubbles_by_rows. destruct bubbles as [|x l]; [reflexivity|].
  set (s := sort_by_y (x :: l)).
  pose proof (walk_concat s [] 0
                (match s with b0 :: _ => center_y b0 | [] => 0 end)) as H.
  destruct (walk s [] 0 _) as [[rows cr] ly]. simpl in H.
  rewrite concat_sorted_rows, H. apply sorted_by_perm.
Qed.

(** X1. The rows together hold exactly the candidates that were passed in:
    none is lost, none is duplicated, whatever their positions. *)
Theorem organize_keeps_every_candidate (bubbles : list bubble) :
  Permutation (concat (map snd (organize_bubbles_by_rows bubbles))) bubbles
  /\ forall b, In b bubbles <->
               exists k row,
                 In (k, row) (organize_bubbles_by_rows bubbles) /\ In b row.
Proof.
  pose proof (organize_concat bubbles) as Hperm.
  split; [exact Hperm|]. intros b. split.
  - intros Hb. apply (Permutation_in _ (Permutation_sym Hperm)) in Hb.
    apply in_concat in Hb as (row & Hrow & Hb).
    apply in_map_iff in Hrow as ([k row'] & <- & Hin). eauto.
  - intros (k & row & Hin & Hb). apply (Permutation_in _ Hperm).
    apply in_concat. exists row. split; [|exact Hb].
    apply in_map_iff. exists (k, row). auto.
Qed.

Lemma rows_append_keys_old (rows : rows_dict) k b :
  In k (map fst rows) -> map fst (rows_append rows k b) = map fst rows.
Proof.
  induction rows as [|[k0 r0] rows IH]; simpl; [intros []|].
  destruct (Z.eqb_spec k0 k); [reflexivity|].
  intros [E|Hin]; [congruence|]. simpl. now rewrite IH.
Qed.

Lemma rows_append_keys_new (rows : rows_dict) k b :
  ~ In k (map fst rows) ->
  map fst (rows_append rows k b) = map fst rows ++ [k].
Proof.
  induction rows as [|[k0 r0] rows IH]; simpl; [reflexivity|].
  intros Hk. destruct (Z.eqb_spec k0 k); [tauto|].
  simpl. rewrite IH; tauto.
Qed.

(** The keys are created in the order 0, 1, 2, ... *)
Lemma walk_keys bubbles (rows : rows_dict) cr ly :
  0 <= cr -> map fst rows = seqZ 0 (cr + 1) ->
  let st := walk bubbles rows cr ly in
  map fst (fst (fst st)) = seqZ 0 (snd (fst st) + 1) /\ 0 <= snd (fst st).
Proof.
  revert rows cr ly. induction bubbles as [|b rest IH]; intros rows cr ly Hcr Hk.
  - simpl. auto.
  - rewrite walk_cons. destruct (tolerance <? Z.abs (center_y b - ly)).
    + apply IH; [lia|]. rewrite rows_append_keys_new.
      * rewrite Hk. replace (cr + 1 + 1) with ((cr + 1) + 1) by lia.
        rewrite (seqZ_app 0 (cr + 1) 1) by lia.
        f_equal.
      * rewrite Hk, <- list_elem_of_In, elem_of_seqZ. lia.
    + apply IH; [lia|]. rewrite rows_append_keys_old; [exact Hk|].
      rewrite Hk, <- list_elem_of_In, elem_of_seqZ. lia.
Qed.

(** The shape of the result for a non-empty input. *)
Lemma organize_structure bubbles b0 rest :
  sort_by_y bubbles = b0 :: rest ->
  exists (rows : rows_dict) cr ly,
    organize_bubbles_by_rows bubbles
    = map (fun kr => (fst kr, sort_by_x (snd kr))) rows
    /\ walk_inv rows cr ly
    /\ map fst rows = seqZ 0 (cr + 1) /\ 0 <= cr
    /\ Forall (fun kr => snd kr <> []) rows.
Proof.
  intros Es. rewrite (organize_bubbles_by_rows_eq bubbles b0 rest Es).
  pose proof (sort_by_y_ascending bubbles) as Hsorted. rewrite Es in Hsorted.
  apply StronglySorted_inv in Hsorted as [Hs Hb0].
  destruct (walk_inv_run rest _ _ _ (walk_inv_first b0) (conj Hs Hb0))
    as (rows & cr & ly & Hwalk & Hinv & _).
  pose proof (walk_keys rest [(0, [b0])] 0 (center_y b0)
                ltac:(lia) eq_refl) as [Hk Hcr].
  pose proof (walk_nonempty rest [(0, [b0])] 0 (center_y b0)) as Hne.
  rewrite Hwalk in Hk, Hcr, Hne |- *. simpl in Hk, Hcr, Hne |- *.
  exists rows, cr, ly. repeat (split; [assumption || reflexivity|]).
  apply Hne. repeat constructor. discriminate.
Qed.

Lemma sort_by_y_nil bubbles : sort_by_y bubbles = [] -> bubbles = [].
Proof.
  intros E. destruct bubbles as [|x l]; [reflexivity|].
  assert (H : In x (sort_by_y (x :: l))) by (apply In_sorted_by; now left).
  rewrite E in H. destruct H.
Qed.

Lemma organize_keys (bubbles : list bubble) :
  map fst (organize_bubbles_by_rows bubbles)
  = seqZ 0 (len (organize_bubbles_by_rows bubbles)).
Proof.
  destruct (sort_by_y bubbles) as [|b0 rest] eqn:Es.
  - apply sort_by_y_nil in Es. now subst.
  - destruct (organize_structure bubbles b0 rest Es)
      as (rows & cr & ly & -> & _ & Hk & Hcr & _).
    rewrite map_map. simpl. change (map (fun x => fst x) rows) with (map fst rows).
    rewrite Hk. f_equal. unfold len. rewrite length_map.
    rewrite <- (length_map fst rows), Hk, length_seqZ. lia.
Qed.

(** X2. The row indices are 0, 1, ..., n-1, in this order; no row is empty;
    and there is a row exactly when there is a candidate. *)
Theorem organize_row_indices (bubbles : list bubble) :
  let rows := organize_bubbles_by_rows bubbles in
  map fst rows = seqZ 0 (len rows)
  /\ Forall (fun kr => snd kr <> []) rows
  /\ (rows = [] <-> bubbles = []).
Proof.
  intros rows. subst rows.
  split; [apply organize_keys|].
  split; [apply organize_bubbles_by_rows_nonempty|].
  split; [|intros ->; reflexivity].
  destruct bubbles as [|x l]; [reflexivity|]. intros E. exfalso.
  pose proof (organize_concat (x :: l)) as H.
  rewrite E in H. simpl in H. now apply Permutation_nil in H.
Qed.

(** While no candidate is farther than the tolerance from [last_y], the
    loop keeps filling row 0. *)
Lemma walk_single_row bubbles (r : list bubble) ly :
  Forall (fun b => Z.abs (center_y b - ly) <= tolerance) bubbles ->
  walk bubbles [(0, r)] 0 ly = ([(0, r ++ bubbles)], 0, ly).
Proof.
  revert r. induction bubbles as [|b rest IH]; intros r Hall.
  - now rewrite app_nil_r.
  - apply Forall_cons in Hall as [Hb Hall]. rewrite walk_cons.
    destruct (Z.ltb_spec tolerance (Z.abs (center_y b - ly))); [lia|].
    simpl rows_append. rewrite IH by exact Hall.
    now rewrite <- app_assoc.
Qed.

(** X3. Candidates that all lie within the tolerance of each other form the
    single row 0, which holds all of them from left to right. *)
Theorem organize_single_row (bubbles : list bubble) :
  bubbles <> [] ->
  (forall a b, In a bubbles -> In b bubbles ->
               Z.abs (center_y b - center_y a) <= tolerance) ->
  organize_bubbles_by_rows bubbles = [(0, sort_by_x (sort_by_y bubbles))].
Proof.
  intros Hne Hnear.
  destruct (sort_by_y bubbles) as [|b0 rest] eqn:Es.
  { now apply sort_by_y_nil in Es. }
  rewrite (organize_bubbles_by_rows_eq bubbles b0 rest Es).
  assert (Hin : forall b, In b (b0 :: rest) -> In b bubbles).
  { intros b Hb. rewrite <- Es in Hb. now apply In_sorted_by in Hb. }
  rewrite walk_single_row; [reflexivity|].
  rewrite Forall_forall. intros b Hb. apply list_elem_of_In in Hb.
  apply Hnear; apply Hin; [now left|now right].
Qed.

Lemma organize_single_row_witness :
  organize_bubbles_by_rows [mk 30 12 0; mk 10 0 0]
  = [(0, [mk 10 0 0; mk 30 12 0])].
Proof.
  rewrite organize_single_row; [reflexivity|discriminate|].
  intros a b [<-|[<-|[]]] [<-|[<-|[]]]; vm_compute; discriminate.
Defined.

(** Sorting a list whose keys already ascend leaves it as it is. *)
Lemma sorted_by_ascending {A K} (leb : K -> K -> bool) (key : A -> K)
      (l : list A) :
  Sorted (fun a b => leb (key a) (key b) = true) l -> sorted_by leb key l = l.
Proof.
  induction 1 as [|x l Hs IH Hhd]; simpl; [reflexivity|].
  rewrite IH. destruct Hhd as [|y l' Hxy]; simpl; [reflexivity|].
  now rewrite Hxy.
Qed.

Lemma sum_Z_lower (l : list Z) (a : Z) :
  (forall b, In b l -> a < b) -> (a + 1) * len l <= sum_Z l.
Proof.
  unfold len. induction l as [|b l IH]; intros H; simpl; [lia|].
  pose proof (H b ltac:(now left)).
  pose proof (IH ltac:(intros c Hc; apply H; now right)).
  rewrite Nat2Z.inj_succ. lia.
Qed.

Lemma sum_Z_cross (l1 l2 : list Z) :
  (forall a b, In a l1 -> In b l2 -> a < b) ->
  sum_Z l1 * len l2 + len l1 * len l2 <= sum_Z l2 * len l1.
Proof.
  unfold len. induction l1 as [|a l1 IH]; intros H; simpl; [lia|].
  pose proof (sum_Z_lower l2 a ltac:(intros b Hb; apply H; [now left|exact Hb])) as Ha.
  pose proof (IH ltac:(intros c b Hc Hb; apply H; [now right|exact Hb])) as Hrec.
  unfold len in Ha. rewrite Nat2Z.inj_succ. lia.
Qed.

(** The mean of a list that lies wholly below another list is smaller. *)
Lemma mean_lt (l1 l2 : list Z) :
  l1 <> [] -> l2 <> [] ->
  (forall a b, In a l1 -> In b l2 -> a < b) ->
  (mean l1 < mean l2)%Q.
Proof.
  intros H1 H2 Hlt. pose proof (sum_Z_cross l1 l2 Hlt) as Hc.
  assert (Hn1 : 0 < len l1) by (unfold len; destruct l1; simpl; [congruence|lia]).
  assert (Hn2 : 0 < len l2) by (unfold len; destruct l2; simpl; [congruence|lia]).
  unfold mean, Qlt, Qdiv, Qmult, Qinv. simpl.
  destruct (len l1) as [|p1|p1] eqn:E1; try lia.
  destruct (len l2) as [|p2|p2] eqn:E2; try lia.
  simpl. nia.
Qed.

Lemma keys_ascending (rows : rows_dict) m n :
  map fst rows = seqZ m n ->
  StronglySorted (fun a b => fst a < fst b) rows.
Proof.
  revert m n. induction rows as [|r rows IH]; intros m n Hk; [constructor|].
  simpl in Hk. destruct (Z.le_gt_cases n 0) as [Hn|Hn].
  { rewrite seqZ_nil in Hk by exact Hn. discriminate. }
  rewrite seqZ_cons in Hk by lia. injection Hk as Hr Hk.
  constructor; [eapply IH, Hk|].
  rewrite Forall_forall. intros r' Hr'.
  assert (Hin : fst r' ∈ seqZ (Z.succ m) (Z.pred n)).
  { rewrite <- Hk. apply list_elem_of_In, in_map, list_elem_of_In, Hr'. }
  apply elem_of_seqZ in Hin. lia.
Qed.

Lemma rows_mean_sorted (rows : rows_dict) :
  StronglySorted (fun a b => fst a < fst b) rows ->
  (forall k1 k2 a1 a2, in_row rows k1 a1 -> in_row rows k2 a2 -> k1 < k2 ->
                       center_y a1 < center_y a2) ->
  Forall (fun kr => snd kr <> []) rows ->
  Sorted (fun r1 r2 => Qle_bool (mean (map center_y (snd r1)))
                                (mean (map center_y (snd r2))) = true)
         (map (fun kr => (fst kr, sort_by_x (snd kr))) rows).
Proof.
  induction 1 as [|r rows Hs IH Hr]; intros Hord Hne; simpl; [constructor|].
  apply Forall_cons in Hne as [Hr_ne Hne].
  constructor.
  - apply IH; [|exact Hne]. intros k1 k2 a1 a2 (r1 & H1 & Ha1) (r2 & H2 & Ha2).
    apply Hord; [exists r1|exists r2]; split; auto; now right.
  - destruct rows as [|r2 rows]; simpl; constructor. simpl.
    apply Forall_cons in Hr as [Hlt _]. apply Forall_cons in Hne as [Hr2_ne _].
    apply Qle_bool_iff, Qlt_le_weak, mean_lt.
    + intros E. apply Hr_ne. apply map_eq_nil in E.
      pose proof (len_sorted_by Z.leb center_x (snd r)) as Hl.
      unfold sort_by_x in E. rewrite E in Hl. unfold len in Hl.
      destruct (snd r); [reflexivity|simpl in Hl; lia].
    + intros E. apply Hr2_ne. apply map_eq_nil in E.
      pose proof (len_sorted_by Z.leb center_x (snd r2)) as Hl.
      unfold sort_by_x in E. rewrite E in Hl. unfold len in Hl.
      destruct (snd r2); [reflexivity|simpl in Hl; lia].
    + intros y1 y2 H1 H2.
      apply in_map_iff in H1 as (a1 & <- & H1).
      apply in_map_iff in H2 as (a2 & <- & H2).
      apply In_sorted_by in H1, H2.
      apply (Hord (fst r) (fst r2)); [| |exact Hlt].
      * exists (snd r). split; [left; now destruct r|exact H1].
      * exists (snd r2). split; [right; left; now destruct r2|exact H2].
Qed.

(** The rows leave the clustering in the order of their mean y. *)
Lemma organize_mean_sorted (bubbles : list bubble) :
  sorted_rows (organize_bubbles_by_rows bubbles)
  = organize_bubbles_by_rows bubbles.
Proof.
  destruct (sort_by_y bubbles) as [|b0 rest] eqn:Es.
  { apply sort_by_y_nil in Es. now subst. }
  destruct (organize_structure bubbles b0 rest Es)
    as (rows & cr & ly & -> & Hinv & Hk & Hcr & Hne').
  unfold sorted_rows. apply sorted_by_ascending.
  apply rows_mean_sorted; [eapply keys_ascending, Hk| |exact Hne'].
  apply (inv_order _ _ _ Hinv).
Qed.

(** X4. Clustering and mapping fit together: the rows come out of the
    clustering already in the order of their mean y, so the sort at the
    start of [map_bubbles_to_questions] changes nothing, the position of a
    row is its index, and the row with index [k] answers question [k + 1]
    (left block) and question [k + 26] (right block). *)
Theorem mean_sort_keeps_clustered_rows (bubbles : list bubble) :
  let rows := organize_bubbles_by_rows bubbles in
  sorted_rows rows = rows
  /\ (forall (i : nat) row, rows !! i = Some row -> fst row = Z.of_nat i)
  /\ (forall th k row col,
        In (k, row) rows ->
        k + first_question col <= last_question col ->
        map_bubbles_to_questions th rows !! (k + first_question col)
        = row_letter th (side_of col) (k, row)).
Proof.
  intros rows. subst rows.
  pose proof (organize_keys bubbles) as Hkeys.
  pose proof (organize_mean_sorted bubbles) as Hsorted.
  assert (Hidx : forall (i : nat) row,
             organize_bubbles_by_rows bubbles !! i = Some row ->
             fst row = Z.of_nat i).
  { intros i row Hi.
    assert (Hfst : map fst (organize_bubbles_by_rows bubbles) !! i
                   = Some (fst row)).
    { change (map fst ?l) with (fst <$> l). now rewrite list_lookup_fmap, Hi. }
    rewrite Hkeys in Hfst. apply lookup_seqZ in Hfst. lia. }
  split; [exact Hsorted|]. split; [exact Hidx|].
  intros th k row col Hin Hq.
  apply list_elem_of_In, list_elem_of_lookup in Hin as [i Hi].
  pose proof (Hidx i _ Hi) as Hk. simpl in Hk. subst k.
  apply MappingFacts.answer_of_row; [|exact Hq]. now rewrite Hsorted.
Qed.

(** X5. The rows can be read like a page: every candidate of a row lies
    strictly above every candidate of a row with a greater index, and within
    a row the candidates come from left to right. *)
Theorem rows_read_like_a_page (bubbles : list bubble) :
  let rows := organize_bubbles_by_rows bubbles in
  (forall k1 k2 r1 r2 a1 a2,
      In (k1, r1) rows -> In (k2, r2) rows -> k1 < k2 ->
      In a1 r1 -> In a2 r2 -> center_y a1 < center_y a2)
  /\ (forall k row,
        In (k, row) rows ->
        StronglySorted (fun a b => center_x a <= center_x b) row).
Proof.
  intros rows. subst rows.
  destruct (sort_by_y bubbles) as [|b0 rest] eqn:Es.
  { apply sort_by_y_nil in Es. subst. split; [intros ? ? ? ? ? ? []|intros ? ? []]. }
  destruct (organize_structure bubbles b0 rest Es)
    as (rows & cr & ly & -> & Hinv & _).
  split.
  - intros k1 k2 r1 r2 a1 a2 H1 H2 Hlt Ha1 Ha2.
    apply In_sorted_rows in H1 as (r1' & H1 & ->), H2 as (r2' & H2 & ->).
    apply In_sorted_by in Ha1, Ha2.
    apply (inv_order _ _ _ Hinv k1 k2); [exists r1'|exists r2'|]; auto.
  - intros k row Hrow. apply In_sorted_rows in Hrow as (row' & _ & ->).
    unfold sort_by_x.
    eapply StronglySorted_weaken; [|apply (sorted_by_sorted Z.leb center_x)].
    + intros a b H. now apply Z.leb_le.
    + intros a b H. apply Z.leb_le. apply Z.leb_gt in H. lia.
    + intros a b c H1 H2. apply Z.leb_le in H1, H2. apply Z.leb_le. lia.
Qed.

End RowExtras.

(** ** The question mapping: thresholds, row counts, the split at the mean *)
Module MappingExtras.
Import Py Scanner PyFacts MappingFacts Fixtures MoreFixtures.

Lemma is_filled_mono th1 th2 b :
  (th1 <= th2)%Q -> is_filled th2 b = true -> is_filled th1 b = true.
Proof.
  rewrite !is_filled_lt. intros Hle Hlt. eapply Qle_lt_trans; eassumption.
Qed.

Lemma first_letter_is_Some th (l : list bubble) (i0 : Z) :
  is_Some (first_letter th (enumerate_from i0 l))
  <-> exists b, In b l /\ is_filled th b = true.
Proof.
  revert i0. induction l as [|x l IH]; intros i0; simpl.
  - split; [intros [c Hc]; discriminate|intros (b & [] & _)].
  - destruct (is_filled th x) eqn:E.
    + split; [intros _; exists x; auto|eauto].
    + rewrite IH. split.
      * intros (b & Hb & Hf). eauto.
      * intros (b & [<-|Hb] & Hf); [congruence|eauto].
Qed.

Lemma row_letter_mono th1 th2 col row :
  (th1 <= th2)%Q ->
  is_Some (row_letter th2 (side_of col) row) ->
  is_Some (row_letter th1 (side_of col) row).
Proof.
  unfold row_letter, side_letter. intros Hle.
  destruct (len (snd row) <? 4); [auto|].
  destruct (4 <=? len (side_of col (snd row))); [|auto].
  rewrite !first_letter_is_Some. intros (b & Hb & Hf).
  exists b. split; [exact Hb|]. eapply is_filled_mono; eassumption.
Qed.

(** X6. Raising the threshold never adds an answered question: every question
    answered at the higher threshold is answered at the lower one. *)
Theorem higher_threshold_answers_fewer th1 th2 (organized_bubbles : rows_dict) q :
  (th1 <= th2)%Q ->
  is_Some (map_bubbles_to_questions th2 organized_bubbles !! q) ->
  is_Some (map_bubbles_to_questions th1 organized_bubbles !! q).
Proof.
  intros Hle. rewrite !map_bubbles_to_questions_lookup. unfold slot_answer.
  destruct ((1 <=? q) && (q <=? 25)).
  - destruct (sorted_rows organized_bubbles !! Z.to_nat (q - 1)) as [row|];
      simpl; [|auto].
    apply (row_letter_mono th1 th2 LeftColumn row Hle).
  - destruct ((26 <=? q) && (q <=? 50)); [|auto].
    destruct (sorted_rows organized_bubbles !! Z.to_nat (q - 26)) as [row|];
      simpl; [|auto].
    apply (row_letter_mono th1 th2 RightColumn row Hle).
Qed.

Lemma higher_threshold_answers_fewer_witness :
  is_Some (map_bubbles_to_questions (5 # 10) [(0, double_marked_row)] !! 1).
Proof.
  apply (higher_threshold_answers_fewer (5 # 10) (6 # 10)).
  - vm_compute. discriminate.
  - exists "A"%string. vm_compute. reflexivity.
Defined.

Lemma slot_answer_take th (rows : rows_dict) q :
  slot_answer th (firstn 25 rows) q = slot_answer th rows q.
Proof.
  unfold slot_answer.
  destruct (Z.leb_spec 1 q), (Z.leb_spec q 25); simpl;
    try (rewrite lookup_take_lt by lia; reflexivity);
    destruct (Z.leb_spec 26 q), (Z.leb_spec q 50); simpl;
    try reflexivity; try lia.
  rewrite lookup_take_lt by lia. reflexivity.
Qed.

(** X7. Only the 25 topmost rows are read: what lies below the 25th row has no
    influence on the mapping. *)
Theorem rows_below_the_25th_are_ignored th (organized_bubbles : rows_dict) :
  map_bubbles_to_questions th organized_bubbles
  = process_rows th
      (enumerate_from 0 (firstn 25 (sorted_rows organized_bubbles))) ∅.
Proof.
  apply map_eq. intros q. rewrite map_bubbles_to_questions_lookup.
  rewrite (process_rows_lookup th (firstn 25 (sorted_rows organized_bubbles)) []).
  - simpl. now rewrite slot_answer_take.
  - intros q'. rewrite lookup_empty. unfold slot_answer.
    destruct ((1 <=? q') && (q' <=? 25)); [reflexivity|].
    now destruct ((26 <=? q') && (q' <=? 50)).
Qed.

(** The two blocks of a row share its bubbles out. *)
Lemma left_right_length (row : list bubble) :
  len (left_of row) + len (right_of row) = len row.
Proof.
  unfold left_of, right_of, len, Qltb.
  generalize (mean (map center_x row)) as avg. intros avg.
  induction row as [|b row IH]; simpl; [reflexivity|].
  destruct (Qle_bool avg (inject_Z (center_x b))); simpl; lia.
Qed.

(** X8. A row with fewer than eight bubbles answers at most one of its two
    questions. *)
Theorem short_row_answers_one_question_at_most
        th (organized_bubbles : rows_dict) (i : nat) row :
  sorted_rows organized_bubbles !! i = Some row ->
  (i < 25)%nat ->
  len (snd row) < 8 ->
  map_bubbles_to_questions th organized_bubbles !! (Z.of_nat i + 1) = None
  \/ map_bubbles_to_questions th organized_bubbles !! (Z.of_nat i + 26) = None.
Proof.
  intros Hrow Hi Hlen.
  pose proof (answer_of_row th _ i row LeftColumn Hrow) as HL.
  pose proof (answer_of_row th _ i row RightColumn Hrow) as HR.
  simpl in HL, HR. rewrite HL, HR by lia.
  unfold row_letter, side_letter.
  destruct (len (snd row) <? 4); [now left|].
  pose proof (left_right_length (snd row)).
  destruct (Z.leb_spec 4 (len (left_of (snd row)))); [|now left].
  destruct (Z.leb_spec 4 (len (right_of (snd row)))); [lia|now right].
Qed.

Lemma short_row_answers_one_question_at_most_witness :
  map_bubbles_to_questions (6 # 10) [(0, lopsided_row)] !! 1 = None
  \/ map_bubbles_to_questions (6 # 10) [(0, lopsided_row)] !! 26 = None.
Proof.
  apply (short_row_answers_one_question_at_most (6 # 10) [(0, lopsided_row)]
           0 (0, lopsided_row)).
  - reflexivity.
  - lia.
  - vm_compute. reflexivity.
Defined.

Lemma lt_mean_iff (x : Z) (l : list Z) :
  l <> [] -> (inject_Z x < mean l)%Q <-> x * len l < sum_Z l.
Proof.
  intros Hne.
  assert (Hn : 0 < len l) by (unfold len; destruct l; simpl; [congruence|lia]).
  unfold mean, Qlt, Qdiv, Qmult, Qinv. simpl.
  destruct (len l) as [|p|p] eqn:E; try lia.
  simpl. rewrite Z.mul_1_r. rewrite Z.mul_1_r. reflexivity.
Qed.

Lemma Qltb_lt (a b : Q) : Qltb a b = true <-> (a < b)%Q.
Proof.
  unfold Qltb. rewrite negb_true_iff, <- not_true_iff_false, Qle_bool_iff.
  split; [apply Qnot_le_lt|apply Qlt_not_le].
Qed.

Lemma In_left_of (row : list bubble) b :
  In b (left_of row) <->
  In b row /\ (inject_Z (center_x b) < mean (map center_x row))%Q.
Proof. unfold left_of. now rewrite filter_In, Qltb_lt. Qed.

Lemma In_right_of (row : list bubble) b :
  In b (right_of row) <->
  In b row /\ ~ (inject_Z (center_x b) < mean (map center_x row))%Q.
Proof.
  unfold right_of. rewrite filter_In, Qle_bool_iff.
  split; intros [Hb H]; (split; [exact Hb|]).
  - now apply Qle_not_lt.
  - now apply Qnot_lt_le.
Qed.

Lemma sum_Z_ge (l : list Z) (c : Z) :
  (forall x, In x l -> c <= x) -> c * len l <= sum_Z l.
Proof.
  unfold len. induction l as [|x l IH]; intros H; simpl; [lia|].
  pose proof (H x ltac:(now left)).
  pose proof (IH ltac:(intros y Hy; apply H; now right)).
  rewrite Nat2Z.inj_succ. lia.
Qed.

Lemma sum_Z_tight (l : list Z) (c : Z) :
  (forall x, In x l -> c <= x) -> sum_Z l = c * len l ->
  forall x, In x l -> x = c.
Proof.
  unfold len. induction l as [|y l IH]; intros H Hsum x Hx; [destruct Hx|].
  simpl in Hsum. rewrite Nat2Z.inj_succ in Hsum.
  pose proof (H y ltac:(now left)).
  pose proof (sum_Z_ge l c ltac:(intros z Hz; apply H; now right)) as Hge.
  unfold len in Hge.
  destruct Hx as [<-|Hx]; [lia|].
  apply IH; [intros z Hz; apply H; now right|lia|exact Hx].
Qed.

Lemma sum_Z_scale (l : list Z) (n : Z) :
  sum_Z (map (fun x => x * n) l) = sum_Z l * n.
Proof. induction l as [|x l IH]; simpl; [reflexivity|]. rewrite IH. lia. Qed.

Lemma sum_Z_le (l : list Z) (c : Z) :
  (forall x, In x l -> x <= c) -> sum_Z l <= c * len l.
Proof.
  unfold len. induction l as [|x l IH]; intros H; simpl; [lia|].
  pose proof (H x ltac:(now left)).
  pose proof (IH ltac:(intros y Hy; apply H; now right)).
  rewrite Nat2Z.inj_succ. lia.
Qed.

Lemma same_x_or_not (row : list bubble) (c : Z) :
  (forall b, In b row -> center_x b = c)
  \/ (exists b, In b row /\ center_x b <> c).
Proof.
  induction row as [|b row [IH|(b' & Hb' & Hne)]].
  - left. intros b [].
  - destruct (Z.eq_dec (center_x b) c) as [E|E].
    + left. intros b' [<-|Hb']; auto.
    + right. exists b. split; [now left|exact E].
  - right. exists b'. split; [now right|exact Hne].
Qed.

(** In Z: a bubble is left of the mean when [x * n < sum]. *)
Lemma left_of_iff (row : list bubble) b :
  In b (left_of row) <->
  In b row
  /\ center_x b * len (map center_x row) < sum_Z (map center_x row).
Proof.
  rewrite In_left_of. split; intros [Hb H]; (split; [exact Hb|]).
  - apply lt_mean_iff in H; [exact H|]. destruct row; [destruct Hb|discriminate].
  - apply lt_mean_iff; [destruct row; [destruct Hb|discriminate]|exact H].
Qed.

Lemma right_of_iff (row : list bubble) b :
  In b (right_of row) <->
  In b row
  /\ sum_Z (map center_x row) <= center_x b * len (map center_x row).
Proof.
  rewrite In_right_of. split; intros [Hb H]; (split; [exact Hb|]).
  - destruct (Z.le_gt_cases (sum_Z (map center_x row))
                (center_x b * len (map center_x row))) as [Hle|Hgt];
      [exact Hle|].
    exfalso. apply H, lt_mean_iff; [destruct row; [destruct Hb|discriminate]|lia].
  - intros Hlt. apply lt_mean_iff in Hlt;
      [lia|destruct row; [destruct Hb|discriminate]].
Qed.

Lemma right_of_nonempty (row : list bubble) : row <> [] -> right_of row <> [].
Proof.
  intros Hne Hright.
  set (xs := map center_x row).
  assert (Hn : 0 < len xs)
    by (unfold len, xs; destruct row; simpl; [congruence|lia]).
  assert (Hall : forall y, In y (map (fun x => x * len xs) xs) ->
                           y <= sum_Z xs - 1).
  { intros y Hy. apply in_map_iff in Hy as (x & <- & Hx).
    apply in_map_iff in Hx as (b & <- & Hb).
    destruct (Z.le_gt_cases (sum_Z xs) (center_x b * len xs)) as [Hle|Hgt];
      [|lia].
    exfalso. assert (Hin : In b (right_of row)) by (apply right_of_iff; auto).
    rewrite Hright in Hin. destruct Hin. }
  apply sum_Z_le in Hall. rewrite sum_Z_scale in Hall.
  unfold len in Hall, Hn. rewrite length_map in Hall. nia.
Qed.

Lemma left_of_nonempty_iff (row : list bubble) :
  left_of row <> [] <->
  exists a b, In a row /\ In b row /\ center_x a <> center_x b.
Proof.
  set (xs := map center_x row).
  split.
  - intros Hleft. destruct (left_of row) as [|a l] eqn:E; [congruence|].
    assert (Ha : In a (left_of row)) by (rewrite E; now left).
    apply left_of_iff in Ha as [Ha Hlt]. fold xs in Hlt.
    destruct (same_x_or_not row (center_x a)) as [Hsame|(b & Hb & Hne)].
    + exfalso.
      assert (Hge : center_x a * len xs <= sum_Z xs).
      { apply sum_Z_ge. intros x Hx. apply in_map_iff in Hx as (b & <- & Hb).
        rewrite (Hsame b Hb). lia. }
      assert (Hle : sum_Z xs <= center_x a * len xs).
      { apply sum_Z_le. intros x Hx. apply in_map_iff in Hx as (b & <- & Hb).
        rewrite (Hsame b Hb). lia. }
      lia.
    + exists a, b. auto.
  - intros (a & b & Ha & Hb & Hne) Hleft.
    assert (Hn : 0 < len xs)
      by (unfold len, xs; destruct row; simpl; [destruct Ha|lia]).
    assert (Hall : forall y, In y (map (fun x => x * len xs) xs) ->
                             sum_Z xs <= y).
    { intros y Hy. apply in_map_iff in Hy as (x & <- & Hx).
      apply in_map_iff in Hx as (c & <- & Hc).
      destruct (Z.le_gt_cases (sum_Z xs) (center_x c * len xs)) as [Hle|Hgt];
        [exact Hle|].
      exfalso. assert (Hin : In c (left_of row)).
      { apply left_of_iff. split; [exact Hc|]. fold xs. lia. }
      rewrite Hleft in Hin. destruct Hin. }
    assert (Hsum : sum_Z (map (fun x => x * len xs) xs)
                   = sum_Z xs * len (map (fun x => x * len xs) xs)).
    { rewrite sum_Z_scale. unfold len. now rewrite length_map. }
    pose proof (sum_Z_tight _ _ Hall Hsum) as Htight.
    assert (Ea : center_x a * len xs = sum_Z xs).
    { apply Htight, in_map_iff. exists (center_x a).
      split; [reflexivity|now apply in_map]. }
    assert (Eb : center_x b * len xs = sum_Z xs).
    { apply Htight, in_map_iff. exists (center_x b).
      split; [reflexivity|now apply in_map]. }
    apply Hne. nia.
Qed.

(** X9. The split at the mean x: the right block of a row is never empty, and
    the left block is empty exactly when all bubbles of the row have the
    same x. *)
Theorem mean_split_sides (row : list bubble) :
  row <> [] ->
  right_of row <> []
  /\ (left_of row = [] <-> forall a b, In a row -> In b row ->
                                        center_x a = center_x b).
Proof.
  intros Hne. split; [now apply right_of_nonempty|].
  pose proof (left_of_nonempty_iff row) as Hiff. split.
  - intros Hleft a b Ha Hb.
    destruct (Z.eq_dec (center_x a) (center_x b)) as [E|E]; [exact E|].
    exfalso. apply (proj2 Hiff); eauto.
  - intros Hsame. destruct (left_of row) as [|c l] eqn:E; [reflexivity|].
    exfalso. destruct (proj1 Hiff) as (a & b & Ha & Hb & Hab);
      [discriminate|]. now apply Hab, Hsame.
Qed.

Lemma mean_split_sides_witness :
  right_of lopsided_row <> [] /\ left_of lopsided_row <> [].
Proof.
  destruct (mean_split_sides lopsided_row) as [Hr Hl]; [discriminate|].
  split; [exact Hr|]. intros E.
  pose proof (proj1 Hl E (mk 0 0 0) (mk 100 0 (8 # 10))) as E'.
  assert (0 = 100) by (apply E'; simpl; auto). discriminate.
Defined.

(** X10. A row of exactly four bubbles gets past the test [len(row) < 4], and
    still answers nothing unless its four bubbles share one x: with two
    different x, both blocks have between one and three bubbles. *)
Theorem four_bubble_row_answers_nothing
        th (organized_bubbles : rows_dict) (i : nat) row a b :
  sorted_rows organized_bubbles !! i = Some row ->
  (i < 25)%nat ->
  len (snd row) <= 4 ->
  In a (snd row) -> In b (snd row) -> center_x a <> center_x b ->
  map_bubbles_to_questions th organized_bubbles !! (Z.of_nat i + 1) = None
  /\ map_bubbles_to_questions th organized_bubbles !! (Z.of_nat i + 26) = None.
Proof.
  intros Hrow Hi Hlen Ha Hb Hab.
  pose proof (answer_of_row th _ i row LeftColumn Hrow) as HL.
  pose proof (answer_of_row th _ i row RightColumn Hrow) as HR.
  simpl in HL, HR. rewrite HL, HR by lia.
  unfold row_letter, side_letter.
  destruct (len (snd row) <? 4); [now split|].
  pose proof (left_right_length (snd row)) as Hsum.
  assert (Hr : 0 < len (right_of (snd row))).
  { pose proof (right_of_nonempty (snd row)) as H.
    unfold len. destruct (right_of (snd row)); simpl; [|lia].
    exfalso. apply H; [|reflexivity]. intros E. rewrite E in Ha. destruct Ha. }
  assert (Hl : 0 < len (left_of (snd row))).
  { pose proof (proj2 (left_of_nonempty_iff (snd row))) as H.
    unfold len. destruct (left_of (snd row)); simpl; [|lia].
    exfalso. apply H; [eauto|reflexivity]. }
  destruct (Z.leb_spec 4 (len (left_of (snd row)))); [lia|].
  destruct (Z.leb_spec 4 (len (right_of (snd row)))); [lia|]. now split.
Qed.

Lemma four_bubble_row_answers_nothing_witness :
  map_bubbles_to_questions (6 # 10) [(0, four_filled_row)] !! 1 = None
  /\ map_bubbles_to_questions (6 # 10) [(0, four_filled_row)] !! 26 = None.
Proof.
  apply (four_bubble_row_answers_nothing (6 # 10) [(0, four_filled_row)] 0
           (0, four_filled_row) (mk 10 0 1) (mk 20 0 1)).
  - reflexivity.
  - lia.
  - vm_compute. discriminate.
  - simpl. auto.
  - simpl. auto.
  - vm_compute. discriminate.
Defined.

End MappingExtras.

(** ** Bubble detection: which contours become candidates, and when it fails *)
Module DetectionExtras.
Import Py Scanner PyFacts DetectionReadouts Fixtures.

Section Detection.
Context `{cv : OpenCV}.

(** The loop as a filter followed by a map, as long as no contour that
    reaches the division has height 0; a failure otherwise. *)
Lemma detect_loop_spec thresh_img contours acc :
  detect_loop thresh_img contours acc =
  if existsb (fun c => reaches_division c && (rect_height c =? 0)) contours
  then Raise (ZeroDivisionError "float division by zero")
  else Ok (acc ++ map (bubble_of thresh_img) (List.filter accepted contours)).
Proof.
  revert acc. induction contours as [|c contours IH]; intros acc; simpl.
  { f_equal. symmetry. apply app_nil_r. }
  unfold accepted, reaches_division, rect_height, bubble_of.
  destruct (Qltb (contourArea c) 100 || Qltb 2000 (contourArea c)); simpl;
    [apply IH|].
  destruct (Qeq_bool (arcLength c) 0); simpl; [apply IH|].
  destruct (Qltb _ (6 # 10)); simpl; [apply IH|].
  destruct (boundingRect c) as [[[x y] w] h] eqn:Hrect.
  destruct (h =? 0); simpl; [reflexivity|].
  destruct (Qltb _ (7 # 10) || Qltb (13 # 10) _); simpl; [apply IH|].
  rewrite IH.
  destruct (existsb _ contours); [reflexivity|].
  rewrite <- app_assoc. simpl. now rewrite Hrect.
Qed.

End Detection.

(** X11. [detect_bubbles] returns, in the order of the contours, one candidate
    for every contour that passes all the tests, and nothing else, unless a
    contour that passes the area, perimeter and circularity tests has a
    bounding box of height 0: then, and only then, it raises
    [ZeroDivisionError]. *)
Theorem detect_bubbles_filters_and_maps `{cv : OpenCV} thresh_img original_img :
  let contours := findContours thresh_img in
  let zero_height :=
    exists c, In c contours /\ reaches_division c = true /\ rect_height c = 0 in
  (zero_height ->
   detect_bubbles thresh_img original_img
   = Raise (ZeroDivisionError "float division by zero"))
  /\ (~ zero_height ->
      detect_bubbles thresh_img original_img
      = Ok (map (bubble_of thresh_img) (List.filter accepted contours))).
Proof.
  intros contours zero_height. unfold detect_bubbles.
  rewrite detect_loop_spec. fold contours.
  destruct (existsb _ contours) eqn:E.
  - apply existsb_exists in E as (c & Hc & Hz).
    apply andb_true_iff in Hz as [Hr Hz]. apply Z.eqb_eq in Hz.
    split; [reflexivity|]. intros Hno. exfalso. apply Hno. exists c. auto.
  - split; [|reflexivity].
    intros (c & Hc & Hr & Hz). exfalso.
    assert (Hex : existsb (fun c => reaches_division c && (rect_height c =? 0))
                          contours = true).
    { apply existsb_exists. exists c. split; [exact Hc|].
      rewrite Hr, Hz. reflexivity. }
    congruence.
Qed.

Lemma Qltb_false (a b : Q) : Qltb a b = false -> (b <= a)%Q.
Proof.
  unfold Qltb. rewrite negb_false_iff. apply Qle_bool_iff.
Qed.

Lemma aspect_positive (w h : Z) :
  h <> 0 -> (7 # 10 <= inject_Z w / inject_Z h)%Q -> 0 < w * h.
Proof.
  intros Hh. unfold Qle, Qdiv, Qmult, Qinv. simpl.
  destruct h as [|p|p]; [congruence| |]; simpl; nia.
Qed.

(** X12. Every candidate that [detect_bubbles] returns comes from a contour with
    an area between 100 and 2000 and a bounding box whose aspect ratio is
    between 0.7 and 1.3; the box has a positive area, so the fill ratio is
    never a division by zero; its centre is [(x + w // 2, y + h // 2)]; and
    there are at most as many candidates as contours. *)
Theorem candidates_are_bubble_sized `{cv : OpenCV}
        thresh_img original_img bubbles :
  detect_bubbles thresh_img original_img = Ok bubbles ->
  (length bubbles <= length (findContours thresh_img))%nat
  /\ forall b, In b bubbles ->
       (100 <= area b <= 2000)%Q
       /\ let '(x, y, w, h) := bbox b in
          (7 # 10 <= inject_Z w / inject_Z h <= 13 # 10)%Q
          /\ 0 < w * h
          /\ center b = (x + w / 2, y + h / 2).
Proof.
  unfold detect_bubbles. rewrite detect_loop_spec.
  destruct (existsb _ _) eqn:E; [discriminate|]. intros [= <-]. simpl.
  split.
  { rewrite length_map. apply filter_length_le. }
  intros b Hb. apply in_map_iff in Hb as (c & <- & Hc).
  apply filter_In in Hc as [Hc Hacc].
  assert (Hh : rect_height c <> 0).
  { intros Hz. rewrite <- not_true_iff_false in E. apply E.
    apply existsb_exists. exists c. split; [exact Hc|].
    unfold accepted in Hacc. apply andb_true_iff in Hacc as [-> _].
    now rewrite Hz. }
  unfold accepted, reaches_division, rect_height, bubble_of in *.
  destruct (boundingRect c) as [[[x y] w] h]. simpl.
  apply andb_true_iff in Hacc as [Hr Ha].
  apply andb_true_iff in Hr as [Hr _].
  apply andb_true_iff in Hr as [Hr _].
  apply negb_true_iff, orb_false_iff in Hr as [H1 H2].
  apply negb_true_iff, orb_false_iff in Ha as [H3 H4].
  apply Qltb_false in H1, H2, H3, H4.
  repeat split; auto. now apply aspect_positive.
Qed.

Lemma candidates_are_bubble_sized_witness :
  (length (map (bubble_of (cv := sheet_world) sheet_pixels) sheet_contours)
   <= length sheet_contours)%nat.
Proof.
  refine (proj1 (candidates_are_bubble_sized (cv := sheet_world)
                   sheet_pixels sheet_pixels _ _)).
  vm_compute. reflexivity.
Defined.

End DetectionExtras.

(** ** The scan: what it prints and writes *)
Module PipelineExtras.
Import Py Scanner PyFacts PipelineFacts Fixtures.


End PipelineExtras.

(** ** The command line: the report and the saved file *)
Module CliExtras.
Import Py Scanner PyFacts MappingFacts PipelineFacts Cli Fixtures CliFixtures.

(** The keys of a mapping, counted along a list without repetition that
    holds them all. *)
Lemma size_as_filter (l : list Z) (m : gmap Z string) :
  NoDup l ->
  (forall q, is_Some (m !! q) -> q ∈ l) ->
  size m = length (List.filter (fun q => bool_decide (is_Some (m !! q))) l).
Proof.
  intros Hnd. revert m. induction Hnd as [|x l Hx Hnd IH]; intros m Hkeys.
  - simpl. apply map_size_empty_iff, map_eq. intros q. rewrite lookup_empty.
    destruct (m !! q) eqn:E; [|reflexivity].
    exfalso. eapply not_elem_of_nil, Hkeys. rewrite E. eauto.
  - cbn [List.filter].
    assert (Hrest : List.filter (fun q => bool_decide (is_Some (m !! q))) l
                    = List.filter
                        (fun q => bool_decide (is_Some (delete x m !! q))) l).
    { apply filter_ext_in. intros q Hq.
      rewrite lookup_delete_ne; [reflexivity|].
      intros ->. apply Hx. now apply list_elem_of_In. }
    rewrite Hrest. destruct (m !! x) eqn:E.
    + rewrite bool_decide_eq_true_2 by eauto. cbn [length].
      rewrite <- (IH (delete x m)).
      * rewrite map_size_delete, E.
        assert (size m <> 0%nat); [|simpl; lia].
        intros Hz. apply map_size_empty_iff in Hz. subst m.
        now rewrite lookup_empty in E.
      * intros q Hq. destruct (decide (q = x)) as [->|Hne].
        -- rewrite lookup_delete_eq in Hq. destruct Hq as [v Hv]. discriminate.
        -- rewrite lookup_delete_ne in Hq by congruence.
           apply Hkeys, elem_of_cons in Hq as [->|Hq]; [congruence|exact Hq].
    + rewrite bool_decide_eq_false_2 by (intros [v Hv]; discriminate).
      rewrite <- (IH (delete x m)).
      * now rewrite map_size_delete, E.
      * intros q Hq. destruct (decide (q = x)) as [->|Hne].
        -- rewrite lookup_delete_eq in Hq. destruct Hq as [v Hv]. discriminate.
        -- rewrite lookup_delete_ne in Hq by congruence.
           apply Hkeys, elem_of_cons in Hq as [->|Hq]; [congruence|exact Hq].
Qed.

(** X14. The report after a scan adds up: [print_results] calls [print]
    52 times, once for the heading, once per question from 1 to 50 and once
    for the total (the heading and the total start with a newline of their
    own, so more than 52 lines appear on the screen); the total it prints is
    at most 50, and the questions shown as "No answer detected" are the 50
    minus that total. *)
Theorem report_adds_up `{cv : OpenCV} self image_path debug output_dir m :
  snd (scan_answer_sheet self image_path debug output_dir) = Ok m ->
  length (print_results m) = 52%nat
  /\ (size m <= 50)%nat
  /\ (length (List.filter
                (fun q => String.eqb (displayed_answer m q)
                                     "No answer detected")
                (seqZ 1 50))
      + size m = 50)%nat
  /\ head (print_results m) = Some (newline +:+ "=== SCANNED ANSWERS ===")%string
  /\ last (print_results m)
     = Some (newline +:+ "Total answered questions: " +:+ pretty (size m)
             +:+ "/50")%string.
Proof.
  intros Hm.
  assert (Hkeys : forall q, is_Some (m !! q) -> q ∈ seqZ 1 50).
  { intros q [v Hv]. apply elem_of_seqZ.
    destruct (scan_answer_sheet_entries _ _ _ _ m q v Hm Hv). lia. }
  pose proof (size_as_filter (seqZ 1 50) m (NoDup_seqZ 1 50) Hkeys) as Hsize.
  assert (Hshown :
            List.filter (fun q => String.eqb (displayed_answer m q)
                                             "No answer detected") (seqZ 1 50)
            = List.filter
                (fun q => negb (bool_decide (is_Some (m !! q)))) (seqZ 1 50)).
  { apply filter_ext. intros q. unfold displayed_answer.
    destruct (m !! q) as [v|] eqn:E.
    - rewrite bool_decide_eq_true_2 by eauto.
      destruct (scan_answer_sheet_entries _ _ _ _ m q v Hm E) as [_ Hv].
      simpl in Hv. destruct Hv as [<-|[<-|[<-|[<-|[]]]]]; reflexivity.
    - rewrite bool_decide_eq_false_2 by (intros [v Hv]; discriminate).
      reflexivity. }
  pose proof (filter_length (fun q => bool_decide (is_Some (m !! q)))
                            (seqZ 1 50)) as Hlen.
  rewrite length_seqZ in Hlen.
  split; [|split; [|split; [|split]]].
  - unfold print_results. rewrite !length_app, length_map, length_seqZ.
    reflexivity.
  - rewrite Hsize. lia.
  - rewrite Hshown, Hsize. lia.
  - reflexivity.
  - unfold print_results. rewrite !app_assoc. apply last_snoc.
Qed.

Lemma report_adds_up_witness :
  length (print_results ({[1 := "B"%string]} : gmap Z string)) = 52%nat.
Proof.
  refine (proj1 (report_adds_up (cv := sheet_world) init "sheet.png" false "."
                   {[1 := "B"%string]} _)).
  vm_compute. reflexivity.
Defined.

(** X15. An unreadable image does not stop the command line: after the error
    line of the scan it prints the whole report, with "No answer detected"
    for each of the 50 questions and a total of 0, and, the output file being
    writable, it saves the empty mapping. *)
Theorem main_saves_an_empty_mapping_for_an_unreadable_image
        `{cv : OpenCV} `{fs : FileSystem} (args : arguments) :
  imread (arg_image_path args) = None ->
  makedirs (arg_output_dir args) = None ->
  open_for_writing (path_join (arg_output_dir args) (arg_output_file args))
  = None ->
  let output_path := path_join (arg_output_dir args) (arg_output_file args) in
  main args
  = say ("Error scanning answer sheet: Could not load image from "
         +:+ arg_image_path args)
    :: map say (print_results ∅)
    ++ [MakeDirs (arg_output_dir args); JsonDump output_path ∅;
        say ("Results saved to " +:+ output_path)]
  /\ print_results ∅
     = [(newline +:+ "=== SCANNED ANSWERS ===")%string]
       ++ map (fun q => ("Question " +:+ format_2d q
                         +:+ ": No answer detected")%string) (seqZ 1 50)
       ++ [(newline +:+ "Total answered questions: 0/50")%string].
Proof.
  intros Hread Hdir Hopen output_path. split; [|reflexivity].
  assert (Hscan : forall s debug dir,
             scan_answer_sheet s (arg_image_path args) debug dir
             = (s, [Print ("Error scanning answer sheet: Could not load image from "
                           +:+ arg_image_path args)], Ok ∅)).
  { intros s debug dir.
    unfold scan_answer_sheet, scan_body, preprocess_image.
    now rewrite Hread. }
  subst output_path.
  unfold main. rewrite Hscan. unfold save_results. rewrite Hdir, Hopen.
  rewrite app_nil_r. reflexivity.
Qed.

Lemma main_saves_an_empty_mapping_for_an_unreadable_image_witness :
  In (JsonDump "out/scanned_answers.json" ∅)
     (main (cv := sheet_world) (fs := writable)
           {| arg_image_path := "missing.png"; arg_output_dir := "out";
              arg_output_file := "scanned_answers.json"; arg_debug := false;
              arg_threshold := 6 # 10 |}).
Proof.
  destruct (main_saves_an_empty_mapping_for_an_unreadable_image
              (cv := sheet_world) (fs := writable)
              {| arg_image_path := "missing.png"; arg_output_dir := "out";
                 arg_output_file := "scanned_answers.json"; arg_debug := false;
                 arg_threshold := 6 # 10 |}) as [-> _]; try reflexivity.
  right. apply in_or_app. right. right. left. reflexivity.
Defined.

(** X16. When saving fails with [FileNotFoundError], because the output
    directory cannot be made or the output file cannot be opened, the
    command line ends with "Error: Could not find image file '<image>'":
    it blames the image, which has been scanned by then, and nothing is
    saved. *)
Theorem save_failure_is_reported_as_a_missing_image
        `{cv : OpenCV} `{fs : FileSystem} (args : arguments) msg :
  makedirs (arg_output_dir args) = Some (FileNotFoundError msg)
  \/ (makedirs (arg_output_dir args) = None
      /\ open_for_writing
           (path_join (arg_output_dir args) (arg_output_file args))
         = Some (FileNotFoundError msg)) ->
  (exists before,
      main args
      = before
        ++ [say ("Error: Could not find image file '"
                 +:+ arg_image_path args +:+ "'");
            say "Please make sure the image file exists and provide the correct path"])
  /\ forall path answers, ~ In (JsonDump path answers) (main args).
Proof.
  intros Hfail. unfold main.
  destruct (scan_answer_sheet_result
              {| answers := answers init; bubble_threshold := arg_threshold args |}
              (arg_image_path args) (arg_debug args) (arg_output_dir args))
    as [out ->].
  set (m := match body_result _ _ with Ok a => a | Raise _ => ∅ end).
  assert (Hsave : exists effects,
             save_results m (arg_output_dir args) (arg_output_file args)
             = (effects, Some (FileNotFoundError msg))
             /\ forall path answers, ~ In (JsonDump path answers) effects).
  { unfold save_results. destruct Hfail as [->|[-> ->]].
    - exists []. split; [reflexivity|]. intros path a [].
    - eexists. split; [reflexivity|]. intros path a [E|[]]. discriminate. }
  destruct Hsave as (effects & -> & Hno). split.
  - exists (map Ev out ++ map say (print_results m) ++ effects).
    now rewrite <- !app_assoc.
  - intros path a Hin.
    apply in_app_or in Hin as [Hin|Hin].
    { apply in_map_iff in Hin as (e & E & _). discriminate. }
    apply in_app_or in Hin as [Hin|Hin].
    { apply in_map_iff in Hin as (e & E & _). discriminate. }
    apply in_app_or in Hin as [Hin|[E|[E|[]]]]; try discriminate.
    eapply Hno, Hin.
Qed.

Lemma save_failure_is_reported_as_a_missing_image_witness :
  exists before,
    main (cv := sheet_world) (fs := no_directory)
         {| arg_image_path := "sheet.png"; arg_output_dir := "";
            arg_output_file := "scanned_answers.json"; arg_debug := false;
            arg_threshold := 6 # 10 |}
    = before
      ++ [say "Error: Could not find image file 'sheet.png'";
          say "Please make sure the image file exists and provide the correct path"].
Proof.
  refine (proj1 (save_failure_is_reported_as_a_missing_image
                   (cv := sheet_world) (fs := no_directory)
                   {| arg_image_path := "sheet.png"; arg_output_dir := "";
                      arg_output_file := "scanned_answers.json";
                      arg_debug := false; arg_threshold := 6 # 10 |} _ _)).
  left. reflexivity.
Defined.

End CliExtras.

(** ** The straightener: where the corners lie, and the whole run *)
Module StraightenerExtras.
Import Py Straightener PyFacts StraightenerFacts Rectify Fixtures RectifyFixtures.

Lemma getitem_In {A} (l : list A) (i : Z) (x : A) :
  getitem l i = Ok x -> In x l.
Proof.
  unfold getitem. destruct (_ <? 0); [discriminate|].
  destruct (nth_error l _) eqn:E; [|discriminate].
  intros [= <-]. eapply nth_error_In, E.
Qed.

Section Detection.
Context `{cv : OpenCV}.

Lemma collect_corners_near gray contours acc corners :
  Forall (near_a_corner gray) acc ->
  collect_corners gray contours acc = Ok corners ->
  Forall (near_a_corner gray) corners.
Proof.
  revert acc. induction contours as [|c contours IH]; intros acc Hacc; simpl.
  { now intros [= <-]. }
  destruct (Qltb 100 (contourArea c) && Qltb (contourArea c) 2000);
    [|now apply IH].
  destruct (boundingRect c) as [[[x y] w] h].
  destruct (h =? 0); [discriminate|].
  destruct (Qltb (7 # 10) _ && Qltb _ (13 # 10)); [|now apply IH].
  destruct (shape gray) as [height width] eqn:Hshape.
  destruct ((_ || _) && (_ || _)) eqn:E; [|now apply IH].
  apply IH. apply Forall_app. split; [exact Hacc|].
  constructor; [|constructor].
  unfold near_a_corner. rewrite Hshape. simpl.
  apply andb_true_iff in E as [Ex Ey]. apply orb_true_iff in Ex, Ey.
  rewrite !Z.ltb_lt in Ex, Ey.
  unfold shape in Hshape. injection Hshape as <- <-. auto.
Qed.

Lemma select_corners_from gray corners l :
  select_corners gray corners = Ok l ->
  l = fallback_corners gray \/ forall c, In c l -> In c corners.
Proof.
  unfold select_corners.
  destruct (4 <=? len corners); [|intros [= <-]; now left].
  destruct ((2 <=? len _) && (2 <=? len _)); [|intros [= <-]; now left].
  destruct (getitem (top_of gray _) 0) as [tl|] eqn:E1; [|discriminate].
  destruct (getitem (top_of gray _) (-1)) as [tr|] eqn:E2; [|discriminate].
  destruct (getitem (bottom_of gray _) (-1)) as [br|] eqn:E3; [|discriminate].
  destruct (getitem (bottom_of gray _) 0) as [bl|] eqn:E4; [|discriminate].
  simpl. intros [= <-]. right.
  apply getitem_In in E1, E2, E3, E4.
  apply In_top_of in E1 as [E1 _], E2 as [E2 _].
  apply In_bottom_of in E3 as [E3 _], E4 as [E4 _].
  intros c [<-|[<-|[<-|[<-|[]]]]]; assumption.
Qed.

Lemma select_corners_four gray corners :
  exists l, select_corners gray corners = Ok l /\ length l = 4%nat.
Proof.
  unfold select_corners.
  destruct (4 <=? len corners);
    [|eexists; split; [reflexivity|];
      unfold fallback_corners; now destruct (shape gray)].
  destruct (Z.leb_spec 2 (len (top_of gray (sorted_points corners)))) as [Ht|Ht];
    [destruct (Z.leb_spec 2 (len (bottom_of gray (sorted_points corners))))
       as [Hb|Hb]|]; simpl andb; cbv iota;
    try (eexists; split; [reflexivity|];
         unfold fallback_corners; now destruct (shape gray)).
  destruct (sorted_points_ends _ Ht) as (tl & tr & Htl & Htr & _).
  destruct (sorted_points_ends _ Hb) as (bl & br & Hbl & Hbr & _).
  fold (top_of gray (sorted_points corners)) in Htl, Htr.
  fold (bottom_of gray (sorted_points corners)) in Hbl, Hbr.
  rewrite Htl, Htr, Hbr, Hbl. simpl. eexists. split; reflexivity.
Qed.

End Detection.

(** X17. Every corner that [detect_corner_markers] returns is either one of the
    fallback corners or the centre of a marker candidate lying in a corner
    region of the image, within 100 pixels of a vertical and of a horizontal
    edge: a mark in the middle of the page is never taken for a corner. *)
Theorem detected_corners_lie_in_corner_regions `{cv : OpenCV}
        (self : straightener) l :
  detect_corner_markers self = Ok l ->
  l = fallback_corners (gray self)
  \/ forall c, In c l -> near_a_corner (gray self) c.
Proof.
  unfold detect_corner_markers, marker_candidates.
  destruct (collect_corners _ _ []) as [corners|e] eqn:E; [|discriminate].
  simpl. intros Hsel.
  pose proof (collect_corners_near _ _ [] corners (List.Forall_nil _) E) as Hnear.
  apply select_corners_from in Hsel as [->|Hin]; [now left|right].
  intros c Hc. rewrite Forall_forall in Hnear.
  apply Hnear, list_elem_of_In, Hin, Hc.
Qed.

Lemma detected_corners_lie_in_corner_regions_witness :
  near_a_corner page_pixels (15, 15).
Proof.
  destruct (detected_corners_lie_in_corner_regions page_straightener
              [(15, 15); (285, 15); (285, 285); (15, 285)]) as [E|H].
  - vm_compute. reflexivity.
  - vm_compute in E. discriminate.
  - apply H. now left.
Defined.

(** X18. The whole run of the straightener on a loaded image: the detection
    always hands four corners to the warp, so neither the warp nor the check
    for a missing straightened image ever fails; the run prints its five
    progress lines and then either writes the warped image and ends with
    "Processing complete!", or, when [cv2.imwrite] reports failure, raises
    [ValueError] "Failed to save image to <path>" with nothing written. *)
Theorem process_image_outcome `{cv : OpenCV} `{wp : !Warp}
        (self : straightener) output_path output_width output_height :
  proper_contours (threshold_otsu (gray self)) ->
  exists corners,
    detect_corner_markers self = Ok corners
    /\ length corners = 4%nat
    /\ let img := warp (image self) corners output_width output_height in
       let progress :=
         [Print ("Processing image: " +:+ image_path self);
          Print "Detecting corner markers...";
          Print ("Found corners at: " +:+ repr_points corners);
          Print "Cropping and straightening image...";
          Print "Saving straightened image..."] in
       process_image self output_path output_width output_height
       = if imwrite output_path img
         then (progress
               ++ [ImWrite output_path img;
                   Print ("Straightened image saved to: " +:+ output_path);
                   Print "Processing complete!"],
               Done {| image_path := image_path self; image := image self;
                       gray := gray self; straightened_image := Some img |})
         else (progress,
               Failed (Python (ValueError
                                 ("Failed to save image to " +:+ output_path)))).
Proof.
  intros Hcs.
  destruct (collect_corners_returns (gray self)
              (findContours (threshold_otsu (gray self))) [] Hcs)
    as [candidates Hcand].
  destruct (select_corners_four (gray self) candidates) as (corners & Hsel & Hlen).
  assert (Hdet : detect_corner_markers self = Ok corners).
  { unfold detect_corner_markers, marker_candidates. now rewrite Hcand. }
  exists corners. split; [exact Hdet|]. split; [exact Hlen|].
  intros img progress. subst img progress.
  unfold process_image. rewrite Hdet.
  unfold crop_and_straighten. rewrite Hlen. simpl Nat.eqb. cbv iota.
  unfold save_straightened_image. simpl.
  destruct (imwrite output_path _); reflexivity.
Qed.

Lemma process_image_outcome_witness :
  exists corners,
    detect_corner_markers page_straightener = Ok corners
    /\ length corners = 4%nat.
Proof.
  destruct (process_image_outcome (wp := page_warp) page_straightener
              "out.png" 800 1000) as (corners & Hdet & Hlen & _).
  - unfold proper_contours. simpl findContours. unfold page_contours.
    repeat (constructor; [vm_compute; split; reflexivity|]). constructor.
  - exists corners. auto.
Defined.

(** X19. Saving straight after loading, before any [crop_and_straighten], raises
    [ValueError] and writes nothing; once the image has been cropped with
    four corners that error is past. *)
Theorem save_before_crop_fails `{cv : OpenCV} `{wp : !Warp}
        path (self : straightener) output_path :
  Straightener.init path = Ok self ->
  save_straightened_image self output_path
  = ([], Failed (Python (ValueError
       "No straightened image to save. Run crop_and_straighten() first.")))
  /\ forall corners w h, length corners = 4%nat ->
       exists self',
         crop_and_straighten self corners w h = Done self'
         /\ snd (save_straightened_image self' output_path)
            <> Failed (Python (ValueError
                 "No straightened image to save. Run crop_and_straighten() first.")).
Proof.
  unfold Straightener.init. destruct (imread path) as [img|]; [|discriminate].
  intros [= <-]. split; [reflexivity|].
  intros corners w h Hlen. unfold crop_and_straighten. rewrite Hlen.
  eexists. split; [reflexivity|].
  unfold save_straightened_image. simpl.
  destruct (imwrite _ _); simpl; discriminate.
Qed.

Lemma save_before_crop_fails_witness :
  save_straightened_image (wp := page_warp) page_straightener "out.png"
  = ([], Failed (Python (ValueError
       "No straightened image to save. Run crop_and_straighten() first."))).
Proof.
  refine (proj1 (save_before_crop_fails (cv := page_world) (wp := page_warp)
                   "page.png" page_straightener "out.png" _)).
  reflexivity.
Defined.

End StraightenerExtras.

(** ** Candidates that lie in bands *)
Module GridExtras.
Import Py Scanner PyFacts RowFacts Layout Fixtures LayoutFixtures.

Lemma filter_perm {A} (f : A -> bool) (l1 l2 : list A) :
  Permutation l1 l2 -> Permutation (List.filter f l1) (List.filter f l2).
Proof.
  induction 1 as [|x l1 l2 _ IH|x y l|l1 l2 l3 _ IH1 _ IH2]; simpl.
  - reflexivity.
  - destruct (f x); [now constructor|exact IH].
  - destruct (f x), (f y); try reflexivity. apply perm_swap.
  - now rewrite IH1.
Qed.

Lemma filter_all {A} (f : A -> bool) (l : list A) :
  Forall (fun x => f x = true) l -> List.filter f l = l.
Proof.
  induction 1 as [|x l Hx _ IH]; simpl; [reflexivity|]. now rewrite Hx, IH.
Qed.

Lemma filter_none {A} (f : A -> bool) (l : list A) :
  Forall (fun x => f x = false) l -> List.filter f l = [].
Proof.
  induction 1 as [|x l Hx _ IH]; simpl; [reflexivity|]. now rewrite Hx, IH.
Qed.

(** A list in y order is its part up to [t] followed by its part beyond. *)
Lemma sorted_split (t : Z) (l : list bubble) :
  StronglySorted (fun a b => center_y a <= center_y b) l ->
  l = List.filter (fun b => center_y b <=? t) l
      ++ List.filter (fun b => negb (center_y b <=? t)) l.
Proof.
  induction 1 as [|a l Hs IH Ha]; simpl; [reflexivity|].
  destruct (Z.leb_spec (center_y a) t) as [Hle|Hgt]; simpl.
  - now rewrite <- IH.
  - rewrite filter_none, filter_all; [reflexivity| |].
    + eapply List.Forall_impl; [|exact Ha]. intros b Hb. simpl in Hb.
      destruct (Z.leb_spec (center_y b) t); [lia|reflexivity].
    + eapply List.Forall_impl; [|exact Ha]. intros b Hb. simpl in Hb.
      destruct (Z.leb_spec (center_y b) t); [lia|reflexivity].
Qed.

(** The candidates of the topmost band come first in y order, the topmost
    of them at the head. *)
Lemma split_first_band (s row rest : list bubble) top :
  StronglySorted (fun a b => center_y a <= center_y b) s ->
  Permutation s (row ++ rest) ->
  In top row ->
  Forall (fun b => center_y top <= center_y b <= center_y top + tolerance)
         row ->
  Forall (fun b => center_y top + tolerance < center_y b) rest ->
  exists b s1 s2,
    s = b :: s1 ++ s2
    /\ Permutation (b :: s1) row /\ Permutation s2 rest
    /\ center_y b = center_y top
    /\ Forall (fun a => Z.abs (center_y a - center_y b) <= tolerance) s1
    /\ StronglySorted (fun a b => center_y a <= center_y b) s2.
Proof.
  intros Hs Hperm Htop Hrow Hrest.
  set (t := center_y top + tolerance).
  pose proof (sorted_split t s Hs) as Hsplit.
  assert (H1 : Permutation (List.filter (fun b => center_y b <=? t) s) row).
  { rewrite (filter_perm _ _ _ Hperm), List.filter_app.
    rewrite (filter_all _ row), (filter_none _ rest); [now rewrite app_nil_r| |].
    - eapply List.Forall_impl; [|exact Hrest]. intros b Hb. simpl in Hb.
      subst t. destruct (Z.leb_spec (center_y b) (center_y top + tolerance));
        [lia|reflexivity].
    - eapply List.Forall_impl; [|exact Hrow]. intros b Hb. simpl in Hb.
      subst t. apply Z.leb_le. lia. }
  assert (H2 : Permutation
                 (List.filter (fun b => negb (center_y b <=? t)) s) rest).
  { rewrite (filter_perm _ _ _ Hperm), List.filter_app.
    rewrite (filter_none _ row), (filter_all _ rest); [reflexivity| |].
    - eapply List.Forall_impl; [|exact Hrest]. intros b Hb. simpl in Hb.
      subst t. destruct (Z.leb_spec (center_y b) (center_y top + tolerance));
        [lia|reflexivity].
    - eapply List.Forall_impl; [|exact Hrow]. intros b Hb. simpl in Hb.
      subst t. apply negb_false_iff, Z.leb_le. lia. }
  set (s1 := List.filter (fun b => center_y b <=? t) s) in *.
  set (s2 := List.filter (fun b => negb (center_y b <=? t)) s) in *.
  rewrite Hsplit in Hs.
  destruct s1 as [|b s1'] eqn:E1.
  { apply Permutation_nil in H1. subst row. destruct Htop. }
  exists b, s1', s2. split; [exact Hsplit|]. split; [exact H1|].
  split; [exact H2|].
  assert (Hin : forall a, In a (b :: s1') ->
                          center_y top <= center_y a <= center_y top + tolerance).
  { intros a Ha. apply (Permutation_in _ H1) in Ha.
    rewrite List.Forall_forall in Hrow. now apply Hrow. }
  assert (Hb : center_y b = center_y top).
  { pose proof (Hin b (or_introl eq_refl)) as Hb.
    apply (Permutation_in _ (Permutation_sym H1)) in Htop.
    destruct Htop as [->|Htop]; [reflexivity|].
    apply StronglySorted_app_1_l in Hs. apply StronglySorted_inv in Hs as [_ Hhd].
    rewrite List.Forall_forall in Hhd. specialize (Hhd top Htop). lia. }
  split; [exact Hb|]. split.
  - rewrite List.Forall_forall. intros a Ha.
    specialize (Hin a (or_intror Ha)). lia.
  - now apply (StronglySorted_app_1_r _ (b :: s1')).
Qed.

Lemma rows_append_new (rows : rows_dict) k b :
  ~ In k (map fst rows) -> rows_append rows k b = rows ++ [(k, [b])].
Proof.
  induction rows as [|[k0 r0] rows IH]; simpl; [reflexivity|].
  intros Hk. destruct (Z.eqb_spec k0 k); [tauto|]. rewrite IH; tauto.
Qed.

Lemma rows_append_last (rows : rows_dict) k r b :
  ~ In k (map fst rows) ->
  rows_append (rows ++ [(k, r)]) k b = rows ++ [(k, r ++ [b])].
Proof.
  induction rows as [|[k0 r0] rows IH]; simpl.
  - now rewrite Z.eqb_refl.
  - intros Hk. destruct (Z.eqb_spec k0 k); [tauto|]. rewrite IH; tauto.
Qed.

(** While the candidates stay within the tolerance of [last_y], the loop
    fills the row it opened last. *)
Lemma walk_fill_last bubbles (rows : rows_dict) k r ly :
  ~ In k (map fst rows) ->
  Forall (fun b => Z.abs (center_y b - ly) <= tolerance) bubbles ->
  walk bubbles (rows ++ [(k, r)]) k ly = (rows ++ [(k, r ++ bubbles)], k, ly).
Proof.
  intros Hk. revert r. induction bubbles as [|b rest IH]; intros r Hall.
  - now rewrite app_nil_r.
  - apply Forall_cons in Hall as [Hb Hall]. rewrite walk_cons.
    destruct (Z.ltb_spec tolerance (Z.abs (center_y b - ly))); [lia|].
    rewrite rows_append_last by exact Hk. rewrite IH by exact Hall.
    now rewrite <- app_assoc.
Qed.

(** The loop over candidates in y order that lie in bands below the
    current one opens one row per band. *)
Lemma walk_banded (grid : list (list bubble)) :
  forall (s : list bubble) (rows : rows_dict) k ly,
    StronglySorted (fun a b => center_y a <= center_y b) s ->
    Permutation s (concat grid) ->
    banded grid ->
    Forall (fun b => ly + tolerance < center_y b) s ->
    map fst rows = seqZ 0 (k + 1) -> 0 <= k ->
    exists grid' ly',
      walk s rows k ly
      = (rows ++ enumerate_from (k + 1) grid', k + len grid, ly')
      /\ Forall2 (fun r' r => Permutation r' r) grid' grid.
Proof.
  induction grid as [|row rest IH]; intros s rows k ly Hs Hperm Hband Hlow Hk Hk0.
  - simpl in Hperm. symmetry in Hperm. apply Permutation_nil in Hperm.
    subst s. exists [], ly. simpl. rewrite app_nil_r, Z.add_0_r. split; constructor.
  - simpl in Hperm, Hband.
    destruct Hband as [(top & Htop & Hrow & Hrest) Hband].
    assert (Hrest' : Forall (fun b => center_y top + tolerance < center_y b)
                            (concat rest)).
    { rewrite List.Forall_forall. intros b Hb.
      apply in_concat in Hb as (r & Hr & Hb).
      rewrite List.Forall_forall in Hrest. specialize (Hrest r Hr).
      rewrite List.Forall_forall in Hrest. now apply Hrest. }
    destruct (split_first_band s row (concat rest) top Hs Hperm Htop Hrow Hrest')
      as (b & s1 & s2 & -> & H1 & H2 & Hb & Hnear & Hs2).
    assert (Hnew : ~ In (k + 1) (map fst rows)).
    { rewrite Hk, <- list_elem_of_In, elem_of_seqZ. lia. }
    apply Forall_cons in Hlow as [Hlowb _].
    rewrite walk_cons.
    destruct (Z.ltb_spec tolerance (Z.abs (center_y b - ly))); [|lia].
    rewrite rows_append_new by exact Hnew.
    rewrite walk_app, walk_fill_last by assumption.
    destruct (IH s2 (rows ++ [(k + 1, [b] ++ s1)]) (k + 1) (center_y b))
      as (grid' & ly' & Hwalk & Hgrid); try assumption.
    + rewrite Hb. rewrite List.Forall_forall. intros a Ha.
      apply (Permutation_in _ H2) in Ha.
      rewrite List.Forall_forall in Hrest'. now apply Hrest'.
    + rewrite map_app, Hk. simpl.
      replace (k + 1 + 1) with ((k + 1) + 1) by lia.
      now rewrite (seqZ_app 0 (k + 1) 1) by lia.
    + lia.
    + exists (([b] ++ s1) :: grid'), ly'. split.
      * rewrite Hwalk. simpl. rewrite <- app_assoc. simpl.
        do 2 f_equal. unfold len. simpl length. lia.
      * constructor; [exact H1|exact Hgrid].
Qed.

Lemma enumerate_from_map {A B} (f : A -> B) (l : list A) i :
  map (fun kr => (fst kr, f (snd kr))) (enumerate_from i l)
  = enumerate_from i (map f l).
Proof.
  revert i. induction l as [|x l IH]; intros i; simpl; [reflexivity|].
  now rewrite IH.
Qed.

(** With pairwise different x, the order in which the members of a row are
    handed to the sort by x does not matter. *)
Lemma sort_by_x_perm (l1 l2 : list bubble) :
  Permutation l1 l2 -> distinct_x l2 -> sort_by_x l1 = sort_by_x l2.
Proof.
  intros Hperm Hnd. unfold sort_by_x.
  assert (Hsorted : forall l,
             StronglySorted (fun a b => center_x a <= center_x b)
                            (sorted_by Z.leb center_x l)).
  { intros l. eapply StronglySorted_weaken;
      [|apply (sorted_by_sorted Z.leb center_x)].
    - intros a b H. now apply Z.leb_le.
    - intros a b H. apply Z.leb_le. apply Z.leb_gt in H. lia.
    - intros a b c H1 H2. apply Z.leb_le in H1, H2. apply Z.leb_le. lia. }
  assert (Hp : Permutation (sorted_by Z.leb center_x l1)
                           (sorted_by Z.leb center_x l2)).
  { now rewrite !sorted_by_perm. }
  apply (StronglySorted_unique_strong
           (fun a b => center_x a <= center_x b)); try apply Hsorted; [|exact Hp].
  intros x1 x2 Hx1 Hx2 H12 H21.
  apply list_elem_of_In, In_sorted_by, (Permutation_in _ Hperm) in Hx1.
  apply list_elem_of_In, In_sorted_by in Hx2.
  assert (Hx : center_x x1 = center_x x2) by lia.
  clear - Hnd Hx1 Hx2 Hx. unfold distinct_x in Hnd.
  induction l2 as [|a l IH]; [destruct Hx1|].
  simpl in Hnd. apply NoDup_cons in Hnd as [Ha Hnd].
  destruct Hx1 as [->|Hx1], Hx2 as [->|Hx2]; auto.
  - exfalso. apply Ha. rewrite Hx. apply list_elem_of_In, in_map, Hx2.
  - exfalso. apply Ha. rewrite <- Hx. apply list_elem_of_In, in_map, Hx1.
Qed.

Lemma sort_rows_perm (grid' grid : list (list bubble)) :
  Forall2 (fun r' r => Permutation r' r) grid' grid ->
  Forall distinct_x grid ->
  map sort_by_x grid' = map sort_by_x grid.
Proof.
  induction 1 as [|r' r grid' grid Hr _ IH]; intros Hnd; [reflexivity|].
  apply Forall_cons in Hnd as [Hr_nd Hnd]. simpl.
  now rewrite (sort_by_x_perm r' r Hr Hr_nd), IH.
Qed.

(** The topmost band is row 0 and every further band is one more row. *)
Lemma organize_banded (grid : list (list bubble)) (bubbles : list bubble) :
  Permutation bubbles (concat grid) ->
  banded grid ->
  Forall distinct_x grid ->
  organize_bubbles_by_rows bubbles = enumerate_from 0 (map sort_by_x grid).
Proof.
  intros Hperm Hband Hnd.
  destruct grid as [|row rest].
  { simpl in Hperm. symmetry in Hperm. apply Permutation_nil in Hperm.
    now subst. }
  simpl in Hperm, Hband. destruct Hband as [(top & Htop & Hrow & Hrest) Hband].
  assert (Hrest' : Forall (fun b => center_y top + tolerance < center_y b)
                          (concat rest)).
  { rewrite List.Forall_forall. intros b Hb.
    apply in_concat in Hb as (r & Hr & Hb).
    rewrite List.Forall_forall in Hrest. specialize (Hrest r Hr).
    rewrite List.Forall_forall in Hrest. now apply Hrest. }
  assert (Hs : Permutation (sort_by_y bubbles) (row ++ concat rest)).
  { unfold sort_by_y. now rewrite sorted_by_perm. }
  destruct (split_first_band _ row (concat rest) top
              (sort_by_y_ascending bubbles) Hs Htop Hrow Hrest')
    as (b & s1 & s2 & Es & H1 & H2 & Hb & Hnear & Hs2).
  rewrite (organize_bubbles_by_rows_eq bubbles b (s1 ++ s2) Es).
  rewrite walk_app.
  rewrite (RowExtras.walk_single_row s1 [b] (center_y b) Hnear).
  destruct (walk_banded rest s2 [(0, [b] ++ s1)] 0 (center_y b))
    as (grid' & ly' & Hwalk & Hgrid); try assumption; try reflexivity; try lia.
  { rewrite Hb. rewrite List.Forall_forall. intros a Ha.
    apply (Permutation_in _ H2) in Ha.
    rewrite List.Forall_forall in Hrest'. now apply Hrest'. }
  rewrite Hwalk. simpl fst.
  change ((0, b :: s1) :: enumerate_from (0 + 1) grid')
    with (enumerate_from 0 ((b :: s1) :: grid')).
  rewrite enumerate_from_map. f_equal.
  apply sort_rows_perm; [|exact Hnd]. constructor; assumption.
Qed.

(** X20. Candidates that lie in bands, more than the tolerance apart from top
    to top and with pairwise different x in each band, are clustered into
    exactly these bands, whatever the order in which detection found them:
    band [k] becomes row [k], from left to right, and decides question
    [k + 1] with its left block and question [k + 26] with its right
    block. *)
Theorem banded_candidates_are_read_band_by_band
        (grid : list (list bubble)) (bubbles : list bubble) :
  Permutation bubbles (concat grid) ->
  banded grid ->
  Forall distinct_x grid ->
  let rows := organize_bubbles_by_rows bubbles in
  rows = enumerate_from 0 (map sort_by_x grid)
  /\ forall th (k : nat) row col,
       grid !! k = Some row ->
       Z.of_nat k + first_question col <= last_question col ->
       map_bubbles_to_questions th rows !! (Z.of_nat k + first_question col)
       = row_letter th (side_of col) (Z.of_nat k, sort_by_x row).
Proof.
  intros Hperm Hband Hnd rows. subst rows.
  pose proof (organize_banded grid bubbles Hperm Hband Hnd) as Horg.
  split; [exact Horg|].
  intros th k row col Hk Hq.
  apply MappingFacts.answer_of_row; [|exact Hq].
  rewrite RowExtras.organize_mean_sorted, Horg, enumerate_from_lookup.
  change (map sort_by_x grid) with (sort_by_x <$> grid).
  now rewrite list_lookup_fmap, Hk.
Qed.

Lemma banded_candidates_are_read_band_by_band_witness :
  organize_bubbles_by_rows found_backwards
  = [(0, double_marked_row); (1, second_row)]
  /\ map_bubbles_to_questions (6 # 10)
       (organize_bubbles_by_rows found_backwards) !! 27 = Some "B"%string.
Proof.
  assert (Hperm : Permutation found_backwards
                              (concat [double_marked_row; second_row])).
  { unfold found_backwards.
    change (concat [double_marked_row; second_row])
      with (double_marked_row ++ second_row ++ []).
    rewrite (app_nil_r second_row). symmetry. apply Permutation_rev. }
  assert (Hband : banded [double_marked_row; second_row]).
  { simpl. split; [|split; [|exact I]].
    - exists (mk 10 0 (8 # 10)). split; [now left|].
      split; repeat constructor;
        unfold center_y, mk, tolerance; simpl; lia.
    - exists (mk 10 50 0). split; [now left|].
      split; repeat constructor;
        unfold center_y, mk, tolerance; simpl; lia. }
  assert (Hnd : Forall distinct_x [double_marked_row; second_row]).
  { repeat constructor; unfold distinct_x; simpl;
      rewrite <- ?list_elem_of_In; repeat constructor;
      rewrite ?elem_of_cons, ?elem_of_nil; intuition discriminate. }
  pose proof (banded_candidates_are_read_band_by_band
                [double_marked_row; second_row] found_backwards
                Hperm Hband Hnd) as H.
  cbv zeta in H. destruct H as [H1 H2]. split.
  - rewrite H1. reflexivity.
  - apply (H2 (6 # 10) 1%nat second_row RightColumn); [reflexivity|].
    simpl. lia.
Defined.

End GridExtras.

(** ** The printed sheet *)
Module SheetExtras.
Import Py Scanner PyFacts Sheet.

(** Equality of two boxes, coordinate by coordinate. *)
Ltac box_eq :=
  apply pair_equal_spec; split;
  [apply pair_equal_spec; split; [apply pair_equal_spec; split|]|]; lia.

Lemma option_letters_prefix k :
  exists n : nat,
    option_letters k = firstn n ["A"; "B"; "C"; "D"; "E"]%string
    /\ Z.of_nat n = slice_bound 5 k.
Proof.
  exists (Z.to_nat (slice_bound 5 k)).
  pose proof (slice_bound_range 5 k ltac:(lia)) as Hr.
  split; [|lia]. unfold option_letters, slice.
  change (len ["A"; "B"; "C"; "D"; "E"]%string) with 5.
  change (slice_bound 5 0) with 0. now rewrite Z.sub_0_r.
Qed.

Lemma len_option_letters k : 0 <= len (option_letters k) <= 5.
Proof.
  destruct (option_letters_prefix k) as (n & -> & _).
  unfold len. rewrite length_take. simpl length. lia.
Qed.

Lemma In_enumerate_from {A} (l : list A) i0 i x :
  In (i, x) (enumerate_from i0 l)
  <-> exists n : nat, i = i0 + Z.of_nat n /\ l !! n = Some x.
Proof.
  rewrite <- list_elem_of_In, list_elem_of_lookup. split.
  - intros [n Hn]. rewrite enumerate_from_lookup in Hn.
    destruct (l !! n) as [y|] eqn:E; [|discriminate].
    injection Hn as <- <-. eauto.
  - intros (n & -> & Hn). exists n. now rewrite enumerate_from_lookup, Hn.
Qed.

Lemma enumerate_from_index {A} (l : list A) i0 (p : Z * A) :
  In p (enumerate_from i0 l) -> i0 <= fst p < i0 + len l.
Proof.
  destruct p as [i x]. rewrite In_enumerate_from. intros (n & -> & Hn).
  apply lookup_lt_Some in Hn. unfold len. simpl. lia.
Qed.

(** The two loops of the template and of the grid, as one expression. *)
Lemma create_mcq_grid_eq (self : generator) n k :
  create_mcq_grid self n k
  = flat_map
      (fun q =>
         map (fun il : Z * string =>
                let x0 := margin self
                          + q / 25 * ((width self - 2 * margin self) / 2)
                          + 60 + fst il * option_spacing self in
                let y0 := 450 + q mod 25 * question_spacing self in
                (x0, y0, x0 + 2 * circle_radius self,
                 y0 + 2 * circle_radius self))
             (enumerate_from 0 (option_letters k)))
      (seqZ 0 n).
Proof.
  unfold create_mcq_grid. apply flat_map_ext. intros q.
  apply map_ext. intros il. box_eq.
Qed.

Lemma template_bounds_eq (self : filler) n k :
  map circle_bounds (template_circles (create_answer_template self n k))
  = flat_map
      (fun q =>
         map (fun il : Z * string =>
                let x0 := filler_margin self
                          + q / 25 * ((2480 - 2 * filler_margin self) / 2)
                          + 60 + fst il * filler_option_spacing self in
                let y0 := 450 + q mod 25 * filler_question_spacing self in
                (x0, y0, x0 + 2 * filler_circle_radius self,
                 y0 + 2 * filler_circle_radius self))
             (enumerate_from 0 (option_letters k)))
      (seqZ 0 n).
Proof.
  unfold create_answer_template, template_circles.
  induction (seqZ 0 n) as [|q l IH]; simpl; [reflexivity|].
  rewrite map_app, IH. f_equal. rewrite !map_map.
  apply map_ext. intros il. unfold circle_bounds. simpl. box_eq.
Qed.

Lemma flat_map_ext_In {A B} (f g : A -> list B) (l : list A) :
  (forall x, In x l -> f x = g x) -> flat_map f l = flat_map g l.
Proof.
  induction l as [|x l IH]; intros H; simpl; [reflexivity|].
  rewrite H by now left. rewrite IH; [reflexivity|].
  intros y Hy. apply H. now right.
Qed.

Lemma flat_map_length_const {A B} (f g : A -> list B) (l : list A) :
  (forall x, length (f x) = length (g x)) ->
  length (flat_map f l) = length (flat_map g l).
Proof.
  intros H. induction l as [|x l IH]; simpl; [reflexivity|].
  now rewrite !length_app, H, IH.
Qed.

(** X21. The template of the filler and the grid of the generator place the
    circles of a sheet at the same positions, in the same order, exactly
    when the columns are 1040 pixels wide, as they are for the default
    width 2480 that the filler writes out (or when the sheet has one column
    only, or no circle at all). *)
Theorem template_matches_the_printed_grid (w h n k : Z) :
  map circle_bounds (template_circles (create_answer_template filler_init n k))
  = create_mcq_grid (generator_init w h) n k
  <-> ((w - 400) / 2 = 1040 \/ n <= 25 \/ option_letters k = []).
Proof.
  rewrite template_bounds_eq, create_mcq_grid_eq. simpl.
  change ((2480 - 2 * 200) / 2) with 1040.
  replace (w - 2 * 200) with (w - 400) by lia.
  split.
  - intros Heq.
    destruct (Z.le_gt_cases n 25) as [Hn|Hn]; [auto|].
    destruct (option_letters k) as [|a letters] eqn:El; [auto|]. left.
    replace n with (25 + (n - 25)) in Heq by lia.
    rewrite (seqZ_app 0 25 (n - 25)) in Heq by lia.
    rewrite !flat_map_app in Heq.
    apply app_inj_1 in Heq as [_ Heq].
    2:{ apply flat_map_length_const. intros q. now rewrite !length_map. }
    rewrite (seqZ_cons (0 + 25)) in Heq by lia.
    simpl in Heq. injection Heq as Hx _.
    change ((0 + 25) / 25) with 1 in Hx. lia.
  - intros [Hw|[Hn|Hk]].
    + now rewrite Hw.
    + apply flat_map_ext_In. intros q Hq.
      apply list_elem_of_In, elem_of_seqZ in Hq.
      rewrite (Z.div_small q 25) by lia. reflexivity.
    + rewrite Hk. simpl.
      induction (seqZ 0 n) as [|q l IH]; simpl; [reflexivity|exact IH].
Qed.

(** *** No two circles overlap *)

Lemma FOP_app {A} (R : A -> A -> Prop) (l1 l2 : list A) :
  ForallOrdPairs R l1 -> ForallOrdPairs R l2 ->
  (forall a b, In a l1 -> In b l2 -> R a b) ->
  ForallOrdPairs R (l1 ++ l2).
Proof.
  induction 1 as [|a l1 Ha H1 IH]; intros H2 H12; simpl; [exact H2|].
  constructor.
  - apply Forall_app. split; [exact Ha|].
    rewrite List.Forall_forall. intros b Hb. apply H12; [now left|exact Hb].
  - apply IH; [exact H2|]. intros x y Hx Hy. apply H12; [now right|exact Hy].
Qed.

Lemma FOP_flat_map {A B} (R : B -> B -> Prop) (f : A -> list B) (l : list A) :
  (forall x, In x l -> ForallOrdPairs R (f x)) ->
  ForallOrdPairs (fun x y => forall a b, In a (f x) -> In b (f y) -> R a b) l ->
  ForallOrdPairs R (flat_map f l).
Proof.
  intros Hin Hout. induction Hout as [|x l Hx Hl IH]; simpl; [constructor|].
  apply FOP_app.
  - apply Hin. now left.
  - apply IH. intros y Hy. apply Hin. now right.
  - intros a b Ha Hb. apply in_flat_map in Hb as (y & Hy & Hb).
    rewrite List.Forall_forall in Hx. now apply (Hx y Hy).
Qed.

Lemma FOP_map {A B} (R : B -> B -> Prop) (g : A -> B) (l : list A) :
  ForallOrdPairs (fun x y => R (g x) (g y)) l -> ForallOrdPairs R (map g l).
Proof.
  induction 1 as [|x l Hx Hl IH]; simpl; constructor; [|exact IH].
  rewrite List.Forall_forall. intros b Hb.
  apply in_map_iff in Hb as (y & <- & Hy).
  rewrite List.Forall_forall in Hx. now apply Hx.
Qed.

Lemma FOP_seqZ (a n : Z) :
  ForallOrdPairs (fun i j => a <= i < j /\ j < a + n) (seqZ a n).
Proof.
  destruct (Z.le_gt_cases n 0) as [Hn|Hn].
  { rewrite seqZ_nil by exact Hn. constructor. }
  rewrite <- (Z2Nat.id n) by lia. generalize (Z.to_nat n). clear. intros n.
  revert a. induction n as [|n IH]; intros a.
  { rewrite seqZ_nil by lia. constructor. }
  rewrite seqZ_cons by lia. constructor.
  - rewrite List.Forall_forall. intros j Hj.
    apply list_elem_of_In, elem_of_seqZ in Hj. lia.
  - replace (Z.pred (Z.of_nat (S n))) with (Z.of_nat n) by lia.
    specialize (IH (Z.succ a)). revert IH.
    generalize (seqZ (Z.succ a) (Z.of_nat n)). intros l H.
    induction H as [|i l Hi Hl IHl]; constructor; [|exact IHl].
    eapply List.Forall_impl; [|exact Hi]. simpl. lia.
Qed.

Lemma FOP_enumerate_from {A} (l : list A) (i0 : Z) :
  ForallOrdPairs (fun p q : Z * A => i0 <= fst p < fst q /\ fst q < i0 + len l)
                 (enumerate_from i0 l).
Proof.
  revert i0. induction l as [|x l IH]; intros i0; simpl; constructor.
  - rewrite List.Forall_forall. intros p Hp.
    apply enumerate_from_index in Hp. unfold len in *. simpl length. simpl. lia.
  - specialize (IH (i0 + 1)). revert IH.
    generalize (enumerate_from (i0 + 1) l). intros e H.
    induction H as [|p e Hp He IHe]; constructor; [|exact IHe].
    eapply List.Forall_impl; [|exact Hp]. unfold len. simpl. lia.
Qed.

Lemma FOP_impl {A} (R S : A -> A -> Prop) (l : list A) :
  (forall a b, R a b -> S a b) -> ForallOrdPairs R l -> ForallOrdPairs S l.
Proof.
  intros H. induction 1 as [|x l Hx Hl IH]; constructor; [|exact IH].
  eapply List.Forall_impl; [|exact Hx]. auto.
Qed.

(** X22. When the spacings exceed the diameter and a column is wide enough for
    five options, no two circles of the grid share a point: the bounding
    boxes of any two of them are apart. *)
Theorem printed_circles_do_not_overlap (self : generator) (n k : Z) :
  0 <= circle_radius self ->
  2 * circle_radius self < option_spacing self ->
  2 * circle_radius self < question_spacing self ->
  4 * option_spacing self + 2 * circle_radius self
  < (width self - 2 * margin self) / 2 ->
  ForallOrdPairs apart (create_mcq_grid self n k).
Proof.
  intros Hr Hos Hqs Hcw. rewrite create_mcq_grid_eq.
  set (cw := (width self - 2 * margin self) / 2) in *.
  pose proof (len_option_letters k) as Hlen.
  apply FOP_flat_map.
  - intros q _. apply FOP_map.
    eapply FOP_impl; [|apply FOP_enumerate_from].
    intros p1 p2 [H1 H2]. unfold apart. simpl. left. nia.
  - eapply FOP_impl; [|apply (FOP_seqZ 0 n)].
    intros q1 q2 [H1 H2] b1 b2 Hb1 Hb2.
    apply in_map_iff in Hb1 as (p1 & <- & Hp1).
    apply in_map_iff in Hb2 as (p2 & <- & Hp2).
    apply enumerate_from_index in Hp1, Hp2.
    unfold apart. simpl.
    pose proof (Z.div_mod q1 25 ltac:(lia)) as D1.
    pose proof (Z.div_mod q2 25 ltac:(lia)) as D2.
    pose proof (Z.mod_pos_bound q1 25 ltac:(lia)) as M1.
    pose proof (Z.mod_pos_bound q2 25 ltac:(lia)) as M2.
    set (c1 := q1 / 25) in *. set (c2 := q2 / 25) in *.
    set (r1 := q1 mod 25) in *. set (r2 := q2 mod 25) in *.
    destruct (Z.lt_trichotomy r1 r2) as [Hlt|[Heq|Hgt]].
    + right. right. left. nia.
    + assert (c1 < c2) by lia. left. nia.
    + right. right. right. nia.
Qed.

Lemma printed_circles_do_not_overlap_witness :
  ForallOrdPairs apart (create_mcq_grid (generator_init 2480 3508) 50 4).
Proof.
  apply printed_circles_do_not_overlap; simpl; try lia.
  change ((2480 - 2 * 200) / 2) with 1040. lia.
Defined.

(** *** The circles and the page *)

Lemma In_create_mcq_grid (self : generator) n k b :
  In b (create_mcq_grid self n k)
  <-> exists q i,
      0 <= q < n /\ 0 <= i < len (option_letters k)
      /\ b = (let x0 := margin self
                        + q / 25 * ((width self - 2 * margin self) / 2)
                        + 60 + i * option_spacing self in
              let y0 := 450 + q mod 25 * question_spacing self in
              (x0, y0, x0 + 2 * circle_radius self,
               y0 + 2 * circle_radius self)).
Proof.
  rewrite create_mcq_grid_eq, in_flat_map. split.
  - intros (q & Hq & Hb). apply in_map_iff in Hb as ([i a] & <- & Hi).
    apply list_elem_of_In, elem_of_seqZ in Hq.
    apply enumerate_from_index in Hi. simpl in Hi.
    exists q, i. split; [lia|]. split; [lia|reflexivity].
  - intros (q & i & Hq & Hi & ->). exists q. split.
    + apply list_elem_of_In, elem_of_seqZ. lia.
    + apply in_map_iff.
      destruct (lookup_lt_is_Some_2 (option_letters k) (Z.to_nat i)) as [a Ha].
      { unfold len in Hi. lia. }
      exists (i, a). split; [reflexivity|].
      apply In_enumerate_from. exists (Z.to_nat i). split; [lia|exact Ha].
Qed.

(** X23. On the default sheet of 2480 by 3508 pixels, up to 50 questions fit:
    every circle lies between the margins and between the header and the
    instructions. From the 51st question on, a third column starts at the
    right margin, and its second option is drawn across the edge of the
    page. *)
Theorem fifty_questions_fit_the_page (n k : Z) :
  let self := generator_init 2480 3508 in
  (n <= 50 ->
   Forall (fun b : bounds =>
             let '(x0, y0, x1, y1) := b in
             margin self <= x0 /\ x1 <= width self - margin self
             /\ 450 <= y0 /\ y1 < height self - 200)
          (create_mcq_grid self n k))
  /\ (50 < n -> 2 <= k ->
      Exists (fun b : bounds => let '(_, _, x1, _) := b in width self < x1)
             (create_mcq_grid self n k)).
Proof.
  intros self. subst self. split.
  - intros Hn. rewrite List.Forall_forall. intros b Hb.
    apply In_create_mcq_grid in Hb as (q & i & Hq & Hi & ->).
    pose proof (len_option_letters k) as Hlen. simpl.
    change ((2480 - 2 * 200) / 2) with 1040.
    pose proof (Z.div_mod q 25 ltac:(lia)) as D.
    pose proof (Z.mod_pos_bound q 25 ltac:(lia)) as M.
    assert (0 <= q / 25 <= 1).
    { split; [apply Z.div_pos; lia|].
      apply Z.lt_succ_r, Z.div_lt_upper_bound; lia. }
    lia.
  - intros Hn Hk. apply List.Exists_exists.
    exists (let x0 := 200 + 50 / 25 * 1040 + 60 + 1 * 120 in
            let y0 := 450 + 50 mod 25 * 90 in
            (x0, y0, x0 + 2 * 38, y0 + 2 * 38)).
    split; [|vm_compute; reflexivity].
    apply In_create_mcq_grid. exists 50, 1. split; [lia|].
    split; [|reflexivity].
    destruct (option_letters_prefix k) as (m & -> & Hm).
    unfold slice_bound in Hm. destruct (Z.ltb_spec k 0); [lia|].
    unfold len. destruct m as [|[|m]]; [lia|lia|]. simpl length. lia.
Qed.

(** *** The marks of the filler *)

Lemma dict_get_map_seqZ {V} (F : Z -> V) (a n q : Z) :
  dict_get q (map (fun q0 => (q0 + 1, F q0)) (seqZ a n))
  = if decide (a + 1 <= q < a + 1 + n) then Some (F (q - 1)) else None.
Proof.
  destruct (Z.le_gt_cases n 0) as [Hn|Hn].
  { rewrite seqZ_nil by exact Hn. simpl. case_decide; [lia|reflexivity]. }
  rewrite <- (Z2Nat.id n) by lia. generalize (Z.to_nat n). clear. intros n.
  revert a. induction n as [|n IH]; intros a.
  { rewrite seqZ_nil by lia. simpl. case_decide; [lia|reflexivity]. }
  rewrite seqZ_cons by lia. simpl map. simpl dict_get.
  replace (Z.pred (Z.of_nat (S n))) with (Z.of_nat n) by lia.
  rewrite IH.
  destruct (decide (a + 1 = q)) as [<-|Hne].
  - case_decide; [|lia]. do 2 f_equal. lia.
  - repeat case_decide; try reflexivity; lia.
Qed.

(** [template[q]] of the default template, for a question of the sheet. *)
Lemma default_template_entry (q : Z) :
  dict_get q (create_answer_template filler_init 50 4)
  = if decide (1 <= q <= 50)
    then Some (map (fun il : Z * string =>
                      (snd il,
                       {| circle_center :=
                            (298 + (q - 1) / 25 * 1040 + fst il * 120,
                             488 + (q - 1) mod 25 * 90);
                          radius := 38 |}))
                   (enumerate_from 0 ["A"; "B"; "C"; "D"]%string))
    else None.
Proof.
  unfold create_answer_template.
  change (option_letters 4) with ["A"; "B"; "C"; "D"]%string.
  rewrite (dict_get_map_seqZ
             (fun q0 =>
                map (fun il : Z * string =>
                       (snd il,
                        {| circle_center :=
                             (filler_margin filler_init
                              + q0 / 25 * ((2480 - 2 * filler_margin filler_init) / 2)
                              + 60 + fst il * filler_option_spacing filler_init
                              + filler_circle_radius filler_init,
                              450 + q0 mod 25 * filler_question_spacing filler_init
                              + filler_circle_radius filler_init);
                           radius := filler_circle_radius filler_init |}))
                    (enumerate_from 0 ["A"; "B"; "C"; "D"]%string))).
  repeat case_decide; try lia; [|reflexivity].
  f_equal. apply map_ext. intros il. simpl.
  change ((2480 - 2 * 200) / 2) with 1040.
  do 2 f_equal. apply pair_equal_spec. split; lia.
Qed.

(** [template[q][letter]['center']] of the default template. *)
Lemma default_template_center (q : Z) (i : nat) (letter : string) :
  1 <= q <= 50 -> choices !! i = Some letter ->
  template_center (create_answer_template filler_init 50 4) q letter
  = Some (298 + (q - 1) / 25 * 1040 + Z.of_nat i * 120,
          488 + (q - 1) mod 25 * 90).
Proof.
  intros Hq Hi. unfold template_center. rewrite default_template_entry.
  destruct (decide (1 <= q <= 50)); [|lia].
  destruct i as [|[|[|[|i]]]]; simpl in Hi; try discriminate;
    injection Hi as <-; reflexivity.
Qed.

Lemma printed_circle_in_grid (h q i : Z) :
  1 <= q <= 50 -> 0 <= i < 4 ->
  In (printed_circle q i) (create_mcq_grid (generator_init 2480 h) 50 4).
Proof.
  intros Hq Hi. apply In_create_mcq_grid. exists (q - 1), i.
  split; [lia|]. split; [exact Hi|].
  unfold printed_circle. simpl.
  change ((2480 - 2 * 200) / 2) with 1040. box_eq.
Qed.

Lemma flat_map_length_le {A B} (f : A -> list B) (l : list A) :
  (forall x, (length (f x) <= 1)%nat) ->
  (length (flat_map f l) <= length l)%nat.
Proof.
  intros H. induction l as [|x l IH]; simpl; [lia|].
  rewrite length_app. specialize (H x). lia.
Qed.

(** X24. Whatever answers it is given, the filler marks only circles of the
    sheet: a mark is drawn for an answer exactly when its question is one of
    1 to 50 and its letter one of A to D, and it then fills the circle the
    generator printed for that question and letter, five pixels inside the
    outline. Answers for other questions or with other letters, E included,
    are dropped without a word. *)
Theorem marks_fill_printed_circles (answers : dict Z (option string)) :
  (forall b,
      In b (fill_answers_on_sheet filler_init answers) <->
      exists q (i : nat) letter,
        In (q, Some letter) answers /\ 1 <= q <= 50
        /\ choices !! i = Some letter
        /\ b = inset 5 (printed_circle q (Z.of_nat i)))
  /\ (forall h q i, 1 <= q <= 50 -> 0 <= i < 4 ->
        In (printed_circle q i)
           (create_mcq_grid (generator_init 2480 h) 50 4))
  /\ (length (fill_answers_on_sheet filler_init answers)
      <= length answers)%nat.
Proof.
  split; [|split; [intros h q i; apply printed_circle_in_grid|]].
  - intros b. unfold fill_answers_on_sheet. rewrite in_flat_map. split.
    + intros ([q [letter|]] & Hin & Hb); [|destruct Hb].
      rewrite default_template_entry in Hb.
      destruct letter as [|c letter]; [destruct Hb|].
      destruct (decide (1 <= q <= 50)) as [Hq|]; [|destruct Hb].
      remember (String c letter) as l eqn:El. clear El c letter.
      simpl in Hb.
      destruct (decide ("A"%string = l)) as [<-|_];
        [|destruct (decide ("B"%string = l)) as [<-|_];
          [|destruct (decide ("C"%string = l)) as [<-|_];
            [|destruct (decide ("D"%string = l)) as [<-|_];
              [|destruct Hb]]]];
        simpl in Hb; destruct Hb as [<-|[]].
      * exists q, 0%nat, "A"%string. repeat (split; [assumption || reflexivity|]).
        unfold inset, printed_circle. box_eq.
      * exists q, 1%nat, "B"%string. repeat (split; [assumption || reflexivity|]).
        unfold inset, printed_circle. box_eq.
      * exists q, 2%nat, "C"%string. repeat (split; [assumption || reflexivity|]).
        unfold inset, printed_circle. box_eq.
      * exists q, 3%nat, "D"%string. repeat (split; [assumption || reflexivity|]).
        unfold inset, printed_circle. box_eq.
    + intros (q & i & letter & Hin & Hq & Hi & ->).
      exists (q, Some letter). split; [exact Hin|].
      rewrite default_template_entry.
      destruct (decide (1 <= q <= 50)); [|lia].
      destruct i as [|[|[|[|i]]]]; simpl in Hi; try discriminate;
        injection Hi as <-; simpl; left; unfold inset, printed_circle; box_eq.
  - unfold fill_answers_on_sheet.
    generalize (create_answer_template filler_init 50 4). intros template.
    apply flat_map_length_le.
    intros [q [[|c letter]|]]; [simpl; lia| |simpl; lia].
    destruct (dict_get q template) as [options|]; [|simpl; lia].
    destruct (dict_get (String c letter) options) as [c'|]; [|simpl; lia].
    destruct (circle_center c'). simpl. lia.
Qed.

End SheetExtras.

(** ** From the printed sheet to the answers *)
Module RoundTripExtras.
Import Py Scanner PyFacts RowFacts Layout Sheet SheetExtras SheetFixtures.

Lemma is_left_iff (row : list bubble) (b : bubble) :
  row <> [] ->
  Qltb (inject_Z (center_x b)) (mean (map center_x row)) = true
  <-> center_x b * len row < sum_Z (map center_x row).
Proof.
  intros Hne. rewrite MappingExtras.Qltb_lt, MappingExtras.lt_mean_iff.
  - unfold len. now rewrite length_map.
  - intros E. apply map_eq_nil in E. contradiction.
Qed.

Lemma is_right_iff (row : list bubble) (b : bubble) :
  row <> [] ->
  Qle_bool (mean (map center_x row)) (inject_Z (center_x b)) = true
  <-> sum_Z (map center_x row) <= center_x b * len row.
Proof.
  intros Hne. pose proof (is_left_iff row b Hne) as Hl.
  unfold Qltb in Hl. rewrite negb_true_iff in Hl.
  destruct (Qle_bool _ _); split; intros H; try reflexivity; try discriminate.
  - destruct (Z.le_gt_cases (sum_Z (map center_x row)) (center_x b * len row))
      as [Hle|Hgt]; [exact Hle|]. apply Hl in Hgt. discriminate.
  - assert (Hf : false = false) by reflexivity. apply Hl in Hf. lia.
Qed.

(** A row whose first bubbles lie left of the mean x and whose other
    bubbles do not is split between them. *)
Lemma split_at_mean (l r : list bubble) :
  Forall (fun b => center_x b * len (l ++ r) < sum_Z (map center_x (l ++ r))) l ->
  Forall (fun b => sum_Z (map center_x (l ++ r)) <= center_x b * len (l ++ r)) r ->
  left_of (l ++ r) = l /\ right_of (l ++ r) = r.
Proof.
  intros Hl Hr. destruct (l ++ r) as [|b0 row0] eqn:Erow.
  { apply app_eq_nil in Erow as [-> ->]. split; reflexivity. }
  assert (Hne : l ++ r <> []) by (rewrite Erow; discriminate).
  rewrite <- Erow in *. clear Erow b0 row0.
  unfold left_of, right_of. rewrite !List.filter_app. split.
  - rewrite (GridExtras.filter_all _ l), (GridExtras.filter_none _ r);
      [apply app_nil_r| |].
    + eapply List.Forall_impl; [|exact Hr]. intros b Hb. simpl in Hb.
      destruct (Qltb _ _) eqn:E; [|reflexivity].
      apply is_left_iff in E; [lia|exact Hne].
    + eapply List.Forall_impl; [|exact Hl]. intros b Hb.
      now apply is_left_iff.
  - rewrite (GridExtras.filter_none _ l), (GridExtras.filter_all _ r);
      [reflexivity| |].
    + eapply List.Forall_impl; [|exact Hr]. intros b Hb.
      now apply is_right_iff.
    + eapply List.Forall_impl; [|exact Hl]. intros b Hb. simpl in Hb.
      destruct (Qle_bool _ _) eqn:E; [|reflexivity].
      apply is_right_iff in E; [lia|exact Hne].
Qed.

(** A block of four bubbles in x order is read from left to right. *)
Lemma four_sorted_side th (side : list bubble) :
  length side = 4%nat ->
  Sorted (fun a b => center_x a <= center_x b) side ->
  side_letter th side = first_letter th (enumerate_from 0 side).
Proof.
  intros Hlen Hs. unfold side_letter, sort_by_x.
  rewrite (sorted_by_Z_sorted center_x side Hs).
  assert (Hl : len side = 4) by (unfold len; lia).
  unfold slice. rewrite Hl.
  change (Z.to_nat (slice_bound 4 4 - slice_bound 4 0)) with 4%nat.
  change (Z.to_nat (slice_bound 4 0)) with 0%nat.
  rewrite drop_0, firstn_all2 by lia. reflexivity.
Qed.

Lemma concat_two_columns {A B} (f g : A -> list B) (l : list A) :
  Permutation (concat (map (fun k => f k ++ g k) l))
              (flat_map f l ++ flat_map g l).
Proof.
  induction l as [|x l IH]; simpl; [reflexivity|].
  rewrite IH, <- !app_assoc. apply Permutation_app_head.
  rewrite !app_assoc. apply Permutation_app_tail, Permutation_app_comm.
Qed.

(** Rows at the heights [Y k], which grow by more than the tolerance, with
    all members of a row at the same height, lie in bands. *)
Lemma banded_map_seqZ (F : Z -> list bubble) (Y : Z -> Z) (a : Z) (n : nat) :
  (forall k, a <= k < a + Z.of_nat n ->
             F k <> [] /\ Forall (fun b => center_y b = Y k) (F k)) ->
  (forall j k, j < k -> Y j + tolerance < Y k) ->
  banded (map F (seqZ a (Z.of_nat n))).
Proof.
  intros HF HY. revert a HF. induction n as [|n IH]; intros a HF.
  { rewrite seqZ_nil by lia. exact I. }
  rewrite seqZ_cons by lia. simpl.
  replace (Z.pred (Z.of_nat (S n))) with (Z.of_nat n) by lia.
  split; [|apply IH; intros k Hk; apply HF; lia].
  destruct (HF a ltac:(lia)) as [Hne Hrow].
  destruct (F a) as [|top row] eqn:Ea; [contradiction|].
  exists top. split; [now left|].
  apply Forall_cons in Hrow as Htop. destruct Htop as [Htop _]. split.
  - eapply List.Forall_impl; [|exact Hrow]. intros b Hb. simpl in Hb.
    unfold tolerance. lia.
  - rewrite List.Forall_forall. intros r Hr.
    apply in_map_iff in Hr as (k & <- & Hk).
    apply list_elem_of_In, elem_of_seqZ in Hk.
    destruct (HF k ltac:(lia)) as [_ Hrk].
    eapply List.Forall_impl; [|exact Hrk]. intros b Hb. simpl in Hb.
    rewrite Htop, Hb. apply HY. lia.
Qed.

(** X25. If detection finds one candidate per printed circle, centred where the
    template has the circle, then every question of the sheet is read from
    its own four circles, whatever the order of detection and whatever the
    other attributes of the candidates: the answer of question [q] is the
    letter of the first of its circles, from A to D, that is filled above
    the threshold, and the question is unanswered when none is. *)
Theorem printed_sheet_is_read_question_by_question
        th (bubble_at : Z -> Z -> bubble) (found : list bubble) :
  (forall q (i : nat) letter,
      1 <= q <= 50 -> choices !! i = Some letter ->
      template_center (create_answer_template filler_init 50 4) q letter
      = Some (center (bubble_at q (Z.of_nat i)))) ->
  Permutation found
              (flat_map (fun q => map (bubble_at q) (seqZ 0 4)) (seqZ 1 50)) ->
  forall q, 1 <= q <= 50 ->
    map_bubbles_to_questions th (organize_bubbles_by_rows found) !! q
    = first_letter th (enumerate_from 0 (map (bubble_at q) (seqZ 0 4))).
Proof.
  intros Htemplate Hfound.
  change (seqZ 0 4) with [0; 1; 2; 3] in *.
  assert (Hcenter : forall q i,
             1 <= q <= 50 -> 0 <= i < 4 ->
             center (bubble_at q i)
             = (298 + (q - 1) / 25 * 1040 + i * 120,
                488 + (q - 1) mod 25 * 90)).
  { intros q i Hq Hi.
    destruct (lookup_lt_is_Some_2 choices (Z.to_nat i)) as [letter Hl].
    { simpl. lia. }
    pose proof (Htemplate q _ letter Hq Hl) as H.
    rewrite (default_template_center q _ letter Hq Hl) in H.
    rewrite Z2Nat.id in H by lia. now injection H as <-. }
  set (row := fun k => map (bubble_at (k + 1)) [0; 1; 2; 3]
                       ++ map (bubble_at (k + 26)) [0; 1; 2; 3]).
  assert (Hrow : forall k, 0 <= k < 25 ->
             map center (row k)
             = [(298, 488 + k * 90); (418, 488 + k * 90);
                (538, 488 + k * 90); (658, 488 + k * 90);
                (1338, 488 + k * 90); (1458, 488 + k * 90);
                (1578, 488 + k * 90); (1698, 488 + k * 90)]).
  { intros k Hk. unfold row. simpl.
    rewrite (Hcenter (k + 1) 0), (Hcenter (k + 1) 1),
      (Hcenter (k + 1) 2), (Hcenter (k + 1) 3),
      (Hcenter (k + 26) 0), (Hcenter (k + 26) 1),
      (Hcenter (k + 26) 2), (Hcenter (k + 26) 3) by lia.
    replace (k + 1 - 1) with k by lia.
    replace (k + 26 - 1) with (k + 1 * 25) by lia.
    rewrite Z.div_add, Z_mod_plus_full by lia.
    rewrite (Z.div_small k 25), (Z.mod_small k 25) by lia.
    reflexivity. }
  assert (Hxs : forall k, 0 <= k < 25 ->
             map center_x (row k)
             = [298; 418; 538; 658; 1338; 1458; 1578; 1698]).
  { intros k Hk. change center_x with (fun b => fst (center b)).
    rewrite <- (map_map center fst), (Hrow k Hk). reflexivity. }
  assert (Hys : forall k, 0 <= k < 25 ->
             Forall (fun b => center_y b = 488 + k * 90) (row k)).
  { intros k Hk. pose proof (Hrow k Hk) as H. unfold row in *. simpl in H |- *.
    injection H as H0 H1 H2 H3 H4 H5 H6 H7.
    repeat constructor; unfold center_y;
      [rewrite H0|rewrite H1|rewrite H2|rewrite H3
       |rewrite H4|rewrite H5|rewrite H6|rewrite H7]; reflexivity. }
  set (grid := map row (seqZ 0 25)).
  assert (Hperm : Permutation found (concat grid)).
  { rewrite Hfound. unfold grid, row. rewrite concat_two_columns.
    change (seqZ 1 50) with (seqZ 1 25 ++ seqZ 26 25).
    rewrite flat_map_app. reflexivity. }
  assert (Hband : banded grid).
  { unfold grid. apply (banded_map_seqZ row (fun k => 488 + k * 90) 0 25).
    - intros k Hk. split; [|apply Hys; lia]. unfold row. discriminate.
    - intros j k Hjk. unfold tolerance. lia. }
  assert (Hnd : Forall distinct_x grid).
  { unfold grid. rewrite List.Forall_forall. intros r Hr.
    apply in_map_iff in Hr as (k & <- & Hk).
    apply list_elem_of_In, elem_of_seqZ in Hk.
    unfold distinct_x. rewrite Hxs by lia.
    repeat constructor; rewrite ?elem_of_cons, ?elem_of_nil;
      intuition discriminate. }
  pose proof (GridExtras.organize_banded grid found Hperm Hband Hnd) as Horg.
  assert (Hsorted : forall k, 0 <= k < 25 -> sort_by_x (row k) = row k).
  { intros k Hk. apply sorted_by_Z_sorted.
    pose proof (Hxs k Hk) as H. unfold row in *. simpl in H |- *.
    injection H as H0 H1 H2 H3 H4 H5 H6 H7.
    repeat constructor; lia. }
  assert (Hlookup : forall k, 0 <= k < 25 ->
             sorted_rows (organize_bubbles_by_rows found) !! Z.to_nat k
             = Some (k, row k)).
  { intros k Hk.
    rewrite RowExtras.organize_mean_sorted, Horg, enumerate_from_lookup.
    unfold grid. change (map sort_by_x (map row (seqZ 0 25)))
      with (sort_by_x <$> (row <$> seqZ 0 25)).
    rewrite !list_lookup_fmap.
    rewrite (proj2 (lookup_seqZ 0 25 (Z.to_nat k) (0 + Z.of_nat (Z.to_nat k))))
      by lia.
    simpl. rewrite Z2Nat.id by lia. simpl. now rewrite Hsorted by lia. }
  assert (Hsides : forall k, 0 <= k < 25 ->
             left_of (row k) = map (bubble_at (k + 1)) [0; 1; 2; 3]
             /\ right_of (row k) = map (bubble_at (k + 26)) [0; 1; 2; 3]).
  { intros k Hk. pose proof (Hxs k Hk) as H.
    unfold row in *. apply split_at_mean.
    - rewrite H. simpl in H |- *. injection H as H0 H1 H2 H3 H4 H5 H6 H7.
      unfold len. simpl. repeat constructor; lia.
    - rewrite H. simpl in H |- *. injection H as H0 H1 H2 H3 H4 H5 H6 H7.
      unfold len. simpl. repeat constructor; lia. }
  assert (Hside : forall k, 0 <= k < 25 ->
             Sorted (fun a b => center_x a <= center_x b)
                    (map (bubble_at (k + 1)) [0; 1; 2; 3])
             /\ Sorted (fun a b => center_x a <= center_x b)
                       (map (bubble_at (k + 26)) [0; 1; 2; 3])).
  { intros k Hk. pose proof (Hxs k Hk) as H. unfold row in H.
    simpl in H |- *. injection H as H0 H1 H2 H3 H4 H5 H6 H7.
    split; repeat constructor; lia. }
  intros q Hq.
  destruct (Z.le_gt_cases q 25) as [Hleft|Hright].
  - pose proof (MappingFacts.answer_of_row th _ (Z.to_nat (q - 1)) _ LeftColumn
                  (Hlookup (q - 1) ltac:(lia)) ltac:(simpl; lia)) as H.
    simpl first_question in H. rewrite Z2Nat.id in H by lia.
    replace (q - 1 + 1) with q in H by lia. rewrite H.
    unfold row_letter. simpl snd.
    replace (len (row (q - 1)) <? 4) with false by reflexivity.
    simpl side_of. rewrite (proj1 (Hsides (q - 1) ltac:(lia))).
    replace (q - 1 + 1) with q by lia.
    apply four_sorted_side; [reflexivity|].
    pose proof (proj1 (Hside (q - 1) ltac:(lia))) as Hs.
    now replace (q - 1 + 1) with q in Hs by lia.
  - pose proof (MappingFacts.answer_of_row th _ (Z.to_nat (q - 26)) _ RightColumn
                  (Hlookup (q - 26) ltac:(lia)) ltac:(simpl; lia)) as H.
    simpl first_question in H. rewrite Z2Nat.id in H by lia.
    replace (q - 26 + 26) with q in H by lia. rewrite H.
    unfold row_letter. simpl snd.
    replace (len (row (q - 26)) <? 4) with false by reflexivity.
    simpl side_of. rewrite (proj2 (Hsides (q - 26) ltac:(lia))).
    replace (q - 26 + 26) with q by lia.
    apply four_sorted_side; [reflexivity|].
    pose proof (proj2 (Hside (q - 26) ltac:(lia))) as Hs.
    now replace (q - 26 + 26) with q in Hs by lia.
Qed.

Lemma printed_sheet_is_read_question_by_question_witness :
  map_bubbles_to_questions (6 # 10) (organize_bubbles_by_rows detected) !! 27
  = Some "C"%string.
Proof.
  rewrite (printed_sheet_is_read_question_by_question (6 # 10) pencilled).
  - reflexivity.
  - intros q i letter Hq Hi.
    now rewrite (default_template_center q i letter Hq Hi).
  - unfold detected. symmetry. apply Permutation_rev.
  - lia.
Defined.

End RoundTripExtras.

(** ** The exporter *)
Module ExporterExtras.
Import Py Scanner PyFacts Exporter ExporterFixtures.

Lemma len_ordered_answers (answers_dict : gmap string value) :
  length (ordered_answers answers_dict) = 50%nat.
Proof. unfold ordered_answers. now rewrite length_map, length_seqZ. Qed.

(** One export of a loaded object to a file that can be opened. *)
Lemma export_step (d : disk) (json_file csv_file : string) answers_dict :
  json_files d json_file = Object answers_dict ->
  open_error d csv_file = None ->
  let d' := fst (fst (export_answers_to_csv d json_file csv_file)) in
  let old := default [] (csv_files d !! csv_file) in
  json_files d' = json_files d
  /\ open_error d' = open_error d
  /\ csv_files d' !! csv_file
     = Some ((if bool_decide (old = []) then [headers] else old)
             ++ [ordered_answers answers_dict])
  /\ forall other, other <> csv_file ->
                   csv_files d' !! other = csv_files d !! other.
Proof.
  intros Hjson Hopen. unfold export_answers_to_csv.
  rewrite Hjson, Hopen. simpl.
  split; [reflexivity|]. split; [reflexivity|]. split.
  - rewrite lookup_insert_eq. f_equal.
    destruct (csv_files d !! csv_file) as [old|] eqn:E; simpl.
    + destruct (bool_decide (old = [])) eqn:Eo.
      * apply bool_decide_eq_true in Eo. subst old. reflexivity.
      * reflexivity.
    + reflexivity.
  - intros other Hother. now rewrite lookup_insert_ne.
Qed.

Lemma export_each_spec (jsons : list string) (csv_file : string) :
  forall (objects : list (gmap string value)) (d : disk),
    Forall2 (fun json_file o => json_files d json_file = Object o)
            jsons objects ->
    open_error d csv_file = None ->
    let old := default [] (csv_files d !! csv_file) in
    let d' := export_each d jsons csv_file in
    (jsons <> [] ->
     csv_files d' !! csv_file
     = Some ((if bool_decide (old = []) then [headers] else old)
             ++ map ordered_answers objects))
    /\ forall other, other <> csv_file ->
                     csv_files d' !! other = csv_files d !! other.
Proof.
  induction jsons as [|j jsons IH]; intros objects d Hjsons Hopen; simpl.
  { split; [contradiction|reflexivity]. }
  apply Forall2_cons_inv_l in Hjsons as (o & objects' & Hj & Hrest & ->).
  destruct (export_step d j csv_file o Hj Hopen) as (Hjs & Hop & Hcsv & Hoth).
  set (d1 := fst (fst (export_answers_to_csv d j csv_file))) in *.
  assert (Hrest1 : Forall2 (fun json_file o => json_files d1 json_file = Object o)
                           jsons objects').
  { eapply Forall2_impl; [exact Hrest|].
    intros j' o' H. simpl in H. now rewrite Hjs. }
  destruct (IH objects' d1 Hrest1 ltac:(congruence)) as [IHcsv IHoth].
  split.
  - intros _. destruct jsons as [|j2 jsons].
    { apply Forall2_nil_inv_l in Hrest. subst objects'. exact Hcsv. }
    rewrite IHcsv by discriminate. rewrite Hcsv. simpl default.
    rewrite bool_decide_eq_false_2.
    + simpl map. now rewrite <- app_assoc.
    + intros E. apply app_eq_nil in E as [_ E]. discriminate.
  - intros other Hother. rewrite IHoth by exact Hother. now apply Hoth.
Qed.

(** X26. Run once per saved scan on the same CSV file, the exporter builds a
    table: the header row is written once, exactly when the file was missing
    or empty before the first run, every run appends one row of 50 cells
    for its JSON file, in the order of the runs, and no other file changes. *)
Theorem exports_build_a_table
        (d : disk) (jsons : list string) (csv_file : string)
        (objects : list (gmap string value)) :
  Forall2 (fun json_file o => json_files d json_file = Object o)
          jsons objects ->
  open_error d csv_file = None ->
  jsons <> [] ->
  let old := default [] (csv_files d !! csv_file) in
  let d' := export_each d jsons csv_file in
  csv_files d' !! csv_file
  = Some ((if bool_decide (old = []) then [headers] else old)
          ++ map ordered_answers objects)
  /\ Forall (fun r => length r = 50%nat) (headers :: map ordered_answers objects)
  /\ forall other, other <> csv_file ->
                   csv_files d' !! other = csv_files d !! other.
Proof.
  intros Hjsons Hopen Hne.
  destruct (export_each_spec jsons csv_file objects d Hjsons Hopen)
    as [Hcsv Hoth].
  simpl. split; [now apply Hcsv|]. split; [|exact Hoth].
  constructor; [reflexivity|].
  rewrite List.Forall_forall. intros r Hr.
  apply in_map_iff in Hr as (o & <- & _). apply len_ordered_answers.
Qed.

Lemma exports_build_a_table_witness :
  csv_files (export_each two_scans ["first.json"; "second.json"]%string
                         "answers.csv")
    !! "answers.csv"%string
  = Some [headers; ordered_answers three_answers; ordered_answers two_answers].
Proof.
  pose proof (exports_build_a_table
                two_scans ["first.json"; "second.json"]%string "answers.csv"
                [three_answers; two_answers]) as H.
  simpl in H. apply H.
  - repeat constructor.
  - reflexivity.
  - discriminate.
Defined.

(** *** The summary *)

Lemma filter_map_length {A B} (p : B -> bool) (h : A -> B) (l : list A) :
  length (List.filter p (map h l))
  = length (List.filter (fun x => p (h x)) l).
Proof.
  induction l as [|x l IH]; simpl; [reflexivity|].
  destruct (p (h x)); simpl; now rewrite IH.
Qed.

Lemma filter_split_length {A} (p : A -> bool) (l : list A) :
  (length (List.filter p l) + length (List.filter (fun x => negb (p x)) l)
   = length l)%nat.
Proof.
  induction l as [|x l IH]; simpl; [reflexivity|].
  destruct (p x); simpl; lia.
Qed.

Lemma filter_length_le {A} (p q : A -> bool) (l : list A) :
  (forall x, In x l -> p x = true -> q x = true) ->
  (length (List.filter p l) <= length (List.filter q l))%nat
  /\ (length (List.filter p l) = length (List.filter q l)
      <-> forall x, In x l -> q x = true -> p x = true).
Proof.
  induction l as [|x l IH]; intros H; simpl.
  { split; [lia|]. split; [intros _ ? []|reflexivity]. }
  destruct IH as [IH1 IH2]; [intros y Hy; apply H; now right|].
  pose proof (H x (or_introl eq_refl)) as Hx.
  pose proof (List.filter_length_le q l) as Hq.
  destruct (p x) eqn:Ep, (q x) eqn:Eq; simpl.
  - split; [lia|]. split.
    + intros E y [<-|Hy] Hqy; [exact Ep|]. apply IH2; [lia|exact Hy|exact Hqy].
    + intros Hall. f_equal. apply IH2. intros y Hy. apply Hall. now right.
  - specialize (Hx eq_refl). discriminate.
  - split; [lia|]. split; [lia|].
    intros Hall. specialize (Hall x (or_introl eq_refl) Eq). congruence.
  - split; [lia|]. split.
    + intros E y [<-|Hy] Hqy; [congruence|]. now apply IH2.
    + intros Hall. apply IH2. intros y Hy. apply Hall. now right.
Qed.

Lemma missing_is_unanswered (answers_dict : gmap string value) (i : Z) :
  bool_decide (answers_dict !! str i = None) = true ->
  negb (is_not_NA (default (Str "NA") (answers_dict !! str i))) = true.
Proof. intros H. apply bool_decide_eq_true in H. now rewrite H. Qed.

(** X27. The summary adds up to 50, but its last two lines can disagree: a
    question is counted as answered when its key is present with anything
    but the string NA, [null] included, while the missing questions are only
    those whose key is absent. The two agree exactly when no question holds
    the string NA. *)
Theorem summary_adds_up (answers_dict : gmap string value) :
  let ordered := ordered_answers answers_dict in
  let answered := length (List.filter is_not_NA ordered) in
  let unanswered := length (List.filter (fun a => negb (is_not_NA a)) ordered) in
  (answered + unanswered = 50)%nat
  /\ answered
     = length (List.filter
                 (fun i => match answers_dict !! str i with
                           | None | Some (Str "NA") => false
                           | Some _ => true
                           end) (seqZ 1 50))
  /\ (length (missing_questions answers_dict) <= unanswered)%nat
  /\ (length (missing_questions answers_dict) = unanswered
      <-> forall i, 1 <= i <= 50 ->
                    answers_dict !! str i <> Some (Str "NA")).
Proof.
  intros ordered answered unanswered. subst ordered answered unanswered.
  pose proof (filter_split_length is_not_NA (ordered_answers answers_dict)) as Hs.
  rewrite len_ordered_answers in Hs.
  split; [exact Hs|]. unfold ordered_answers. rewrite !filter_map_length.
  split.
  { f_equal. apply List.filter_ext. intros i.
    destruct (answers_dict !! str i) as [[s| |t]|]; try reflexivity.
    simpl. destruct (String.eqb_spec s "NA") as [->|Hs']; [reflexivity|].
    simpl. destruct s as [|a s]; [reflexivity|].
    repeat (match goal with
            | |- context [match ?x with _ => _ end] =>
                destruct x; try reflexivity; try congruence
            end). }
  unfold missing_questions.
  destruct (filter_length_le
              (fun i => bool_decide (answers_dict !! str i = None))
              (fun i => negb (is_not_NA (default (Str "NA")
                                                 (answers_dict !! str i))))
              (seqZ 1 50)) as [Hle Heq].
  { intros i _. apply missing_is_unanswered. }
  split; [exact Hle|]. rewrite Heq. split.
  - intros H i Hi E.
    assert (Hin : In i (seqZ 1 50)).
    { apply list_elem_of_In, elem_of_seqZ. lia. }
    specialize (H i Hin). rewrite E in H. simpl in H.
    specialize (H eq_refl). discriminate.
  - intros H i Hin Hna.
    apply list_elem_of_In, elem_of_seqZ in Hin.
    apply bool_decide_eq_true.
    destruct (answers_dict !! str i) as [[s| |t]|] eqn:E;
      try reflexivity; try discriminate.
    simpl in Hna. apply negb_true_iff, negb_false_iff in Hna.
    apply String.eqb_eq in Hna. subst s. exfalso. apply (H i); [lia|exact E].
Qed.

(** *** From the scanner to the exporter *)

(** The object read back from what a scan saved always exists: the keys
    are the decimal strings of the question numbers. *)
Lemma holds_kmap (answers : gmap Z string) :
  holds (kmap str (Str <$> answers)) answers.
Proof.
  intros q. unfold str. rewrite (lookup_kmap pretty).
  now rewrite lookup_fmap.
Qed.

(** X28. The exporter reads what the scanner saved: when the loaded object is
    the mapping of a scan under its decimal keys, the row has the letter of
    every answered question at the position of its number and NA everywhere
    else, the count of answered questions is the size of the mapping, and
    the missing questions are the unanswered ones; here the two counts of
    the summary agree. *)
Theorem exporter_reads_what_the_scanner_saved
        th (organized_bubbles : rows_dict) (answers_dict : gmap string value) :
  holds answers_dict (map_bubbles_to_questions th organized_bubbles) ->
  let answers := map_bubbles_to_questions th organized_bubbles in
  ordered_answers answers_dict
  = map (fun q => Str (default "NA"%string (answers !! q))) (seqZ 1 50)
  /\ Forall (fun a => exists s, a = Str s /\ In s ("NA"%string :: choices))
            (ordered_answers answers_dict)
  /\ length (List.filter is_not_NA (ordered_answers answers_dict))
     = size answers
  /\ missing_questions answers_dict
     = List.filter (fun q => bool_decide (answers !! q = None)) (seqZ 1 50)
  /\ length (missing_questions answers_dict)
     = length (List.filter (fun a => negb (is_not_NA a))
                           (ordered_answers answers_dict)).
Proof.
  intros Hholds answers.
  assert (Hletter : forall q c, answers !! q = Some c ->
                                1 <= q <= 50 /\ In c choices).
  { intros q c Hq. subst answers.
    rewrite MappingFacts.map_bubbles_to_questions_lookup in Hq. split.
    - eapply MappingFacts.slot_answer_range, Hq.
    - apply MappingFacts.slot_answer_letter in Hq as (col & row & _ & Hc).
      eapply MappingFacts.row_letter_choices, Hc. }
  assert (Hrow : ordered_answers answers_dict
                 = map (fun q => Str (default "NA"%string (answers !! q)))
                       (seqZ 1 50)).
  { unfold ordered_answers. apply map_ext. intros q. rewrite Hholds.
    fold answers. now destruct (answers !! q). }
  assert (Hmissing : missing_questions answers_dict
                     = List.filter (fun q => bool_decide (answers !! q = None))
                                   (seqZ 1 50)).
  { unfold missing_questions. apply List.filter_ext. intros q.
    rewrite Hholds. fold answers.
    destruct (answers !! q); simpl; reflexivity. }
  assert (Hnot_NA : forall q,
             is_not_NA (Str (default "NA"%string (answers !! q)))
             = bool_decide (is_Some (answers !! q))).
  { intros q. destruct (answers !! q) as [c|] eqn:E; [|reflexivity].
    destruct (Hletter q c E) as [_ Hc].
    destruct Hc as [<-|[<-|[<-|[<-|[]]]]]; reflexivity. }
  split; [exact Hrow|]. split; [|split; [|split; [exact Hmissing|]]].
  - rewrite Hrow, List.Forall_forall. intros a Ha.
    apply in_map_iff in Ha as (q & <- & _).
    destruct (answers !! q) as [c|] eqn:E; simpl.
    + exists c. split; [reflexivity|]. right. eapply Hletter, E.
    + exists "NA"%string. split; [reflexivity|now left].
  - rewrite Hrow, filter_map_length.
    rewrite (CliExtras.size_as_filter (seqZ 1 50) answers).
    + f_equal. apply List.filter_ext. intros q. apply Hnot_NA.
    + apply NoDup_seqZ.
    + intros q [c Hc]. apply elem_of_seqZ.
      destruct (Hletter q c Hc). lia.
  - rewrite Hmissing, Hrow, filter_map_length. f_equal.
    apply List.filter_ext. intros q. rewrite Hnot_NA.
    destruct (answers !! q); reflexivity.
Qed.

Lemma exporter_reads_what_the_scanner_saved_witness :
  ordered_answers
    (kmap str (Str <$> map_bubbles_to_questions
                         (6 # 10) [(0, Fixtures.double_marked_row)]))
  = Str "A" :: map (fun _ => Str "NA") (seqZ 2 49).
Proof.
  destruct (exporter_reads_what_the_scanner_saved
              (6 # 10) [(0, Fixtures.double_marked_row)] _
              (holds_kmap _)) as [H _].
  rewrite H. reflexivity.
Defined.

End ExporterExtras.
